(** * ConfigCore: version comparator, compatibility gate, manifest resolver,
      plugin discovery, installer and config document

    A shallow embedding of [src/ConfigCore.py].  Python functions become
    Rocq functions with the source's names; code that can raise lives in
    the [result] monad, and [try ... except Exception] is [try_except].

    Text is modelled by Rocq strings.  On the ASCII range the string
    primitives below ([strip], [split], [int], [repr], [splitlines]) follow
    CPython 3.11; characters above 127 are treated as ordinary printable,
    non-blank, non-digit characters, so statements that depend on them
    are made for ASCII text. *)

From Stdlib Require Import ZArith Ascii.
From stdpp Require Import base tactics option list gmap strings pretty sorting.

Open Scope Z_scope.

(** ** Exceptions *)

(** The exception classes the modelled code can meet.  All of them derive
    from [Exception], so [except Exception] catches every one. *)
Inductive exn : Type :=
  | AttributeError
  | TypeError
  | ValueError
  | UnboundLocalError
  | ImportError
  | IndexError (msg : string)
  | UnicodeDecodeError
  | JSONDecodeError
  | FileNotFoundError (msg : string)
  | FileExistsError
  | NotADirectoryError
  | IsADirectoryError
  | PermissionError
  | BadZipFile
  | HTTPError (code : Z)
  | URLError (reason : string)
  | InvalidURL
  | IncompleteRead
  | TimeoutError
  | OverflowError
  | RuntimeError (msg : string).

Inductive result (A : Type) : Type :=
  | Ok (a : A)
  | Raise (e : exn).
Arguments Ok {A} a.
Arguments Raise {A} e.

#[global] Instance result_ret : MRet result := @Ok.
#[global] Instance result_bind : MBind result := λ A B f m,
  match m with Ok a => f a | Raise e => Raise e end.

(** [try: body except Exception: handler] *)
Definition try_except {A} (body : result A) (handler : exn → result A) : result A :=
  match body with Ok a => Ok a | Raise e => handler e end.

Definition raises {A} (r : result A) : Prop := ∃ e, r = Raise e.
Definition returns {A} (r : result A) : Prop := ∃ a, r = Ok a.

(** ** String primitives of the interpreter *)

Module PyStr.

(** [str.isspace] on the ASCII range: TAB, LF, VT, FF, CR, FS, GS, RS, US
    and the blank. *)
Definition is_space (c : ascii) : bool :=
  match c with
  | "009" | "010" | "011" | "012" | "013"
  | "028" | "029" | "030" | "031" | " " => true
  | _ => false
  end%char.

Fixpoint lstrip (s : string) : string :=
  match s with
  | String c r => if is_space c then lstrip r else s
  | EmptyString => EmptyString
  end.

Fixpoint rstrip (s : string) : string :=
  match s with
  | String c r =>
      match rstrip r with
      | EmptyString => if is_space c then EmptyString else String c EmptyString
      | r' => String c r'
      end
  | EmptyString => EmptyString
  end.

(** [s.strip()] *)
Definition strip (s : string) : string := rstrip (lstrip s).

(** [s.split(sep)] for a one-character separator: never returns the
    empty list. *)
Fixpoint split (sep : ascii) (s : string) : list string :=
  match s with
  | EmptyString => [EmptyString]
  | String c r =>
      if decide (c = sep) then EmptyString :: split sep r
      else match split sep r with
           | h :: t => String c h :: t
           | [] => [String c EmptyString]
           end
  end.

(** [sep.join(parts)] *)
Fixpoint join (sep : string) (parts : list string) : string :=
  match parts with
  | [] => ""
  | [p] => p
  | p :: ps => p +:+ sep +:+ join sep ps
  end.

(** [s.startswith(p)] *)
Fixpoint startswith (s p : string) : bool :=
  match p, s with
  | EmptyString, _ => true
  | String a p', String b s' => bool_decide (a = b) && startswith s' p'
  | String _ _, EmptyString => false
  end.

(** [s[n:]] *)
Fixpoint drop (n : nat) (s : string) : string :=
  match n, s with
  | O, _ => s
  | S n', String _ r => drop n' r
  | S _, EmptyString => EmptyString
  end.

(** [s.endswith(p)] *)
Definition endswith (s p : string) : bool :=
  bool_decide (drop (String.length s - String.length p) s = p)
  && bool_decide (String.length p ≤ String.length s)%nat.

(** The value of a decimal digit character. *)
Definition digit (c : ascii) : option Z :=
  let code := N_of_ascii c in
  if (48 <=? code)%N && (code <=? 57)%N then Some (Z.of_N (code - 48)) else None.

(** The digits after the first one: an underscore is accepted only
    between two digits. *)
Fixpoint int_digits (acc : Z) (s : string) : option Z :=
  match s with
  | EmptyString => Some acc
  | String c r =>
      if decide (c = "_"%char) then
        match r with
        | String d r' =>
            match digit d with
            | Some k => int_digits (10 * acc + k) r'
            | None => None
            end
        | EmptyString => None
        end
      else
        match digit c with
        | Some k => int_digits (10 * acc + k) r
        | None => None
        end
  end.

Definition int_unsigned (s : string) : option Z :=
  match s with
  | String c r =>
      match digit c with Some k => int_digits k r | None => None end
  | EmptyString => None
  end.

(** The blanks [int] skips around a literal are those of the C library's
    [isspace]: TAB, LF, VT, FF, CR and the blank.  FS, GS, RS and US are
    blanks for [str.strip] but not for [int]. *)
Definition is_literal_blank (c : ascii) : bool :=
  match c with
  | "009" | "010" | "011" | "012" | "013" | " " => true
  | _ => false
  end%char.

Fixpoint skip_blanks (s : string) : string :=
  match s with
  | String c r => if is_literal_blank c then skip_blanks r else s
  | EmptyString => EmptyString
  end.

Fixpoint drop_trailing_blanks (s : string) : string :=
  match s with
  | String c r =>
      match drop_trailing_blanks r with
      | EmptyString => if is_literal_blank c then EmptyString else String c EmptyString
      | r' => String c r'
      end
  | EmptyString => EmptyString
  end.

(** [sys.get_int_max_str_digits()] as the interpreter starts: a literal
    with more digits is refused.  Leading zeros count; the sign and
    underscores do not. *)
Definition MAX_STR_DIGITS : nat := 4300.

Fixpoint count_digits (s : string) : nat :=
  match s with
  | EmptyString => O
  | String c r =>
      (match digit c with Some _ => 1 | None => 0 end + count_digits r)%nat
  end.

(** The value of a literal without blanks around it: one sign is
    accepted; [None] stands for [ValueError]. *)
Definition int_literal (t : string) : option Z :=
  if (MAX_STR_DIGITS <? count_digits t)%nat then None
  else match t with
       | String "+" r => int_unsigned r
       | String "-" r => Z.opp <$> int_unsigned r
       | _ => int_unsigned t
       end.

(** [int(s)] for a string argument, base 10. *)
Definition int (s : string) : option Z :=
  int_literal (drop_trailing_blanks (skip_blanks s)).

End PyStr.

(** ** Python values *)

(** The values a decoded manifest is made of.  A float is kept as the two
    observations the modelled code makes of it: its truth value and its
    printed form.  A dict is its items in insertion order. *)
#[warnings="-register-all"] Inductive pyval : Type :=
  | PNone
  | PBool (b : bool)
  | PInt (n : Z)
  | PFloat (nonzero : bool) (printed : string)
  | PStr (s : string)
  | PList (items : list pyval)
  | PDict (items : list (string * pyval)).

Module Py.

(** [bool(v)] *)
Definition truthy (v : pyval) : bool :=
  match v with
  | PNone => false
  | PBool b => b
  | PInt n => negb (n =? 0)
  | PFloat nz _ => nz
  | PStr s => negb (bool_decide (s = ""))
  | PList l => match l with [] => false | _ => true end
  | PDict l => match l with [] => false | _ => true end
  end.

Fixpoint assoc (k : string) (items : list (string * pyval)) : option pyval :=
  match items with
  | [] => None
  | (k', v) :: rest => if decide (k' = k) then Some v else assoc k rest
  end.

(** [d.get(k)]: [None] for a missing key, [AttributeError] when [d] is
    not a dict. *)
Definition get (d : pyval) (k : string) : result pyval :=
  match d with
  | PDict items => Ok (default PNone (assoc k items))
  | _ => Raise AttributeError
  end.

(** [k in d] for a dict. *)
Definition contains_key (d : pyval) (k : string) : bool :=
  match d with
  | PDict items => bool_decide (is_Some (assoc k items))
  | _ => false
  end.

Fixpoint chars (s : string) : list pyval :=
  match s with
  | EmptyString => []
  | String c r => PStr (String c EmptyString) :: chars r
  end.

(** What [for v in x] iterates over. *)
Definition iter (x : pyval) : result (list pyval) :=
  match x with
  | PList l => Ok l
  | PStr s => Ok (chars s)
  | PDict items => Ok ((λ kv, PStr kv.1) <$> items)
  | PNone | PBool _ | PInt _ | PFloat _ _ => Raise TypeError
  end.

Definition hex_digit (n : N) : ascii :=
  ascii_of_N (if (n <? 10)%N then 48 + n else 87 + n).

Definition quote1 : ascii := "039"%char.
Definition quote2 : ascii := "034"%char.
Definition backslash : ascii := "092"%char.

Definition repr_char (q c : ascii) : string :=
  let n := N_of_ascii c in
  if bool_decide (c = q) || bool_decide (c = backslash)
  then String backslash (String c "")
  else if bool_decide (c = "009"%char) then String backslash "t"
  else if bool_decide (c = "010"%char) then String backslash "n"
  else if bool_decide (c = "013"%char) then String backslash "r"
  else if (n <? 32)%N || (n =? 127)%N
  then String backslash
         (String "x" (String (hex_digit (n / 16)) (String (hex_digit (n mod 16)) "")))
  else String c "".

Fixpoint has_char (c : ascii) (s : string) : bool :=
  match s with
  | EmptyString => false
  | String d r => bool_decide (c = d) || has_char c r
  end.

Fixpoint repr_chars (q : ascii) (s : string) : string :=
  match s with
  | EmptyString => ""
  | String c r => repr_char q c +:+ repr_chars q r
  end.

(** [repr(s)] of a string. *)
Definition repr_str (s : string) : string :=
  let q := if has_char quote1 s && negb (has_char quote2 s) then quote2 else quote1 in
  String q (repr_chars q s +:+ String q "").

(** [repr(v)] *)
Fixpoint repr (v : pyval) : string :=
  match v with
  | PNone => "None"
  | PBool b => if b then "True" else "False"
  | PInt n => pretty n
  | PFloat _ p => p
  | PStr s => repr_str s
  | PList l => "[" +:+ PyStr.join ", " (map repr l) +:+ "]"
  | PDict l =>
      "{" +:+ PyStr.join ", "
                (map (λ kv, match kv with (k, w) => repr_str k +:+ ": " +:+ repr w end) l)
          +:+ "}"
  end.

(** [str(v)] *)
Definition str (v : pyval) : string :=
  match v with PStr s => s | _ => repr v end.

End Py.

(** ** Version comparator *)

(** A parsed version is a tuple of integers. *)
Definition version := list Z.

(** [a == b] on tuples of integers. *)
Definition tuple_eq (a b : version) : bool := bool_decide (a = b).

(** The rich comparison of tuples: the first position where the two
    differ decides, and when one is a prefix of the other the shorter
    is the smaller. *)
Fixpoint tuple_cmp (a b : version) : comparison :=
  match a, b with
  | [], [] => Eq
  | [], _ :: _ => Lt
  | _ :: _, [] => Gt
  | x :: a', y :: b' =>
      match x ?= y with
      | Eq => tuple_cmp a' b'
      | c => c
      end
  end.

Definition tuple_ge (a b : version) : bool :=
  match tuple_cmp a b with Lt => false | _ => true end.
Definition tuple_gt (a b : version) : bool :=
  match tuple_cmp a b with Gt => true | _ => false end.
Definition tuple_lt (a b : version) : bool :=
  match tuple_cmp a b with Lt => true | _ => false end.

(** The body of the loop of [_parse_version]:
    [try: parts.append(int(p)) except Exception: parts.append(0)]. *)
Definition segment_value (p : string) : Z := default 0 (PyStr.int p).

Definition _parse_version (v : string) : version :=
  segment_value <$> PyStr.split "." (PyStr.strip v).

(** ** Compatibility gate *)

Definition __version__ : string := "0.2.0".

(** The statements inside the [try] of [is_plugin_compatible]. *)
Definition is_plugin_compatible_body (manifest : pyval) (core_version : string)
  : result bool :=
  if negb (Py.truthy manifest) then Ok true else
  let core_v := _parse_version core_version in
  minv ← Py.get manifest "min_core_version";
  if Py.truthy minv then Ok (tuple_ge core_v (_parse_version (Py.str minv))) else
  first ← Py.get manifest "compatible_core_versions";
  compat_list ← (if Py.truthy first then Ok first
                 else Py.get manifest "compatible_versions");
  if Py.truthy compat_list then
    vs ← Py.iter compat_list;
    Ok (existsb (λ v, tuple_eq core_v (_parse_version (Py.str v))) vs)
  else Ok true.

Definition is_plugin_compatible (manifest : pyval) (core_version : string)
  : result bool :=
  try_except (is_plugin_compatible_body manifest core_version) (λ _, Ok false).

(** ** Paths *)

(** A path is the list of its components below the file-system root.
    [p / s] follows [pathlib]: the components of [s] are appended, empty
    and [.] components are dropped, and an absolute [s] replaces [p].
    A [..] component is kept as written, as [pathlib] keeps it; the
    stores below have no entry under such a name. *)
Abbreviation path := (list string).

Module Path.

Definition components (s : string) : list string :=
  filter (λ c, c ≠ "" ∧ c ≠ ".") (PyStr.split "/" s).

(** [p / s]: an absolute [s] replaces [p]; a [..] component is kept, as
    pathlib keeps it.  The store of the installer does not resolve it, so
    what is said about the store is said for names without [..]. *)
Definition join (p : path) (s : string) : path :=
  if PyStr.startswith s "/" then components s else p ++ components s.

(** [p.parent]; the root is its own parent. *)
Definition parent (p : path) : path := removelast p.

(** [p.name] *)
Definition name (p : path) : string := List.last p "".

End Path.

(** ** Manifest resolver *)

(** The decoders of the standard library and the optional YAML module.
    [None] stands for the exception the decoder raises; [yaml] is [None]
    when the module cannot be imported. *)
Record codecs : Type := {
  json_loads : string → option pyval;
  utf8_decode : string → option string;
  b64decode : string → option string;
  yaml : option (string → option pyval);
}.

(** What [urlopen] and reading the answer do with one request: an answer
    that was read, an [HTTPError] whose body was read, a [URLError], or
    any other exception that leaves [urlopen] or [read]
    ([http.client.InvalidURL] for a URL with a blank, [IncompleteRead] or
    [TimeoutError] while the body is read). *)
Inductive http_outcome : Type :=
  | Response (status : Z) (body : string)
  | ErrorResponse (code : Z) (body : string)
  | NoResponse (reason : string)
  | Failure (e : exn).

(** The remote side: request URL and [Authorization] header to outcome. *)
Definition network := string → option string → http_outcome.

Definition GITHUB_OWNER : string := "haxpenguin2".
Definition GITHUB_REPO : string := "ConfigCoreModules".
Definition GITHUB_API_ROOT : string :=
  "https://api.github.com/repos/" +:+ GITHUB_OWNER +:+ "/" +:+ GITHUB_REPO +:+ "/contents/".

Definition or_raise {A} (e : exn) (o : option A) : result A :=
  match o with Some a => Ok a | None => Raise e end.

(** [if token: req.add_header("Authorization", f"token {token}")] *)
Definition auth_header (token : option string) : option string :=
  match token with
  | Some t => if decide (t = "") then None else Some ("token " +:+ t)
  | None => None
  end.

Section Resolver.

Context (dec : codecs) (net : network).

Definition loads (raw : string) : result pyval :=
  or_raise JSONDecodeError (json_loads dec raw).

Definition decode_text (body : string) : result string :=
  or_raise UnicodeDecodeError (utf8_decode dec body).

(** [import yaml; return yaml.safe_load(raw)], where [raw] may have
    stayed unbound. *)
Definition yaml_safe_load (raw : result string) : result pyval :=
  match yaml dec with
  | None => Raise ImportError
  | Some load =>
      match raw with
      | Ok text => or_raise ValueError (load text)
      | Raise _ => Raise UnboundLocalError
      end
  end.

Definition github_api_get (p : string) (token : option string)
  : result (Z * pyval) :=
  match net (GITHUB_API_ROOT +:+ p) (auth_header token) with
  | Response status body =>
      raw ← decode_text body;
      data ← loads raw;
      Ok (status, data)
  | ErrorResponse code body =>
      let data :=
        try_except
          (text ← decode_text body;
           if decide (text = "") then Ok (PDict []) else loads text)
          (λ _, Ok (PDict [])) in
      d ← data; Ok (code, d)
  | NoResponse reason => Raise (RuntimeError ("Network error: " +:+ reason))
  | Failure e =>
      (* the two [except] clauses look at every exception of the [try] body *)
      match e with
      | HTTPError code => Ok (code, PDict [])
      | URLError reason => Raise (RuntimeError ("Network error: " +:+ reason))
      | _ => Raise e
      end
  end.

Definition is_dict (v : pyval) : bool :=
  match v with PDict _ => true | _ => false end.

(** [base64.b64decode(data["content"]).decode("utf-8")] *)
Definition content_text (data : pyval) : result string :=
  c ← Py.get data "content";
  match c with
  | PStr s => b ← or_raise ValueError (b64decode dec s); decode_text b
  | _ => Raise TypeError
  end.

(** The body of the [if] inside the loop of [fetch_remote_manifest]. *)
Definition decode_remote (data : pyval) : result pyval :=
  let raw := content_text data in
  try_except (text ← raw; loads text)
    (λ _, try_except (yaml_safe_load raw) (λ _, Ok (PDict []))).

Fixpoint fetch_remote_loop (filenames : list string) (package_name : string)
    (token : option string) : result pyval :=
  match filenames with
  | [] => Ok (PDict [])
  | filename :: rest =>
      sd ← github_api_get (package_name +:+ "/" +:+ filename) token;
      if (sd.1 =? 200) && is_dict sd.2 && Py.contains_key sd.2 "content"
      then decode_remote sd.2
      else fetch_remote_loop rest package_name token
  end.

Definition fetch_remote_manifest (package_name : string) (token : option string)
  : result pyval :=
  fetch_remote_loop ["plugin.json"; "manifest.json"] package_name token.

End Resolver.

(** ** The file system as the discovery code observes it *)

(** [Path.home() / ".config_editor_packages"] *)
Definition PACKAGES_DIR (home : path) : path := home ++ [".config_editor_packages"].

(** [listdir d] gives the names [d.iterdir()] yields, in the order the
    operating system returns them; [mkdir_parents] is the outcome of
    [mkdir(parents=True, exist_ok=True)]; [resolve p] is
    [str(p.resolve())].

    [exists_], [is_dir] and [is_file] are [true] where [p.exists()],
    [p.is_dir()] and [p.is_file()] return [True].  Where the flag is
    [false] the call returned [False], unless [stat_error] gives the
    exception it raised: pathlib hides only the errors that say the path
    is not there, so a [PermissionError] on an unreadable directory comes
    through. *)
Record world : Type := {
  cwd : path;
  home : path;
  exists_ : path → bool;
  is_dir : path → bool;
  is_file : path → bool;
  stat_error : path → option exn;
  listdir : path → result (list string);
  resolve : path → string;
  read_text : path → result string;
  mkdir_parents : path → result unit;
}.

Section Discovery.

Context (dec : codecs) (w : world).

Definition probe (flag : path → bool) (p : path) : result bool :=
  if flag p then Ok true
  else match stat_error w p with
       | Some e => Raise e
       | None => Ok false
       end.

(** [p.exists()] and [p.is_dir()] *)
Definition path_exists (p : path) : result bool := probe (exists_ w) p.
Definition path_is_dir (p : path) : result bool := probe (is_dir w) p.

Definition ensure_packages_dir : result path :=
  _ ← mkdir_parents w (PACKAGES_DIR (home w)); Ok (PACKAGES_DIR (home w)).

Definition iterdir (d : path) : result (list path) :=
  names ← listdir w d; Ok (map (λ n, d ++ [n]) names).

(** The body of the [if p.exists()] of [read_local_manifest]. *)
Definition decode_local (p : path) : result pyval :=
  try_except (text ← read_text w p; loads dec text)
    (λ _, try_except (yaml_safe_load dec (read_text w p)) (λ _, Ok (PDict []))).

Fixpoint read_local_loop (filenames : list string) (package_path : path)
  : result pyval :=
  match filenames with
  | [] => Ok (PDict [])
  | fn :: rest =>
      let p := Path.join package_path fn in
      path_exists p ≫= λ found : bool,
      if found then decode_local p
      else read_local_loop rest package_path
  end.

Definition read_local_manifest (package_path : path) : result pyval :=
  read_local_loop ["plugin.json"; "manifest.json"] package_path.

(** The last loop of [find_plugins_paths]. *)
Fixpoint unique_roots (roots : list path) (seen : list string) (uniq : list path)
  : list path :=
  match roots with
  | [] => uniq
  | r :: rest =>
      let key := resolve w r in
      if bool_decide (key ∈ seen) then unique_roots rest seen uniq
      else unique_roots rest (seen ++ [key]) (uniq ++ [r])
  end.

(** The roots in the order the three loops append them, where every
    entry can be examined: an [is_dir] or [is_file] that raises ends the
    source function with that exception, an outcome this function and
    [find_plugins_paths] below leave out. *)
Definition candidate_roots (subs files : list path) : list path :=
  let local_plugins := Path.join (cwd w) "plugins" in
  (if is_dir w local_plugins then [local_plugins] else [])
  ++ filter (λ sub, is_dir w sub = true) subs
  ++ filter (λ f, is_file w f && PyStr.endswith (Path.name f) "_plugin.py" = true) files.

Definition find_plugins_paths : result (list path) :=
  pkgs ← ensure_packages_dir;
  subs ← iterdir pkgs;
  files ← iterdir (cwd w);
  Ok (unique_roots (candidate_roots subs files) [] []).

End Discovery.

(** ** Dynamic loader and reload cycle *)

(** What the host looks at in a loaded module: its name and its two
    optional entry points.  [Some ok] says the attribute is there and
    whether calling it returns ([true]) or raises ([false]). *)
Record plugin_module : Type := {
  __name__ : string;
  EditorWidget : option bool;
  create_editor : option bool;
}.

(** The import machinery: [import_module] by package name and
    [exec_module] on a file; [None] stands for any exception. *)
Record importer : Type := {
  import_module : path → option plugin_module;
  exec_module : path → option plugin_module;
}.

(** What one reload cycle does, in order. *)
Inductive event : Type :=
  | ManifestRead (root : path) (manifest : pyval)
  | GateRun (root : path) (verdict : bool)
  | DisabledTab (root : path) (manifest : pyval)
  | LoaderInvoked (root : path)
  | EditorTab (root : path) (title : string).

Section Reload.

Context (dec : codecs) (w : world) (imp : importer).

(** The loop over the candidates; an [exists] that raises is caught by
    the [except Exception] around the whole function. *)
Fixpoint exec_first_candidate (candidates : list path) : option plugin_module :=
  match candidates with
  | [] => None
  | c :: rest =>
      match path_exists w c with
      | Ok true => exec_module imp c
      | Ok false => exec_first_candidate rest
      | Raise _ => None
      end
  end.

Definition import_plugin_module (root : path) : option plugin_module :=
  match path_is_dir w root with
  | Ok true =>
      let modname := Path.name root in
      match path_exists w (Path.join root "__init__.py") with
      | Ok has_init =>
          let by_name := if has_init then import_module imp root else None in
          match by_name with
          | Some m => Some m
          | None =>
              exec_first_candidate
                [Path.join root "plugin.py";
                 Path.join root (modname +:+ "_plugin.py");
                 Path.join root "__init__.py"]
          end
      | Raise _ => None
      end
  | Ok false => exec_module imp root
  | Raise _ => None
  end.

(** The two branches that instantiate an editor; the result is the tab
    added, if any. *)
Definition instantiate (root : path) (m : plugin_module) : list event :=
  match EditorWidget m with
  | Some ok => if ok then [EditorTab root (__name__ m)] else []
  | None =>
      match create_editor m with
      | Some ok => if ok then [EditorTab root (__name__ m)] else []
      | None => []
      end
  end.

(** One iteration of the loop of [reload_plugins]: the events and the
    increment of [loaded]. *)
Definition reload_root (root : path) : result (list event * nat) :=
  (path_exists w root ≫= λ found : bool,
   if found then path_is_dir w root else Ok false) ≫= λ is_package : bool,
  gated ←
    (if is_package then
       manifest ← read_local_manifest dec w root;
       ok ← is_plugin_compatible manifest __version__;
       Ok ([ManifestRead root manifest; GateRun root ok],
           if ok then None else Some manifest)
     else Ok ([], None));
  match gated.2 with
  | Some manifest => Ok (gated.1 ++ [DisabledTab root manifest], 0%nat)
  | None =>
      let tabs :=
        match import_plugin_module root with
        | Some m => instantiate root m
        | None => []
        end in
      Ok (gated.1 ++ LoaderInvoked root :: tabs, length tabs)
  end.

Fixpoint reload_roots (roots : list path) : result (list event * nat) :=
  match roots with
  | [] => Ok ([], 0%nat)
  | root :: rest =>
      a ← reload_root root;
      b ← reload_roots rest;
      Ok (a.1 ++ b.1, (a.2 + b.2)%nat)
  end.

(** [reload_plugins]: the events of the cycle and the two counts of the
    status message, plugins loaded and roots considered. *)
Definition reload_plugins : result (list event * nat * nat) :=
  roots ← find_plugins_paths w;
  r ← reload_roots roots;
  Ok (r.1, r.2, length roots).

End Reload.

(** ** The store the installer writes *)

Module FS.

Inductive node : Type :=
  | File (content : string)
  | Dir.

#[global] Instance node_eq_dec : EqDecision node.
Proof. solve_decision. Defined.

Abbreviation fs := (gmap path node).

Definition is_file_node (o : option node) : bool :=
  match o with Some (File _) => true | _ => false end.

(** The non-empty prefixes of a path, shortest first. *)
Fixpoint ancestors_from (base : path) (p : path) : list path :=
  match p with
  | [] => []
  | c :: rest => (base ++ [c]) :: ancestors_from (base ++ [c]) rest
  end.
Definition ancestors (p : path) : list path := ancestors_from [] p.

(** [p.mkdir(parents=True, exist_ok=True)] on a tree-shaped store: it
    fails when [p] or one of its ancestors is a regular file, changing
    nothing; otherwise every missing ancestor and [p] become
    directories. *)
Definition mkdir_parents (p : path) (s : fs) : result fs :=
  if is_file_node (s !! p) then Raise FileExistsError
  else if existsb (λ q, is_file_node (s !! q)) (ancestors p)
  then Raise NotADirectoryError
  else Ok (foldr (λ q acc, <[q := Dir]> acc) s (ancestors p)).

(** [shutil.rmtree(d)] *)
Definition rmtree (d : path) (s : fs) : result fs :=
  match s !! d with
  | Some Dir => Ok (filter (λ kv, ¬ d `prefix_of` kv.1) s)
  | Some (File _) => Raise NotADirectoryError
  | None => Raise (FileNotFoundError "")
  end.

(** [open(p, "wb").write(data)], called where the parent directory has
    just been made. *)
Definition write_file (p : path) (data : string) (s : fs) : result fs :=
  match s !! p with
  | Some Dir => Raise IsADirectoryError
  | _ => if decide (p = []) then Raise IsADirectoryError
         else Ok (<[p := File data]> s)
  end.

(** [p.unlink()] inside [try ... except Exception: pass]. *)
Definition unlink_quietly (p : path) (s : fs) : fs :=
  match s !! p with
  | Some (File _) => delete p s
  | _ => s
  end.

End FS.

(** ** Installer *)

(** One entry of the archive: its name and, for a file, its bytes. *)
Record member : Type := { name : string; data : string }.

(** What the download yields: an exception of [urlopen], or the bytes
    written to the temporary file together with the entries
    [zipfile.ZipFile] finds in them ([None]: not a zip archive). *)
Inductive snapshot : Type :=
  | DownloadFails (e : exn)
  | Downloaded (raw : string) (zip : option (list member)).

Definition archive_host := string → option string → snapshot.

Section Installer.

Import FS.

Context (download : archive_host) (home : path).

(** [zf.open(member).read()]: an archive resolves a name to its last
    entry of that name. *)
Definition zf_read (members : list member) (n : string) : string :=
  default "" (data <$> last (filter (λ m, name m = n) members)).

Definition run (r : result fs) (s : fs) : result () * fs :=
  match r with Ok s' => (Ok (), s') | Raise e => (Raise e, s) end.

(** The body of the loop over [matched]. *)
Definition extract_member (members : list member) (dest : path)
    (target_prefix member : string) (s : fs) : result () * fs :=
  let rel := PyStr.drop (String.length target_prefix) member in
  if decide (rel = "") then (Ok (), s) else
  let target := Path.join dest rel in
  if PyStr.endswith member "/" then run (mkdir_parents target s) s
  else
    match mkdir_parents (Path.parent target) s with
    | Raise e => (Raise e, s)
    | Ok s' => run (write_file target (zf_read members member) s') s'
    end.

Fixpoint extract_all (members : list member) (dest : path)
    (target_prefix : string) (matched : list string) (s : fs) : result () * fs :=
  match matched with
  | [] => (Ok (), s)
  | m :: rest =>
      match extract_member members dest target_prefix m s with
      | (Ok _, s') => extract_all members dest target_prefix rest s'
      | (Raise e, s') => (Raise e, s')
      end
  end.

Definition archive_root (members : list member) : string :=
  match members with
  | first :: _ => hd "" (PyStr.split "/" (name first)) +:+ "/"
  | [] => ""
  end.

Definition matching (members : list member) (package_folder : string)
  : list string :=
  filter (λ m, PyStr.startswith m (archive_root members +:+ package_folder +:+ "/") = true)
         (name <$> members).

Definition not_found (package_folder : string) : exn :=
  FileNotFoundError ("Package folder '" +:+ package_folder +:+ "' not found in repo zip").

(** [with zipfile.ZipFile(tmp_path, "r") as zf: ...] *)
Definition install_members (members : list member) (package_folder : string)
    (s : fs) : result path * fs :=
  match members with
  | [] => (Raise (FileNotFoundError "Repo zip appears empty"), s)
  | _ :: _ =>
      let target_prefix := archive_root members +:+ package_folder +:+ "/" in
      let matched := matching members package_folder in
      match matched with
      | [] => (Raise (not_found package_folder), s)
      | _ :: _ =>
          match mkdir_parents (PACKAGES_DIR home) s with
          | Raise e => (Raise e, s)
          | Ok s1 =>
              let dest := Path.join (PACKAGES_DIR home) package_folder in
              match (if bool_decide (is_Some (s1 !! dest)) then rmtree dest s1
                     else Ok s1) with
              | Raise e => (Raise e, s1)
              | Ok s2 =>
                  match extract_all members dest target_prefix matched s2 with
                  | (Ok _, s3) => (Ok dest, s3)
                  | (Raise e, s3) => (Raise e, s3)
                  end
              end
          end
      end
  end.

Definition repo_url (branch : string) : string :=
  "https://github.com/" +:+ GITHUB_OWNER +:+ "/" +:+ GITHUB_REPO
    +:+ "/archive/refs/heads/" +:+ branch +:+ ".zip".

(** The statements inside the [try] of [install_package_from_github]. *)
Definition install_body (package_folder branch : string) (token : option string)
    (tmp_path : path) (s : fs) : result path * fs :=
  match download (repo_url branch) (auth_header token) with
  | DownloadFails e => (Raise e, s)
  | Downloaded raw zip =>
      let s' := <[tmp_path := File raw]> s in
      match zip with
      | None => (Raise BadZipFile, s')
      | Some members => install_members members package_folder s'
      end
  end.

(** [tmp_path] is the fresh name [NamedTemporaryFile(delete=False)]
    picks; the [finally] clause runs on every way out of the body. *)
Definition install_package_from_github (package_folder branch : string)
    (token : option string) (tmp_path : path) (s : fs) : result path * fs :=
  let r := install_body package_folder branch token tmp_path
             (<[tmp_path := File ""]> s) in
  (r.1, unlink_quietly tmp_path r.2).

End Installer.

(** ** Config document *)

(** The text files the document touches: path string to content.  Text
    is written and read back unchanged by the encoder (POSIX, valid
    UTF-8). *)
Abbreviation disk := (gmap string string).

Definition LF : ascii := "010"%char.
Definition CR : ascii := "013"%char.
Definition newline : string := String LF "".

(** Reading in text mode turns CR LF and a lone CR into LF. *)
Fixpoint universal_newlines (s : string) : string :=
  match s with
  | EmptyString => EmptyString
  | String c r =>
      if decide (c = CR) then
        match r with
        | String d r' => if decide (d = LF) then String LF (universal_newlines r')
                         else String LF (universal_newlines r)
        | EmptyString => String LF EmptyString
        end
      else String c (universal_newlines r)
  end.

(** The line boundaries of [str.splitlines] on the ASCII range: LF, VT,
    FF, CR, FS, GS, RS. *)
Definition is_linebreak (c : ascii) : bool :=
  match c with
  | "010" | "011" | "012" | "013" | "028" | "029" | "030" => true
  | _ => false
  end%char.

(** [s.splitlines()] *)
Fixpoint splitlines (s : string) : list string :=
  match s with
  | EmptyString => []
  | String c r =>
      if is_linebreak c then
        match r with
        | String d r' => if bool_decide (c = CR) && bool_decide (d = LF)
                         then EmptyString :: splitlines r'
                         else EmptyString :: splitlines r
        | EmptyString => [EmptyString]
        end
      else match splitlines r with
           | h :: t => String c h :: t
           | [] => [String c EmptyString]
           end
  end.

Definition read_file_lines (d : disk) (p : string) : result (list string) :=
  match d !! p with
  | Some text => Ok (splitlines (universal_newlines text))
  | None => Raise (FileNotFoundError p)
  end.

(** The text [write_file_lines] writes. *)
Definition file_text (lines : list string) : string :=
  let text := PyStr.join newline lines in
  if PyStr.endswith text newline then text else text +:+ newline.

Definition write_file_lines (p : string) (lines : list string) (d : disk) : disk :=
  <[p := file_text lines]> d.

Record datetime : Type := {
  year : nat; month : nat; day : nat;
  hour : nat; minute : nat; second : nat;
}.

Definition pad2 (n : nat) : string :=
  if (n <? 10)%nat then "0" +:+ pretty n else pretty n.

(** [now.strftime("%Y%m%d_%H%M%S")]: the C library pads the two-digit
    fields with a zero; the year is written as it is (four digits from the
    year 1000 on). *)
Definition strftime (now : datetime) : string :=
  pretty (year now) +:+ pad2 (month now) +:+ pad2 (day now) +:+ "_"
    +:+ pad2 (hour now) +:+ pad2 (minute now) +:+ pad2 (second now).

Definition backup_name (p : string) (now : datetime) : string :=
  p +:+ ".bak." +:+ strftime now.

(** [shutil.copy2(path, bak)] copies the bytes of [path]. *)
Definition make_backup (now : datetime) (p : string) (d : disk)
  : result (string * disk) :=
  let bak := backup_name p now in
  match d !! p with
  | Some content => Ok (bak, <[bak := content]> d)
  | None => Raise (FileNotFoundError p)
  end.

Record ConfigFile : Type := {
  cf_path : string;
  _orig_lines : list string;
  lines : list string;
}.

Definition load (cf : ConfigFile) (d : disk) : result ConfigFile :=
  ls ← read_file_lines d (cf_path cf);
  Ok {| cf_path := cf_path cf; _orig_lines := ls; lines := ls |}.

Definition append_line (cf : ConfigFile) (new_line : string) : ConfigFile :=
  {| cf_path := cf_path cf; _orig_lines := _orig_lines cf;
     lines := lines cf ++ [new_line] |}.

Definition replace_line (cf : ConfigFile) (idx : Z) (new_line : string)
  : result ConfigFile :=
  if bool_decide (0 ≤ idx < Z.of_nat (length (lines cf)))
  then Ok {| cf_path := cf_path cf; _orig_lines := _orig_lines cf;
             lines := <[Z.to_nat idx := new_line]> (lines cf) |}
  else Raise (IndexError "index out of range").

(** [save(backup)]: the value returned with the document as [load] left
    it, and the disk afterwards.  [now] is the clock read by
    [make_backup]. *)
Definition save (cf : ConfigFile) (backup : bool) (now : datetime) (d : disk)
  : result (string * ConfigFile) * disk :=
  match (if backup then make_backup now (cf_path cf) d else Ok ("", d)) with
  | Raise e => (Raise e, d)
  | Ok (bak, d1) =>
      let d2 := write_file_lines (cf_path cf) (lines cf) d1 in
      match load cf d2 with
      | Ok cf' => (Ok (bak, cf'), d2)
      | Raise e => (Raise e, d2)
      end
  end.

(** ** Notions used to state the properties *)

(** The separators FS, GS, RS and US: [str.strip] removes them and [int]
    does not accept them. *)
Definition is_separator (c : ascii) : bool :=
  match c with
  | "028" | "029" | "030" | "031" => true
  | _ => false
  end%char.

Fixpoint no_separator (s : string) : bool :=
  match s with
  | EmptyString => true
  | String c r => negb (is_separator c) && no_separator r
  end.

(** [n] trailing [.0] segments. *)
Fixpoint zero_segments (n : nat) : string :=
  match n with
  | O => ""
  | S n' => ".0" +:+ zero_segments n'
  end.

(** The de-duplication loop run from its initial state. *)
Definition uniq_of (w : world) (roots : list path) : list path :=
  unique_roots w roots [] [].

Definition entry_rel (target_prefix member : string) : string :=
  PyStr.drop (String.length target_prefix) member.

Definition entry_target (dest : path) (target_prefix member : string) : path :=
  Path.join dest (entry_rel target_prefix member).

(** An entry that the extraction loop writes as a file. *)
Definition file_entry (target_prefix member : string) : Prop :=
  entry_rel target_prefix member ≠ "" ∧ PyStr.endswith member "/" = false.

(** The directories one entry makes and the file it writes. *)
Definition entry_effect (members : list member) (dest : path)
    (target_prefix member : string) : list path * option (path * string) :=
  if decide (entry_rel target_prefix member = "") then ([], None)
  else if PyStr.endswith member "/"
       then (FS.ancestors (entry_target dest target_prefix member), None)
       else (FS.ancestors (Path.parent (entry_target dest target_prefix member)),
             Some (entry_target dest target_prefix member, zf_read members member)).

Definition effect_lookup (eff : list path * option (path * string))
    (old : option FS.node) (q : path) : option FS.node :=
  match eff.2 with
  | Some (t, c) =>
      if decide (q = t) then Some (FS.File c)
      else if decide (q ∈ eff.1) then Some FS.Dir else old
  | None => if decide (q ∈ eff.1) then Some FS.Dir else old
  end.

(** Nothing lies under a directory that is not there. *)
Definition no_orphans (dest : path) (s : FS.fs) : Prop :=
  s !! dest = None → ∀ q, dest `prefix_of` q → s !! q = None.

(** A clock reading of the years with four digits. *)
Definition valid_clock (now : datetime) : Prop :=
  1000 ≤ Z.of_nat (year now) ≤ 9999 ∧
  (1 ≤ month now ≤ 12)%nat ∧ (1 ≤ day now ≤ 31)%nat ∧
  (hour now ≤ 23)%nat ∧ (minute now ≤ 59)%nat ∧ (second now ≤ 59)%nat.

(** The last decimal digit of a number, as a character. *)
Definition decimal_digit (n : nat) : ascii := ascii_of_nat (48 + n mod 10).

Definition two_digits (n : nat) : string :=
  String (decimal_digit (n / 10)) (String (decimal_digit n) "").

(** The pattern [yyyymmdd_HHMMSS] written out digit by digit. *)
Definition stamp_yyyymmdd_HHMMSS (now : datetime) : string :=
  String (decimal_digit (year now / 1000)) (String (decimal_digit (year now / 100))
    (two_digits (year now)))
  +:+ two_digits (month now) +:+ two_digits (day now) +:+ "_"
  +:+ two_digits (hour now) +:+ two_digits (minute now) +:+ two_digits (second now).

(** Every line followed by a line feed. *)
Fixpoint unlines (ls : list string) : string :=
  match ls with
  | [] => ""
  | l :: rest => l +:+ String "010" (unlines rest)
  end.

(** A package name that is one path component. *)
Definition is_component (n : string) : Prop :=
  PyStr.startswith n "/" = false ∧ Path.components n = [n].



(** ** Sample inputs *)

(** Decoders that accept nothing, with no YAML module. *)
Definition no_codecs : codecs :=
  {| json_loads := λ _, None; utf8_decode := λ s, Some s;
     b64decode := λ s, Some s; yaml := None |}.

(** A working directory with a [plugins] directory, one plugin file and
    a second name for that file; a store with one package. *)
Definition sample_world : world :=
  {| cwd := ["work"]; home := ["home"];
     exists_ := λ p, bool_decide (p ∈ [["work"; "plugins"]; ["work"; "a_plugin.py"];
                                       ["work"; "b_plugin.py"]; ["work"; "readme.md"];
                                       ["home"; ".config_editor_packages"; "alpha"]]);
     is_dir := λ p, bool_decide (p ∈ [["work"; "plugins"];
                                      ["home"; ".config_editor_packages"; "alpha"]]);
     is_file := λ p, bool_decide (p ∈ [["work"; "a_plugin.py"]; ["work"; "b_plugin.py"];
                                       ["work"; "readme.md"];
                                       ["home"; ".config_editor_packages"; "notes.txt"]]);
     stat_error := λ _, None;
     listdir := λ p, if decide (p = ["work"])
                     then Ok ["readme.md"; "a_plugin.py"; "plugins"; "b_plugin.py"]
                     else if decide (p = ["home"; ".config_editor_packages"])
                     then Ok ["notes.txt"; "alpha"]
                     else Raise NotADirectoryError;
     resolve := λ p, if decide (p = ["work"; "b_plugin.py"]) then "/work/a_plugin.py"
                     else "/" +:+ PyStr.join "/" p;
     read_text := λ _, Raise (FileNotFoundError "");
     mkdir_parents := λ _, Ok () |}.

Definition dq : string := String Py.quote2 "".

(** The manifest text [{"min_core_version": "9.9.9"}]. *)
Definition too_new_text : string :=
  "{" +:+ dq +:+ "min_core_version" +:+ dq +:+ ": " +:+ dq +:+ "9.9.9" +:+ dq +:+ "}".
Definition too_new : pyval := PDict [("min_core_version", PStr "9.9.9")].

Definition sample_codecs : codecs :=
  {| json_loads := λ s, if decide (s = too_new_text) then Some too_new else None;
     utf8_decode := λ s, Some s; b64decode := λ s, Some s; yaml := None |}.

(** A working directory whose [plugins] directory holds a [plugin.py]
    and a manifest asking for core 9.9.9; the package store is empty. *)
Definition plugins_dir_world : world :=
  {| cwd := ["work"]; home := ["home"];
     exists_ := λ p, bool_decide (p ∈ [["work"; "plugins"];
                                       ["work"; "plugins"; "plugin.json"];
                                       ["work"; "plugins"; "plugin.py"]]);
     is_dir := λ p, bool_decide (p = ["work"; "plugins"]);
     is_file := λ p, bool_decide (p ∈ [["work"; "plugins"; "plugin.json"];
                                       ["work"; "plugins"; "plugin.py"]]);
     stat_error := λ _, None;
     listdir := λ p, if decide (p = ["work"]) then Ok ["plugins"] else Ok [];
     resolve := λ p, "/" +:+ PyStr.join "/" p;
     read_text := λ p, if decide (p = ["work"; "plugins"; "plugin.json"])
                       then Ok too_new_text else Raise (FileNotFoundError "");
     mkdir_parents := λ _, Ok () |}.

(** A package directory that cannot be read (mode 000): the directory is
    there, what lies in it cannot be examined. *)
Definition unreadable_package_world : world :=
  {| cwd := ["work"]; home := ["home"];
     exists_ := λ p, bool_decide (p = ["pkg"]);
     is_dir := λ p, bool_decide (p = ["pkg"]);
     is_file := λ _, false;
     stat_error := λ p, if decide (["pkg"] `prefix_of` p ∧ p ≠ ["pkg"])
                        then Some PermissionError else None;
     listdir := λ _, Raise PermissionError;
     resolve := λ p, "/" +:+ PyStr.join "/" p;
     read_text := λ _, Raise PermissionError;
     mkdir_parents := λ _, Ok () |}.

Definition sample_importer : importer :=
  {| import_module := λ _, None;
     exec_module := λ p, Some {| __name__ := "plugin_file"; EditorWidget := Some true;
                                 create_editor := None |} |}.

Definition sample_now : datetime :=
  {| year := 2025; month := 3; day := 9; hour := 14; minute := 5; second := 0 |}.

Definition sample_doc : ConfigFile :=
  {| cf_path := "/home/u/.config/i3/config";
     _orig_lines := ["set $mod Mod4"]; lines := ["set $mod Mod4"] |}.

Definition sample_disk : disk :=
  {[ "/home/u/.config/i3/config" := "set $mod Mod4" +:+ newline ]}.

Definition archive_v1 : list member :=
  [ {| name := "ConfigCoreModules-main/"; data := "" |};
    {| name := "ConfigCoreModules-main/pkg/"; data := "" |};
    {| name := "ConfigCoreModules-main/pkg/plugin.json"; data := "{}" |};
    {| name := "ConfigCoreModules-main/pkg/old.py"; data := "old" |} ].

Definition archive_v2 : list member :=
  [ {| name := "ConfigCoreModules-main/"; data := "" |};
    {| name := "ConfigCoreModules-main/pkg/"; data := "" |};
    {| name := "ConfigCoreModules-main/pkg/plugin.json"; data := "{}" |};
    {| name := "ConfigCoreModules-main/pkg/sub/"; data := "" |};
    {| name := "ConfigCoreModules-main/pkg/sub/a.py"; data := "new" |};
    {| name := "ConfigCoreModules-main/other/x.py"; data := "x" |} ].

Definition host_v1 : archive_host := λ _ _, Downloaded "zip-v1" (Some archive_v1).
Definition host_v2 : archive_host := λ _ _, Downloaded "zip-v2" (Some archive_v2).

Definition sample_store : FS.fs := {[ ["home"] := FS.Dir ]}.
Definition sample_dest : path := ["home"; ".config_editor_packages"; "pkg"].

(** * More of the code *)

(** ** Line helpers *)

Module Line.

(** [s[:n]] *)
Fixpoint take (n : nat) (s : string) : string :=
  match n, s with
  | O, _ => EmptyString
  | S n', String c r => String c (take n' r)
  | S _, EmptyString => EmptyString
  end.

Definition is_tab_or_blank (c : ascii) : bool :=
  bool_decide (c = "009"%char) || bool_decide (c = " "%char).

(** [s.lstrip("\t ")] *)
Fixpoint lstrip_tab_blank (s : string) : string :=
  match s with
  | String c r => if is_tab_or_blank c then lstrip_tab_blank r else s
  | EmptyString => EmptyString
  end.

(** [s.replace(c, "", 1)] for a one-character [c]. *)
Fixpoint remove_first (c : ascii) (s : string) : string :=
  match s with
  | EmptyString => EmptyString
  | String d r => if decide (d = c) then r else String d (remove_first c r)
  end.

(** The leading run of tabs and blanks. *)
Fixpoint leading_run (s : string) : string :=
  match s with
  | String c r => if is_tab_or_blank c then String c (leading_run r) else EmptyString
  | EmptyString => EmptyString
  end.

End Line.

(** Text of the ASCII range, on which the string primitives are those of
    the interpreter. *)
Fixpoint ascii_text (s : string) : bool :=
  match s with
  | EmptyString => true
  | String c r => (N_of_ascii c <? 128)%N && ascii_text r
  end.

Definition leading_whitespace (line : string) : string :=
  Line.take (String.length line - String.length (Line.lstrip_tab_blank line)) line.

Definition is_commented (line : string) : bool :=
  PyStr.startswith (PyStr.lstrip line) "#".

Definition comment_line (line : string) : string :=
  if is_commented line then line
  else let lw := leading_whitespace line in
       lw +:+ "#" +:+ PyStr.drop (String.length lw) line.

Definition uncomment_line (line : string) : string :=
  let s := PyStr.lstrip line in
  if negb (PyStr.startswith s "#") then line
  else let lw := leading_whitespace line in
       let rest := PyStr.drop (String.length lw) line in
       lw +:+ Line.remove_first "#" rest.

(** ** More of the config document *)

(** [l[idx]], with Python's negative indexes; [None] is [IndexError]. *)
Definition py_index {A} (l : list A) (idx : Z) : option A :=
  let n := Z.of_nat (length l) in
  if (0 <=? idx) && (idx <? n) then l !! Z.to_nat idx
  else if (- n <=? idx) && (idx <? 0) then l !! Z.to_nat (n + idx)
  else None.

(** The largest index of the interpreter, [sys.maxsize] of a 64-bit
    build. *)
Definition PY_SSIZE_T_MAX : Z := 9223372036854775807.

Definition fits_ssize_t (idx : Z) : bool :=
  (- PY_SSIZE_T_MAX - 1 <=? idx) && (idx <=? PY_SSIZE_T_MAX).

(** [l.insert(idx, x)] for an index that fits [Py_ssize_t]: the index is
    clamped to the list, a negative one counts from the end. *)
Definition py_insert {A} (idx : Z) (x : A) (l : list A) : list A :=
  let n := Z.of_nat (length l) in
  let i := if idx <? 0 then Z.max 0 (n + idx) else Z.min idx n in
  take (Z.to_nat i) l ++ x :: drop (Z.to_nat i) l.

(** [ConfigFile(path)] for a path that [str(Path(path).expanduser())]
    leaves as it is (no leading [~], no repeated or trailing slash, no [.]
    component); [os.path.isfile] is membership in the disk. *)
Definition ConfigFile_init (p : string) (d : disk) : result ConfigFile :=
  match d !! p with
  | None => Raise (FileNotFoundError p)
  | Some _ => load {| cf_path := p; _orig_lines := []; lines := [] |} d
  end.

Definition line_count (cf : ConfigFile) : Z := Z.of_nat (length (lines cf)).

Definition get_line (cf : ConfigFile) (idx : Z) : result string :=
  or_raise (IndexError "list index out of range") (py_index (lines cf) idx).

(** [list.insert] converts the index to [Py_ssize_t] first and raises
    [OverflowError] when it does not fit. *)
Definition insert_line (cf : ConfigFile) (idx : Z) (new_line : string)
  : result ConfigFile :=
  if fits_ssize_t idx
  then Ok {| cf_path := cf_path cf; _orig_lines := _orig_lines cf;
             lines := py_insert idx new_line (lines cf) |}
  else Raise OverflowError.

Definition discard_changes (cf : ConfigFile) (d : disk) : result ConfigFile :=
  load cf d.

(** The edits a caller can make between a load and a save. *)
Inductive edit : Type :=
  | ReplaceLine (idx : Z) (new_line : string)
  | AppendLine (new_line : string)
  | InsertLine (idx : Z) (new_line : string).

Definition apply_edit (cf : ConfigFile) (e : edit) : result ConfigFile :=
  match e with
  | ReplaceLine idx new_line => replace_line cf idx new_line
  | AppendLine new_line => Ok (append_line cf new_line)
  | InsertLine idx new_line => insert_line cf idx new_line
  end.

(** A sequence of edits; an edit that raises leaves the document as the
    edits before it made it, and the ones after it are not run. *)
Fixpoint apply_edits (cf : ConfigFile) (es : list edit) : ConfigFile * option exn :=
  match es with
  | [] => (cf, None)
  | e :: rest =>
      match apply_edit cf e with
      | Ok cf' => apply_edits cf' rest
      | Raise x => (cf, Some x)
      end
  end.

(** A line that holds none of the characters [splitlines] breaks at. *)
Fixpoint no_linebreak (s : string) : bool :=
  match s with
  | EmptyString => true
  | String c r => negb (is_linebreak c) && no_linebreak r
  end.

(** The lines a file written by [write_file_lines] reads back as, when no
    line holds a line break: an empty document reads back as one empty
    line, and one trailing empty line is not read back. *)
Definition lines_read_back (ls : list string) : list string :=
  match ls with
  | [] => [""]
  | [_] => ls
  | _ :: _ :: _ => if decide (last ls = Some "") then removelast ls else ls
  end.

(** ** Remote catalog and installed packages *)

(** [item.get("type") == "dir"] *)
Definition is_dir_entry (item : pyval) : result bool :=
  t ← Py.get item "type";
  Ok (match t with PStr s => bool_decide (s = "dir") | _ => false end).

Fixpoint keep_dir_entries (items : list pyval) : result (list pyval) :=
  match items with
  | [] => Ok []
  | item :: rest =>
      is_dir_entry item ≫= λ b : bool,
      keep_dir_entries rest ≫= λ kept : list pyval,
      Ok (if b then item :: kept else kept)
  end.

(** [d.get(k, default)] *)
Definition get_default (d : pyval) (k : string) (dflt : pyval) : result pyval :=
  match d with
  | PDict items => Ok (default dflt (Py.assoc k items))
  | _ => Raise AttributeError
  end.

Definition list_remote_packages (dec : codecs) (net : network) (token : option string)
  : result (list pyval) :=
  sd ← github_api_get dec net "" token;
  if negb (sd.1 =? 200) then
    msg ← get_default sd.2 "message" (PStr "");
    Raise (RuntimeError ("GitHub API returned status " +:+ pretty sd.1 +:+ ": "
                           +:+ Py.str msg))
  else
    items ← Py.iter sd.2;
    keep_dir_entries items.

(** [sorted] on strings orders them by code point.  The entries are
    taken where they can be examined; an [is_dir] that raises is left
    out, as in [candidate_roots]. *)
Definition list_installed_packages (w : world) : result (list string) :=
  d ← ensure_packages_dir w;
  ps ← iterdir w d;
  Ok (merge_sort String.le (map Path.name (filter (λ p, is_dir w p = true) ps))).

(** ** Plugin builder: the widget list and the exported manifest *)

Section WidgetList.

Context {A : Type}.

(** [l[i], l[j] = l[j], l[i]] *)
Definition swap_items (l : list A) (i j : nat) : result (list A) :=
  match l !! j, l !! i with
  | Some b, Some a => Ok (<[j := a]> (<[i := b]> l))
  | _, _ => Raise (IndexError "list index out of range")
  end.

(** [move_up]: the widgets and the current row afterwards, for the
    current row [r] ([-1] when nothing is selected). *)
Definition move_up (widgets : list A) (r : Z) : result (list A * Z) :=
  if 0 <? r then
    ws ← swap_items widgets (Z.to_nat (r - 1)) (Z.to_nat r);
    Ok (ws, r - 1)
  else Ok (widgets, r).

Definition move_down (widgets : list A) (r : Z) : result (list A * Z) :=
  if (0 <=? r) && (r <? Z.of_nat (length widgets) - 1) then
    ws ← swap_items widgets (Z.to_nat (r + 1)) (Z.to_nat r);
    Ok (ws, r + 1)
  else Ok (widgets, r).

End WidgetList.

Definition DEFAULT_MIN_CORE : string := "0.2.0".

(** [text or dflt] *)
Definition or_text (text dflt : string) : string :=
  if decide (text = "") then dflt else text.

(** The manifest [export_plugin] and [save_plugin_json] build from the
    three input fields and the widget list; [None] when the name is
    blank and nothing is written. *)
Definition export_manifest (name_input version_input min_core_input : string)
    (widgets : list pyval) : option pyval :=
  let name := PyStr.strip name_input in
  if decide (name = "") then None
  else Some (PDict
    [("name", PStr name);
     ("version", PStr (or_text (PyStr.strip version_input) "0.1.0"));
     ("description", PStr ("Auto-generated plugin " +:+ name));
     ("min_core_version", PStr (or_text (PyStr.strip min_core_input) DEFAULT_MIN_CORE));
     ("ui", PDict [("layout", PStr "vertical"); ("widgets", PList widgets)])]).

(** ** Installer: entries that stay inside the package directory *)

(** An entry whose name below the package prefix is a relative path with
    no [..] component. *)
Definition confined_entry (target_prefix member : string) : Prop :=
  PyStr.startswith (entry_rel target_prefix member) "/" = false ∧
  ".." ∉ Path.components (entry_rel target_prefix member).

(** ** Version segments *)

(** The characters a decimal literal accepted by [int] is made of. *)
Definition literal_char (c : ascii) : bool :=
  bool_decide (is_Some (PyStr.digit c)) || bool_decide (c = "_"%char)
  || bool_decide (c = "+"%char) || bool_decide (c = "-"%char) || PyStr.is_space c.

Fixpoint literal_chars_only (s : string) : bool :=
  match s with
  | EmptyString => true
  | String c r => literal_char c && literal_chars_only r
  end.

(** [s.count(c)] *)
Fixpoint count_char (c : ascii) (s : string) : nat :=
  match s with
  | EmptyString => O
  | String d r => ((if decide (d = c) then 1 else 0) + count_char c r)%nat
  end.

(** ** Reading the events of a reload *)

Definition event_root (e : event) : path :=
  match e with
  | ManifestRead r _ | GateRun r _ | DisabledTab r _ | LoaderInvoked r | EditorTab r _ => r
  end.

Definition is_editor_tab (e : event) : bool :=
  match e with EditorTab _ _ => true | _ => false end.
Definition is_loader_call (e : event) : bool :=
  match e with LoaderInvoked _ => true | _ => false end.
Definition is_disabled_tab (e : event) : bool :=
  match e with DisabledTab _ _ => true | _ => false end.

(** A package directory whose [plugin.json] is not JSON; [manifest.json]
    is there, with a valid manifest, when [with_manifest] is set. *)
Definition broken_plugin_world (with_manifest : bool) : world :=
  {| cwd := ["work"]; home := ["home"];
     exists_ := λ p, bool_decide (p = ["pkg"; "plugin.json"])
                     || (with_manifest && bool_decide (p = ["pkg"; "manifest.json"]));
     is_dir := λ p, bool_decide (p = ["pkg"]);
     is_file := λ p, bool_decide (p = ["pkg"; "plugin.json"])
                     || (with_manifest && bool_decide (p = ["pkg"; "manifest.json"]));
     stat_error := λ _, None;
     listdir := λ _, Ok [];
     resolve := λ p, "/" +:+ PyStr.join "/" p;
     read_text := λ p, if decide (p = ["pkg"; "plugin.json"]) then Ok "not json"
                       else if decide (p = ["pkg"; "manifest.json"]) then Ok too_new_text
                       else Raise (FileNotFoundError "");
     mkdir_parents := λ _, Ok () |}.

Definition count_events (p : event → bool) (ev : list event) : nat :=
  length (List.filter p ev).

(** An archive whose package holds an entry named by an absolute path,
    and one whose package is the bare directory entry. *)
Definition archive_abs : list member :=
  [ {| name := "ConfigCoreModules-main/"; data := "" |};
    {| name := "ConfigCoreModules-main/pkg/"; data := "" |};
    {| name := "ConfigCoreModules-main/pkg//abs/evil"; data := "x" |} ].

Definition archive_bare : list member :=
  [ {| name := "ConfigCoreModules-main/"; data := "" |};
    {| name := "ConfigCoreModules-main/pkg/"; data := "" |} ].

Definition host_abs : archive_host := λ _ _, Downloaded "zip-abs" (Some archive_abs).
Definition host_bare : archive_host := λ _ _, Downloaded "zip-bare" (Some archive_bare).

(** What one root contributes. *)
Record root_summary (dec : codecs) (w : world) (root : path) (ev : list event)
    (loaded : nat) : Prop := {
  summary_loaded : loaded = count_events is_editor_tab ev;
  summary_at_most_one : (loaded ≤ 1)%nat;
  summary_one_way :
    (count_events is_loader_call ev + count_events is_disabled_tab ev)%nat = 1%nat;
  summary_root : ∀ e, e ∈ ev → event_root e = root;
  summary_loader : LoaderInvoked root ∈ ev → exists_ w root && is_dir w root = true →
    ∃ m, read_local_manifest dec w root = Ok m ∧
         is_plugin_compatible m __version__ = Ok true;
  summary_disabled : ∀ m, DisabledTab root m ∈ ev →
    read_local_manifest dec w root = Ok m ∧
    is_plugin_compatible m __version__ = Ok false;
  summary_tab : ∀ title, EditorTab root title ∈ ev → LoaderInvoked root ∈ ev
}.


(** * Properties *)

#[local] Set Warnings "-clear-no-such-hyp".

(** ** Version comparator *)

Section StringFacts.

Import PyStr.

Lemma rstrip_cons c r :
  rstrip (String c r) =
    if decide (rstrip r = "") then (if is_space c then "" else String c "")
    else String c (rstrip r).
Proof. simpl. destruct (rstrip r); by case_decide. Qed.

Lemma app_nonempty_r s t : t ≠ "" → s +:+ t ≠ "".
Proof. destruct s, t; naive_solver. Qed.

Lemma rstrip_app s t : rstrip t ≠ "" → rstrip (s +:+ t) = s +:+ rstrip t.
Proof.
  intros Ht. induction s as [|c s IH]; [done|].
  change (String c s +:+ t) with (String c (s +:+ t)).
  rewrite rstrip_cons, IH. case_decide as E; [|done].
  by apply app_nonempty_r in E.
Qed.

Lemma lstrip_app_dot v t :
  lstrip (v +:+ String "." t) = lstrip v +:+ String "." t.
Proof.
  induction v as [|c v IH]; [done|].
  change (String c v +:+ ?x) with (String c (v +:+ x)).
  simpl. by destruct (is_space c).
Qed.

Lemma lstrip_rstrip s : rstrip (lstrip s) = lstrip (rstrip s).
Proof.
  induction s as [|c s IH]; [done|].
  rewrite rstrip_cons. cbn [lstrip].
  destruct (is_space c) eqn:Hc.
  - rewrite IH. case_decide as E; [by rewrite E|]. simpl. by rewrite Hc.
  - rewrite rstrip_cons. case_decide; simpl; by rewrite Hc.
Qed.

Lemma split_nonempty sep s : ∃ h t, split sep s = h :: t.
Proof.
  induction s as [|c s (h & t & IH)]; simpl; [by eauto|].
  case_decide; [by eauto|]. rewrite IH. by eauto.
Qed.

Lemma split_app_sep sep s t :
  split sep (s +:+ String sep t) = split sep s ++ split sep t.
Proof.
  induction s as [|c s IH].
  - change ("" +:+ ?x) with x. simpl. by rewrite decide_True.
  - change (String c s +:+ ?x) with (String c (s +:+ x)). simpl.
    case_decide; [by rewrite IH|].
    rewrite IH. by destruct (split_nonempty sep s) as (h & tl & ->).
Qed.

(** A string of blanks only has no segment boundary. *)
Lemma split_blank sep s :
  is_space sep = false → rstrip s = "" → split sep s = [s].
Proof.
  intros Hsep. induction s as [|c s IH]; [done|].
  rewrite rstrip_cons. case_decide as E; [|done].
  destruct (is_space c) eqn:Hc; [|done]. intros _. simpl.
  rewrite decide_False by congruence. by rewrite IH.
Qed.

(** Stripping the right end only touches the last segment, and only
    its trailing blanks. *)
Lemma split_rstrip sep s :
  is_space sep = false →
  Forall2 (λ a b, rstrip a = rstrip b) (split sep (rstrip s)) (split sep s).
Proof.
  intros Hsep. induction s as [|c s IH]; [by repeat constructor|].
  rewrite rstrip_cons. case_decide as E.
  - pose proof (split_blank sep s Hsep E) as Hs.
    destruct (is_space c) eqn:Hc; simpl.
    + rewrite decide_False by congruence. rewrite Hs.
      repeat constructor. simpl. by rewrite E, Hc.
    + case_decide; rewrite ?Hs; repeat constructor; simpl; by rewrite ?E, ?Hc.
  - simpl. case_decide; [by constructor|].
    destruct (split_nonempty sep (rstrip s)) as (h & t & Hh).
    destruct (split_nonempty sep s) as (h' & t' & Hh').
    rewrite Hh, Hh' in IH |- *. inversion IH as [|???? Hhd Htl]; subst.
    constructor; [|done]. by rewrite !rstrip_cons, Hhd.
Qed.

(** The blanks of [int] are blanks of [str.strip], and the other way
    round except for the separators. *)
Lemma blank_is_space c : is_literal_blank c = true → is_space c = true.
Proof. destruct c as [[] [] [] [] [] [] [] []]; done. Qed.

Lemma space_is_blank c :
  is_space c = true → is_separator c = false → is_literal_blank c = true.
Proof. destruct c as [[] [] [] [] [] [] [] []]; done. Qed.

Lemma blank_iff_space c :
  is_separator c = false → is_literal_blank c = is_space c.
Proof. destruct c as [[] [] [] [] [] [] [] []]; done. Qed.

Lemma no_separator_cons c s :
  no_separator (String c s) = true ↔ is_separator c = false ∧ no_separator s = true.
Proof.
  cbn [no_separator]. rewrite andb_true_iff, negb_true_iff. done.
Qed.

Lemma no_separator_app a b :
  no_separator a = true → no_separator b = true → no_separator (a +:+ b) = true.
Proof.
  intros Ha Hb. induction a as [|c a IH]; [done|].
  change (String c a +:+ b) with (String c (a +:+ b)).
  apply no_separator_cons in Ha as [Hc Ha]. apply no_separator_cons. auto.
Qed.

Lemma skip_blanks_lstrip s : no_separator s = true → skip_blanks s = lstrip s.
Proof.
  induction s as [|c s IH]; [done|]. intros [Hc Hs]%no_separator_cons.
  cbn [skip_blanks lstrip]. rewrite (blank_iff_space c Hc).
  destruct (is_space c); [by apply IH|done].
Qed.

Lemma drop_trailing_blanks_rstrip s :
  no_separator s = true → drop_trailing_blanks s = rstrip s.
Proof.
  induction s as [|c s IH]; [done|]. intros [Hc Hs]%no_separator_cons.
  cbn [drop_trailing_blanks rstrip]. by rewrite (IH Hs), (blank_iff_space c Hc).
Qed.

Lemma no_separator_lstrip s : no_separator s = true → no_separator (lstrip s) = true.
Proof.
  induction s as [|c s IH]; [done|]. intros H.
  pose proof H as [Hc Hs]%no_separator_cons. cbn [lstrip].
  destruct (is_space c); auto.
Qed.

Lemma no_separator_rstrip s : no_separator s = true → no_separator (rstrip s) = true.
Proof.
  induction s as [|c s IH]; [done|]. intros [Hc Hs]%no_separator_cons.
  rewrite rstrip_cons. case_decide.
  - destruct (is_space c); [done|]. apply no_separator_cons. done.
  - apply no_separator_cons. auto.
Qed.

Lemma no_separator_split sep s :
  no_separator s = true → Forall (λ p, no_separator p = true) (split sep s).
Proof.
  induction s as [|c s IH]; [by repeat constructor|].
  intros [Hc Hs]%no_separator_cons. specialize (IH Hs). cbn [split].
  case_decide; [by constructor|].
  destruct (split_nonempty sep s) as (h & t & Hh). rewrite Hh in IH |- *.
  inversion IH; subst. constructor; [|done]. apply no_separator_cons. done.
Qed.

(** On text without separators [int] strips what [str.strip] strips. *)
Lemma int_plain s : no_separator s = true → int s = int_literal (strip s).
Proof.
  intros H. unfold int, strip.
  by rewrite (skip_blanks_lstrip s H),
             (drop_trailing_blanks_rstrip _ (no_separator_lstrip s H)).
Qed.

Lemma int_rstrip a b :
  no_separator a = true → no_separator b = true →
  rstrip a = rstrip b → int a = int b.
Proof.
  intros Ha Hb H. rewrite (int_plain a Ha), (int_plain b Hb). unfold strip.
  by rewrite !lstrip_rstrip, H.
Qed.

End StringFacts.

Lemma segment_value_rstrip a b :
  no_separator a = true → no_separator b = true →
  PyStr.rstrip a = PyStr.rstrip b → segment_value a = segment_value b.
Proof. intros Ha Hb H. unfold segment_value. by rewrite (int_rstrip a b Ha Hb H). Qed.

(** Appending one [.0] segment to a version string without separators
    appends one [0] to the parsed tuple. *)
Lemma parse_version_dot_zero v :
  no_separator v = true →
  _parse_version (v +:+ ".0") = _parse_version v ++ [0].
Proof.
  intros Hv. unfold _parse_version, PyStr.strip.
  rewrite lstrip_app_dot, rstrip_app by done.
  change (PyStr.rstrip ".0") with ".0".
  rewrite split_app_sep, fmap_app. f_equal.
  pose proof (no_separator_lstrip v Hv) as Hl.
  pose proof (no_separator_split "." _ (no_separator_rstrip _ Hl)) as Ha.
  pose proof (no_separator_split "." _ Hl) as Hb.
  pose proof (split_rstrip "." (PyStr.lstrip v) eq_refl) as H.
  induction H as [|a b la lb Hab _ IH]; [done|].
  inversion Ha; inversion Hb; subst.
  rewrite !fmap_cons, IH by done. f_equal. symmetry. by apply segment_value_rstrip.
Qed.

Lemma tuple_cmp_refl a : tuple_cmp a a = Eq.
Proof. induction a as [|x a IH]; [done|]. simpl. by rewrite Z.compare_refl. Qed.

Lemma tuple_cmp_eq a b : tuple_cmp a b = Eq ↔ a = b.
Proof.
  split; [|intros ->; apply tuple_cmp_refl].
  revert b. induction a as [|x a IH]; intros [|y b]; simpl; try done.
  destruct (x ?= y) eqn:E; try done.
  apply Z.compare_eq in E as ->. intros H. by rewrite (IH b H).
Qed.

Lemma tuple_cmp_opp a b : tuple_cmp b a = CompOpp (tuple_cmp a b).
Proof.
  revert b. induction a as [|x a IH]; intros [|y b]; simpl; try done.
  rewrite (Z.compare_antisym x y). destruct (x ?= y); simpl; auto.
Qed.

Lemma tuple_cmp_lt_trans a b c :
  tuple_cmp a b = Lt → tuple_cmp b c = Lt → tuple_cmp a c = Lt.
Proof.
  revert b c. induction a as [|x a IH]; intros [|y b] [|z c]; simpl; try done.
  destruct (x ?= y) eqn:Exy; try done.
  - apply Z.compare_eq in Exy as ->. destruct (y ?= z); try done. apply IH.
  - intros _. destruct (y ?= z) eqn:Eyz; try done.
    + apply Z.compare_eq in Eyz as ->. by rewrite Exy.
    + intros _. rewrite Z.compare_lt_iff in Exy, Eyz.
      assert ((x ?= z) = Lt) as -> by (apply Z.compare_lt_iff; lia). done.
Qed.

(** A tuple is strictly below each of its proper extensions. *)
Lemma tuple_cmp_extend a x l : tuple_cmp a (a ++ x :: l) = Lt.
Proof. induction a as [|y a IH]; [done|]. simpl. by rewrite Z.compare_refl. Qed.

Lemma string_app_assoc (a b c : string) : (a +:+ b) +:+ c = a +:+ b +:+ c.
Proof.
  induction a as [|x a IH]; [done|].
  change (String x ((a +:+ b) +:+ c) = String x (a +:+ b +:+ c)). by rewrite IH.
Qed.

Lemma string_app_empty_r (a : string) : a +:+ "" = a.
Proof.
  induction a as [|x a IH]; [done|].
  change (String x (a +:+ "") = String x a). by rewrite IH.
Qed.

Lemma parse_version_zero_segments v n :
  no_separator v = true →
  _parse_version (v +:+ zero_segments n) = _parse_version v ++ replicate n 0.
Proof.
  revert v. induction n as [|n IH]; intros v Hv; simpl.
  - by rewrite app_nil_r, string_app_empty_r.
  - change (_parse_version (v +:+ ".0" +:+ zero_segments n)
            = _parse_version v ++ 0 :: replicate n 0).
    rewrite <- (string_app_assoc v ".0"), IH by (by apply no_separator_app).
    rewrite parse_version_dot_zero by done. by rewrite <- app_assoc.
Qed.

(** C2, as stated, fails on the first example the specification gives:
    the tuples [(1, 2)] and [(1, 2, 0)] are different. *)
Lemma parse_1_2_differs_from_1_2_0 :
  tuple_eq (_parse_version "1.2") (_parse_version "1.2.0") = false.
Proof. reflexivity. Qed.

(** A separator at the end of a segment is stripped from the end of the
    string but makes [int] fail inside it: appending [.0] then changes the
    segment before it. *)
Example parse_version_separator :
  _parse_version (String "1" (String "." (String "2" (String "028" ""))))
    = [1; 2] ∧
  _parse_version (String "1" (String "." (String "2" (String "028" ".0"))))
    = [1; 0; 0].
Proof. split; reflexivity. Qed.

(** C2, amended: the comparison of parsed versions is a total order that
    agrees with tuple equality, without padding: a version string of ASCII
    text without the separators FS, GS, RS, US, extended by trailing [.0]
    segments, parses to the same tuple followed by that many zeros, a
    strictly greater tuple, so [parse("1.2") < parse("1.2.0")], and
    [parse("2.0") > parse("1.9.9")]. *)
Theorem version_order_without_padding :
  (∀ a b, tuple_cmp b a = CompOpp (tuple_cmp a b)) ∧
  (∀ a b, tuple_cmp a b = Eq ↔ tuple_eq a b = true) ∧
  (∀ a b c, tuple_cmp a b = Lt → tuple_cmp b c = Lt → tuple_cmp a c = Lt) ∧
  (∀ v n, ascii_text v = true → no_separator v = true →
     _parse_version (v +:+ zero_segments n) = _parse_version v ++ replicate n 0) ∧
  (∀ v n, ascii_text v = true → no_separator v = true →
     tuple_lt (_parse_version v) (_parse_version (v +:+ zero_segments (S n))) = true ∧
     tuple_eq (_parse_version v) (_parse_version (v +:+ zero_segments (S n))) = false) ∧
  tuple_lt (_parse_version "1.2") (_parse_version "1.2.0") = true ∧
  tuple_gt (_parse_version "2.0") (_parse_version "1.9.9") = true.
Proof.
  split_and!; try reflexivity.
  - apply tuple_cmp_opp.
  - intros a b. rewrite tuple_cmp_eq. unfold tuple_eq.
    by rewrite bool_decide_eq_true.
  - apply tuple_cmp_lt_trans.
  - intros v n _ Hv. by apply parse_version_zero_segments.
  - intros v n _ Hv. rewrite parse_version_zero_segments by done. simpl replicate.
    pose proof (tuple_cmp_extend (_parse_version v) 0 (replicate n 0)) as Hlt.
    split; [unfold tuple_lt; by rewrite Hlt|].
    unfold tuple_eq. apply bool_decide_eq_false. intros Heq.
    apply tuple_cmp_eq in Heq. congruence.
Qed.

Lemma version_order_without_padding_witness :
  tuple_cmp [1; 2] [1; 2; 0] = Lt ∧ tuple_cmp [1; 2; 0] [1; 3] = Lt ∧
  tuple_cmp [1; 2] [1; 3] = Lt ∧
  _parse_version (" 1.2 " +:+ zero_segments 2) = _parse_version " 1.2 " ++ [0; 0].
Proof.
  split_and!; [reflexivity..| |].
  - apply (proj1 (proj2 (proj2 version_order_without_padding)) [1; 2] [1; 2; 0] [1; 3]);
      reflexivity.
  - apply (proj1 (proj2 (proj2 (proj2 version_order_without_padding))) " 1.2 " 2%nat);
      reflexivity.
Defined.

(** ** Compatibility gate *)

Lemma gate_unfold_dict items host :
  items ≠ [] →
  is_plugin_compatible_body (PDict items) host =
    let core_v := _parse_version host in
    let minv := default PNone (Py.assoc "min_core_version" items) in
    let first := default PNone (Py.assoc "compatible_core_versions" items) in
    let second := default PNone (Py.assoc "compatible_versions" items) in
    let compat_list := if Py.truthy first then first else second in
    if Py.truthy minv then Ok (tuple_ge core_v (_parse_version (Py.str minv)))
    else if Py.truthy compat_list then
      vs ← Py.iter compat_list;
      Ok (existsb (λ v, tuple_eq core_v (_parse_version (Py.str v))) vs)
    else Ok true.
Proof.
  intros Hne. unfold is_plugin_compatible_body.
  destruct items as [|kv items]; [done|]. cbn [Py.truthy negb Py.get].
  cbn [mbind result_bind]. 
  destruct (Py.truthy (default PNone (Py.assoc "min_core_version" (kv :: items)))); [done|].
  by destruct (Py.truthy (default PNone (Py.assoc "compatible_core_versions" (kv :: items)))).
Qed.

(** C4, as stated, fails: a [min_core_version] that is present but empty
    does not decide, the explicit list does. *)
Lemma gate_min_present_but_empty :
  let items := [("min_core_version", PStr "");
                ("compatible_core_versions", PList [PStr "9.9.9"])] in
  Py.assoc "min_core_version" items = Some (PStr "") ∧
  tuple_ge (_parse_version "0.2.0") (_parse_version (Py.str (PStr ""))) = true ∧
  is_plugin_compatible (PDict items) "0.2.0" = Ok false.
Proof. split_and!; reflexivity. Qed.

(** C4, amended: for a manifest that is a mapping, the gate returns true
    when the mapping is empty; when [min_core_version] has a truthy value
    it returns whether the host version is at least that version, whatever
    lists are present; otherwise, when the first truthy value among
    [compatible_core_versions] and [compatible_versions] is a list, it
    returns whether the host version parses equal to one listed version;
    and when none of the three keys has a truthy value it returns true. *)
Theorem gate_rules (items : list (string * pyval)) (host : string) :
  let core_v := _parse_version host in
  let minv := default PNone (Py.assoc "min_core_version" items) in
  let first := default PNone (Py.assoc "compatible_core_versions" items) in
  let second := default PNone (Py.assoc "compatible_versions" items) in
  let compat_list := if Py.truthy first then first else second in
  (items = [] → is_plugin_compatible (PDict items) host = Ok true) ∧
  (items ≠ [] → Py.truthy minv = true →
     is_plugin_compatible (PDict items) host
       = Ok (tuple_ge core_v (_parse_version (Py.str minv)))) ∧
  (items ≠ [] → Py.truthy minv = false →
     ∀ vs, compat_list = PList vs → vs ≠ [] →
     is_plugin_compatible (PDict items) host
       = Ok (existsb (λ v, tuple_eq core_v (_parse_version (Py.str v))) vs)) ∧
  (items ≠ [] → Py.truthy minv = false → Py.truthy compat_list = false →
     is_plugin_compatible (PDict items) host = Ok true).
Proof.
  intros core_v minv first second compat_list. split_and!.
  - by intros ->.
  - intros Hne Hmin. unfold is_plugin_compatible.
    rewrite gate_unfold_dict by done. cbn zeta. fold minv. by rewrite Hmin.
  - intros Hne Hmin vs Hvs Hvs'. unfold is_plugin_compatible.
    rewrite gate_unfold_dict by done. cbn zeta.
    fold minv first second compat_list. rewrite Hmin, Hvs.
    by destruct vs.
  - intros Hne Hmin Hc. unfold is_plugin_compatible.
    rewrite gate_unfold_dict by done. cbn zeta.
    fold minv first second compat_list. by rewrite Hmin, Hc.
Qed.

Lemma gate_rules_witness :
  is_plugin_compatible
    (PDict [("min_core_version", PStr "9.9.9");
            ("compatible_core_versions", PList [PStr "0.2.0"])]) "0.2.0"
  = Ok false.
Proof.
  apply (proj1 (proj2 (gate_rules
    [("min_core_version", PStr "9.9.9");
     ("compatible_core_versions", PList [PStr "0.2.0"])] "0.2.0")));
    [discriminate | reflexivity].
Defined.

(** C5: the gate returns a boolean on every manifest value and every host
    version string, and the boolean is false whenever the evaluation of
    the rules raised; a non-empty manifest that is not a mapping is such
    a case. *)
Theorem gate_total_fail_closed (manifest : pyval) (core_version : string) :
  (∃ b, is_plugin_compatible manifest core_version = Ok b ∧
        (raises (is_plugin_compatible_body manifest core_version) → b = false)) ∧
  (Py.truthy manifest = true ∧ is_dict manifest = false →
     raises (is_plugin_compatible_body manifest core_version)).
Proof.
  split.
  - unfold is_plugin_compatible.
    destruct (is_plugin_compatible_body manifest core_version) as [b|e] eqn:E.
    + exists b. split; [done|]. by intros [e' ?].
    + exists false. by split.
  - intros [Ht Hd]. exists AttributeError. unfold is_plugin_compatible_body.
    rewrite Ht. by destruct manifest.
Qed.

Lemma gate_total_fail_closed_witness :
  raises (is_plugin_compatible_body (PList [PStr "min_core_version"]) "0.2.0") ∧
  is_plugin_compatible (PList [PStr "min_core_version"]) "0.2.0" = Ok false.
Proof.
  split.
  - apply (proj2 (gate_total_fail_closed (PList [PStr "min_core_version"]) "0.2.0")).
    split; reflexivity.
  - reflexivity.
Defined.


(** The examples the specification lists for the gate. *)
Example gate_empty_manifest : is_plugin_compatible (PDict []) "0.2.0" = Ok true.
Proof. reflexivity. Qed.

Example gate_min_too_new :
  is_plugin_compatible (PDict [("min_core_version", PStr "9.9.9")]) "0.2.0" = Ok false.
Proof. reflexivity. Qed.

Example gate_listed :
  is_plugin_compatible
    (PDict [("compatible_core_versions", PList [PStr "0.2.0"; PStr "0.3.0"])]) "0.2.0"
  = Ok true.
Proof. reflexivity. Qed.

Example gate_not_listed :
  is_plugin_compatible
    (PDict [("compatible_core_versions", PList [PStr "0.2.0"; PStr "0.3.0"])]) "0.2.1"
  = Ok false.
Proof. reflexivity. Qed.

(** A list that is a number is an error inside the gate, hence false. *)
Example gate_list_is_number :
  is_plugin_compatible (PDict [("compatible_versions", PInt 2)]) "0.2.0" = Ok false.
Proof. reflexivity. Qed.

Example parse_version_examples :
  _parse_version "1.2.3" = [1; 2; 3] ∧ _parse_version " 1.x.-4.1_0 " = [1; 0; -4; 10] ∧
  _parse_version "" = [0].
Proof. repeat split. Qed.

(** ** Manifest resolver *)

Lemma try_except_returns {A} (body : result A) handler :
  (∀ e, returns (handler e)) → returns (try_except body handler).
Proof. intros H. destruct body as [a|e]; simpl; [by exists a|apply H]. Qed.

Lemma decode_remote_returns dec data : returns (decode_remote dec data).
Proof.
  unfold decode_remote. apply try_except_returns. intros _.
  apply try_except_returns. intros _. by eexists.
Qed.

Lemma decode_local_returns dec w p : returns (decode_local dec w p).
Proof.
  unfold decode_local. apply try_except_returns. intros _.
  apply try_except_returns. intros _. by eexists.
Qed.

(** What the probes of a world return. *)
Lemma probe_true w flag p : probe w flag p = Ok true ↔ flag p = true.
Proof. unfold probe. destruct (flag p), (stat_error w p); naive_solver. Qed.

Lemma probe_false w flag p :
  probe w flag p = Ok false ↔ flag p = false ∧ stat_error w p = None.
Proof. unfold probe. destruct (flag p), (stat_error w p); naive_solver. Qed.

Lemma probe_raise w flag p e :
  probe w flag p = Raise e ↔ flag p = false ∧ stat_error w p = Some e.
Proof. unfold probe. destruct (flag p), (stat_error w p); naive_solver. Qed.

Lemma read_local_loop_returns dec w filenames package_path :
  (∀ fn, fn ∈ filenames → stat_error w (Path.join package_path fn) = None) →
  returns (read_local_loop dec w filenames package_path).
Proof.
  induction filenames as [|fn rest IH]; intros Hs; simpl; [by eexists|].
  unfold path_exists, probe. rewrite (Hs fn) by by left.
  destruct (exists_ w _); cbn; [apply decode_local_returns|].
  apply IH. intros fn' ?. apply Hs. by right.
Qed.

(** The three ways decoding ends: the JSON value, the value of the YAML
    fallback, the empty mapping. *)
Lemma decode_outcomes dec (raw : result string) :
  let decoded :=
    try_except (text ← raw; loads dec text)
      (λ _, try_except (yaml_safe_load dec raw) (λ _, Ok (PDict []))) in
  (∀ text v, raw = Ok text → json_loads dec text = Some v → decoded = Ok v) ∧
  (∀ text load v, raw = Ok text → json_loads dec text = None →
     yaml dec = Some load → load text = Some v → decoded = Ok v) ∧
  ((∀ text, raw = Ok text →
      json_loads dec text = None ∧ (∀ load, yaml dec = Some load → load text = None)) →
   decoded = Ok (PDict [])).
Proof.
  cbn zeta. unfold yaml_safe_load, loads. split_and!.
  - intros text v -> Hj. cbn. by rewrite Hj.
  - intros text load v -> Hj Hy Hl. cbn. by rewrite Hj, Hy, Hl.
  - intros H. destruct raw as [text|e]; cbn.
    + destruct (H text eq_refl) as [Hj Hy]. rewrite Hj. cbn.
      destruct (yaml dec) as [load|]; [|done]. by rewrite (Hy load eq_refl).
    + by destruct (yaml dec).
Qed.

Lemma fetch_remote_loop_returns dec net filenames package_name token :
  (∀ p, returns (github_api_get dec net p token)) →
  returns (fetch_remote_loop dec net filenames package_name token).
Proof.
  intros Hget. induction filenames as [|fn rest IH]; simpl; [by eexists|].
  destruct (Hget (package_name +:+ "/" +:+ fn)) as [sd ->]. cbn.
  destruct (_ && _); [apply decode_remote_returns|apply IH].
Qed.

(** An HTTP error status is not an exception for the caller. *)
Lemma github_api_get_error_status dec net p token code body :
  net (GITHUB_API_ROOT +:+ p) (auth_header token) = ErrorResponse code body →
  ∃ data, github_api_get dec net p token = Ok (code, data).
Proof.
  intros H. unfold github_api_get. rewrite H.
  destruct (try_except_returns
              (text ← decode_text dec body;
               if decide (text = "") then Ok (PDict []) else loads dec text)
              (λ _, Ok (PDict []))) as [d Hd]; [by eexists|].
  exists d. by rewrite Hd.
Qed.

(** The exceptions that leave [github_api_get]. *)
Lemma github_api_get_raises dec net p token e :
  github_api_get dec net p token = Raise e ↔
    let outcome := net (GITHUB_API_ROOT +:+ p) (auth_header token) in
    (∃ reason, (outcome = NoResponse reason ∨ outcome = Failure (URLError reason)) ∧
               e = RuntimeError ("Network error: " +:+ reason)) ∨
    (outcome = Failure e ∧ (∀ reason, e ≠ URLError reason) ∧ (∀ code, e ≠ HTTPError code)) ∨
    (∃ status body, outcome = Response status body ∧
       (utf8_decode dec body = None ∧ e = UnicodeDecodeError ∨
        ∃ text, utf8_decode dec body = Some text ∧ json_loads dec text = None ∧
                e = JSONDecodeError)).
Proof.
  cbn zeta. unfold github_api_get.
  destruct (net _ _) as [status body|code body|reason|e0] eqn:E.
  - unfold decode_text, loads.
    destruct (utf8_decode dec body) as [text|] eqn:Hu; cbn.
    + destruct (json_loads dec text) as [data|] eqn:Hj; cbn.
      * split; [done|]. intros [(r & [?|?] & _)|[(? & _)|(st & b & [= <- <-] & H)]]; try done.
        destruct H as [[? _]|(t & ? & ? & _)]; congruence.
      * split.
        -- intros [= <-]. right. right. exists status, body. split; [done|].
           right. by exists text.
        -- intros [(r & [?|?] & _)|[(? & _)|(st & b & [= <- <-] & H)]]; try done.
           destruct H as [[? _]|(t & ? & ? & ->)]; [congruence|done].
    + split.
      * intros [= <-]. right. right. exists status, body. split; [done|]. by left.
      * intros [(r & [?|?] & _)|[(? & _)|(st & b & [= <- <-] & H)]]; try done.
        destruct H as [[_ ->]|(t & ? & _)]; [done|congruence].
  - destruct (github_api_get_error_status dec net p token code body E) as [d Hd].
    unfold github_api_get in Hd. rewrite E in Hd. rewrite Hd.
    split; [done|]. intros [(r & [?|?] & _)|[(? & _)|(st & b & ? & _)]]; done.
  - split.
    + intros [= <-]. left. exists reason. split; [by left|done].
    + intros [(r & [[= <-]|?] & ->)|[(? & _)|(st & b & ? & _)]]; done.
  - destruct e0; cbn;
      try (split; [intros [= <-]; right; left; by split_and!
                  |intros [(r & [?|[= ?]] & _)|[([= <-] & _)|(st & b & ? & _)]]; done]).
    + split; [done|].
      intros [(r & [?|[= ?]] & _)|[([= <-] & _ & Hc)|(st & b & ? & _)]]; try done.
      by destruct (Hc code).
    + split.
      * intros [= <-]. left. exists reason. split; [by right|done].
      * intros [(r & [?|[= <-]] & ->)|[([= <-] & Hr & _)|(st & b & ? & _)]]; try done.
        by destruct (Hr reason).
Qed.

(** C3, as stated, fails for the remote call shape: a transport failure
    of the first request leaves [fetch_remote_manifest] as a
    [RuntimeError]. *)
Lemma fetch_remote_manifest_network_error :
  fetch_remote_manifest no_codecs (λ _ _, NoResponse "timed out") "pkg" None
  = Raise (RuntimeError "Network error: timed out").
Proof. reflexivity. Qed.

(** It fails for the local shape too: the existence check is outside the
    [try], and on a package directory that cannot be read it raises. *)
Example read_local_manifest_permission_error :
  read_local_manifest no_codecs unreadable_package_world ["pkg"] = Raise PermissionError.
Proof. reflexivity. Qed.

(** A 200 answer whose body is not JSON leaves both functions as a
    [JSONDecodeError]. *)
Example fetch_remote_manifest_bad_body :
  fetch_remote_manifest no_codecs (λ _ _, Response 200 "<html>") "pkg" None
  = Raise JSONDecodeError.
Proof. reflexivity. Qed.

(** C3, amended.  The resolver degrades to "no manifest" only inside its
    [try] blocks.

    [read_local_manifest] raises exactly when the existence check of a
    candidate file raises, and then with that exception.  Otherwise it
    looks at the first of [plugin.json] and [manifest.json] that exists
    and returns its JSON value, or, when reading or decoding it fails, the
    value of the YAML fallback, or, when that fails too or there is no
    YAML module, the empty mapping; with neither file it returns the
    empty mapping.

    [fetch_remote_manifest] raises exactly when a request it makes
    raises, and then with that exception; it makes the second request
    only when the first was answered without a usable manifest (status
    200, a mapping with a [content] key).  The content of the first
    usable answer is decoded with the same three outcomes, and without a
    usable answer the result is the empty mapping.

    A request raises exactly in these cases: a [URLError] (raised as
    [RuntimeError]), any other exception of [urlopen] or [read] that is
    not an [HTTPError] (raised unchanged), and an answer that is not an
    HTTP error whose body is not UTF-8 text holding JSON. *)
Theorem manifest_resolver_boundary (dec : codecs) :
  (∀ w package_path,
     let p1 := Path.join package_path "plugin.json" in
     let p2 := Path.join package_path "manifest.json" in
     (∀ e, read_local_manifest dec w package_path = Raise e ↔
           path_exists w p1 = Raise e ∨
           path_exists w p1 = Ok false ∧ path_exists w p2 = Raise e) ∧
     (path_exists w p1 = Ok false → path_exists w p2 = Ok false →
      read_local_manifest dec w package_path = Ok (PDict [])) ∧
     (∀ p, path_exists w p1 = Ok true ∧ p = p1 ∨
           path_exists w p1 = Ok false ∧ path_exists w p2 = Ok true ∧ p = p2 →
        (∀ text v, read_text w p = Ok text → json_loads dec text = Some v →
           read_local_manifest dec w package_path = Ok v) ∧
        (∀ text load v, read_text w p = Ok text → json_loads dec text = None →
           yaml dec = Some load → load text = Some v →
           read_local_manifest dec w package_path = Ok v) ∧
        ((∀ text, read_text w p = Ok text →
            json_loads dec text = None ∧
            (∀ load, yaml dec = Some load → load text = None)) →
         read_local_manifest dec w package_path = Ok (PDict [])))) ∧
  (∀ net package_name token,
     let get fn := github_api_get dec net (package_name +:+ "/" +:+ fn) token in
     let usable (sd : Z * pyval) :=
       sd.1 = 200 ∧ is_dict sd.2 = true ∧ Py.contains_key sd.2 "content" = true in
     let result := fetch_remote_manifest dec net package_name token in
     (∀ e, result = Raise e ↔
           get "plugin.json" = Raise e ∨
           ∃ sd, get "plugin.json" = Ok sd ∧ ¬ usable sd ∧
                 get "manifest.json" = Raise e) ∧
     (∀ sd sd', get "plugin.json" = Ok sd → ¬ usable sd →
        get "manifest.json" = Ok sd' → ¬ usable sd' → result = Ok (PDict [])) ∧
     (∀ sd, get "plugin.json" = Ok sd ∧ usable sd ∨
            (∃ sd0, get "plugin.json" = Ok sd0 ∧ ¬ usable sd0) ∧
            get "manifest.json" = Ok sd ∧ usable sd →
        (∀ text v, content_text dec sd.2 = Ok text → json_loads dec text = Some v →
           result = Ok v) ∧
        (∀ text load v, content_text dec sd.2 = Ok text → json_loads dec text = None →
           yaml dec = Some load → load text = Some v → result = Ok v) ∧
        ((∀ text, content_text dec sd.2 = Ok text →
            json_loads dec text = None ∧
            (∀ load, yaml dec = Some load → load text = None)) →
         result = Ok (PDict [])))) ∧
  (∀ net p token e,
     github_api_get dec net p token = Raise e ↔
       let outcome := net (GITHUB_API_ROOT +:+ p) (auth_header token) in
       (∃ reason, (outcome = NoResponse reason ∨ outcome = Failure (URLError reason)) ∧
                  e = RuntimeError ("Network error: " +:+ reason)) ∨
       (outcome = Failure e ∧ (∀ reason, e ≠ URLError reason) ∧
        (∀ code, e ≠ HTTPError code)) ∨
       (∃ status body, outcome = Response status body ∧
          (utf8_decode dec body = None ∧ e = UnicodeDecodeError ∨
           ∃ text, utf8_decode dec body = Some text ∧ json_loads dec text = None ∧
                   e = JSONDecodeError))).
Proof.
  split_and!.
  - intros w pp p1 p2.
    assert (read_local_manifest dec w pp
            = path_exists w p1 ≫= λ found : bool,
              if found then decode_local dec w p1
              else path_exists w p2 ≫= λ found : bool,
                   if found then decode_local dec w p2 else Ok (PDict [])) as ->
      by reflexivity.
    assert (∀ p e, decode_local dec w p ≠ Raise e) as Hnr.
    { intros p e He. destruct (decode_local_returns dec w p) as [v Hv]. congruence. }
    split_and!.
    + intros e. destruct (path_exists w p1) as [[]|e1]; cbn.
      * split; [by intros ?%Hnr|]. intros [?|[? _]]; done.
      * destruct (path_exists w p2) as [[]|e2]; cbn.
        -- split; [by intros ?%Hnr|]. intros [?|[_ ?]]; done.
        -- split; [done|]. intros [?|[_ ?]]; done.
        -- split; [intros [= <-]; by right|]. intros [?|[_ [= <-]]]; done.
      * split; [intros [= <-]; by left|]. intros [[= <-]|[? _]]; done.
    + by intros -> ->.
    + intros p Hp.
      match goal with |- context [?r = Ok _] =>
        assert (r = decode_local dec w p) as -> by
          (destruct Hp as [[-> ->]|(-> & -> & ->)]; done)
      end.
      apply (decode_outcomes dec (read_text w p)).
  - intros net pn token get usable result.
    assert (result
            = sd ← get "plugin.json";
              if (sd.1 =? 200) && is_dict sd.2 && Py.contains_key sd.2 "content"
              then decode_remote dec sd.2
              else sd' ← get "manifest.json";
                   if (sd'.1 =? 200) && is_dict sd'.2 && Py.contains_key sd'.2 "content"
                   then decode_remote dec sd'.2 else Ok (PDict [])) as Hres
      by reflexivity.
    rewrite Hres. clear Hres. clearbody get. clear result.
    assert (∀ sd : Z * pyval,
              (sd.1 =? 200) && is_dict sd.2 && Py.contains_key sd.2 "content" = true
              ↔ usable sd) as Hus.
    { intros sd. unfold usable. rewrite !andb_true_iff, Z.eqb_eq. tauto. }
    assert (∀ data e, decode_remote dec data ≠ Raise e) as Hnr.
    { intros data e He. destruct (decode_remote_returns dec data) as [v Hv]. congruence. }
    split_and!.
    + intros e. destruct (get "plugin.json") as [sd|e1]; cbn.
      * destruct ((sd.1 =? 200) && is_dict sd.2 && Py.contains_key sd.2 "content") eqn:U1.
        -- apply Hus in U1. split; [by intros ?%Hnr|].
           intros [?|(sd0 & [= <-] & Hn & _)]; done.
        -- assert (¬ usable sd) as Hn1 by (rewrite <- Hus; congruence).
           destruct (get "manifest.json") as [sd'|e2]; cbn.
           ++ destruct ((sd'.1 =? 200) && is_dict sd'.2
                        && Py.contains_key sd'.2 "content");
                (split; [|by intros [?|(sd0 & _ & _ & ?)]]).
              ** by intros ?%Hnr.
              ** done.
           ++ split; [intros [= <-]; right; by exists sd|].
              intros [?|(sd0 & _ & _ & [= <-])]; done.
      * split; [intros [= <-]; by left|]. intros [[= <-]|(sd0 & ? & _)]; done.
    + intros sd sd' -> Hn1 -> Hn2. cbn.
      rewrite <- Hus in Hn1, Hn2.
      apply not_true_is_false in Hn1, Hn2. by rewrite Hn1, Hn2.
    + intros sd Hsd.
      match goal with |- context [?r = Ok _] =>
        assert (r = decode_remote dec sd.2) as ->
      end.
      { destruct Hsd as [[-> Hu]|[(sd0 & -> & Hn) [-> Hu]]]; cbn.
        - apply Hus in Hu. by rewrite Hu.
        - rewrite <- Hus in Hn. apply not_true_is_false in Hn. rewrite Hn.
          apply Hus in Hu. by rewrite Hu. }
      apply (decode_outcomes dec (content_text dec sd.2)).
  - intros net p token e. apply github_api_get_raises.
Qed.

Lemma manifest_resolver_boundary_witness :
  read_local_manifest sample_codecs plugins_dir_world ["work"; "plugins"] = Ok too_new ∧
  fetch_remote_manifest no_codecs (λ _ _, Failure InvalidURL) "my pkg" None
    = Raise InvalidURL.
Proof.
  split.
  - refine (proj1 (proj2 (proj2 (proj1 (manifest_resolver_boundary sample_codecs)
              plugins_dir_world ["work"; "plugins"])) ["work"; "plugins"; "plugin.json"] _)
              too_new_text too_new eq_refl eq_refl).
    left. split; reflexivity.
  - apply (proj1 (proj1 (proj2 (manifest_resolver_boundary no_codecs))
                    (λ _ _, Failure InvalidURL) "my pkg" None) InvalidURL).
    left. reflexivity.
Defined.


(** ** Plugin path resolver *)

Section UniqueRoots.

Context (w : world).

Abbreviation key := (resolve w).

(** The loop keeps [seen] equal to the keys of [uniq], only ever
    appends to [uniq], appends a sublist of the roots, never repeats a
    key, and ends with every key of the roots recorded. *)
Lemma unique_roots_spec roots : ∀ seen uniq,
  seen = key <$> uniq →
  ∃ added,
    unique_roots w roots seen uniq = uniq ++ added ∧
    added `sublist_of` roots ∧
    (∀ k, k ∈ key <$> (uniq ++ added) ↔ k ∈ seen ∨ k ∈ key <$> roots) ∧
    (NoDup seen → NoDup (key <$> (uniq ++ added))).
Proof.
  induction roots as [|r roots IH]; intros seen uniq Hinv.
  - exists []. rewrite app_nil_r. subst seen. split_and!; [done|done| |done].
    set_solver.
  - simpl. case_bool_decide as Hk.
    + destruct (IH seen uniq Hinv) as (added & -> & Hsub & Hkeys & Hnd).
      exists added. split_and!; [done|by apply sublist_cons| |done].
      intros k. rewrite Hkeys. set_solver.
    + destruct (IH (seen ++ [key r]) (uniq ++ [r])) as (added & Heq & Hsub & Hkeys & Hnd).
      { by rewrite fmap_app, Hinv. }
      exists (r :: added). rewrite <- app_assoc in Heq, Hkeys, Hnd.
      split_and!; [done|by apply sublist_skip| |].
      * intros k. rewrite Hkeys. set_solver.
      * intros Hs. apply Hnd. apply NoDup_app. split_and!; [done| |apply NoDup_singleton].
        intros x Hx ->%list_elem_of_singleton. done.
Qed.

Lemma uniq_of_spec roots :
  uniq_of w roots `sublist_of` roots ∧
  NoDup (key <$> uniq_of w roots) ∧
  (∀ k, k ∈ key <$> uniq_of w roots ↔ k ∈ key <$> roots).
Proof.
  destruct (unique_roots_spec roots [] [] eq_refl) as (added & H & Hsub & Hk & Hnd).
  unfold uniq_of. rewrite H. simpl in *. split_and!; try done.
  - apply Hnd, NoDup_nil_2.
  - intros k. rewrite Hk, elem_of_nil. naive_solver.
Qed.

Lemma unique_roots_split l1 l2 : ∀ seen uniq,
  seen = key <$> uniq →
  unique_roots w (l1 ++ l2) seen uniq =
    unique_roots w l2 (key <$> unique_roots w l1 seen uniq) (unique_roots w l1 seen uniq).
Proof.
  induction l1 as [|r l1 IH]; intros seen uniq Hinv; simpl; [by subst|].
  case_bool_decide; apply IH; [done|]. by rewrite fmap_app, Hinv.
Qed.

(** Deduplicating [l1 ++ l2] deduplicates [l1] and then appends a
    sublist of [l2]. *)
Lemma uniq_of_app l1 l2 :
  ∃ added, uniq_of w (l1 ++ l2) = uniq_of w l1 ++ added ∧ added `sublist_of` l2.
Proof.
  unfold uniq_of. rewrite unique_roots_split by done.
  destruct (unique_roots_spec l2 (key <$> unique_roots w l1 [] []) (unique_roots w l1 [] []) eq_refl)
    as (added & -> & Hsub & _). by exists added.
Qed.

(** One more root is kept exactly when its key has not been seen. *)
Lemma uniq_of_snoc l r :
  uniq_of w (l ++ [r]) =
    if bool_decide (key r ∈ key <$> l) then uniq_of w l else uniq_of w l ++ [r].
Proof.
  unfold uniq_of. rewrite unique_roots_split by done. simpl.
  destruct (uniq_of_spec l) as (_ & _ & Hk). unfold uniq_of in Hk.
  case_bool_decide as H1; case_bool_decide as H2; try done.
  - by apply Hk in H1.
  - by apply Hk in H2.
Qed.

End UniqueRoots.

Lemma path_name_snoc (d : path) (n : string) : Path.name (d ++ [n]) = n.
Proof. unfold Path.name. apply last_last. Qed.

Lemma path_join_plugins (d : path) : Path.join d "plugins" = d ++ ["plugins"].
Proof. reflexivity. Qed.

(** C8: when the package store can be made and the two directories can
    be listed, [find_plugins_paths] returns the roots taken, in this
    order, from the [plugins] directory of the working directory (if it
    is a directory), the subdirectories of the package store and the files
    of the working directory named [*_plugin.py], where of several roots
    with the same resolved path only the first is kept and the others
    keep their order. *)
Theorem find_plugins_paths_order_and_dedup (w : world) (subs files : list string) :
  mkdir_parents w (PACKAGES_DIR (home w)) = Ok () →
  listdir w (PACKAGES_DIR (home w)) = Ok subs →
  listdir w (cwd w) = Ok files →
  let local_plugins := cwd w ++ ["plugins"] in
  let candidates :=
    (if is_dir w local_plugins then [local_plugins] else [])
    ++ filter (λ p, is_dir w p = true) (map (λ n, PACKAGES_DIR (home w) ++ [n]) subs)
    ++ filter (λ p, is_file w p && PyStr.endswith (Path.name p) "_plugin.py" = true)
              (map (λ n, cwd w ++ [n]) files) in
  ∃ uniq,
    find_plugins_paths w = Ok uniq ∧
    uniq `sublist_of` candidates ∧
    NoDup (resolve w <$> uniq) ∧
    (∀ r, r ∈ candidates → resolve w r ∈ resolve w <$> uniq) ∧
    (∀ pre r post, candidates = pre ++ r :: post →
       resolve w r ∉ resolve w <$> pre →
       ∃ upre upost, uniq = upre ++ r :: upost ∧
                     upre `sublist_of` pre ∧ upost `sublist_of` post) ∧
    (∀ pre r post, candidates = pre ++ r :: post →
       resolve w r ∈ resolve w <$> pre →
       uniq `sublist_of` pre ++ post).
Proof.
  intros Hmk Hsubs Hfiles local_plugins candidates.
  exists (uniq_of w candidates).
  assert (find_plugins_paths w = Ok (uniq_of w candidates)) as Hrun.
  { unfold find_plugins_paths, ensure_packages_dir, iterdir.
    rewrite Hmk. cbn. rewrite Hsubs. cbn. rewrite Hfiles. done. }
  clearbody candidates.
  destruct (uniq_of_spec w candidates) as (Hsub & Hnd & Hk).
  split_and!; [done|done|done| | |].
  - intros r Hr. apply Hk. by apply list_elem_of_fmap_2.
  - intros pre r post -> Hfresh.
    rewrite (cons_middle r pre post), app_assoc.
    destruct (uniq_of_app w (pre ++ [r]) post) as (upost & -> & Hpost).
    rewrite uniq_of_snoc, bool_decide_eq_false_2 by done.
    exists (uniq_of w pre), upost. rewrite <- app_assoc. split_and!; [done| |done].
    apply uniq_of_spec.
  - intros pre r post -> Hseen.
    rewrite (cons_middle r pre post), app_assoc.
    destruct (uniq_of_app w (pre ++ [r]) post) as (upost & -> & Hpost).
    rewrite uniq_of_snoc, bool_decide_eq_true_2 by done.
    apply sublist_app; [apply uniq_of_spec|done].
Qed.

Lemma find_plugins_paths_order_and_dedup_witness :
  ∃ uniq, find_plugins_paths sample_world = Ok uniq ∧
          uniq `sublist_of` [["work"; "plugins"];
                             ["home"; ".config_editor_packages"; "alpha"];
                             ["work"; "a_plugin.py"]; ["work"; "b_plugin.py"]] ∧
          NoDup (resolve sample_world <$> uniq).
Proof.
  destruct (find_plugins_paths_order_and_dedup sample_world
              ["notes.txt"; "alpha"] ["readme.md"; "a_plugin.py"; "plugins"; "b_plugin.py"]
              eq_refl eq_refl eq_refl) as (uniq & Hrun & Hsub & Hnd & _).
  exists uniq. split_and!; [exact Hrun|exact Hsub|exact Hnd].
Defined.

Example find_plugins_paths_sample :
  find_plugins_paths sample_world
  = Ok [["work"; "plugins"]; ["home"; ".config_editor_packages"; "alpha"];
        ["work"; "a_plugin.py"]].
Proof. reflexivity. Qed.

(** ** Reload cycle *)

Lemma is_plugin_compatible_returns manifest core_version :
  returns (is_plugin_compatible manifest core_version).
Proof.
  unfold is_plugin_compatible.
  destruct (is_plugin_compatible_body manifest core_version); by eexists.
Qed.

(** A root that is not a directory goes straight to the loader. *)
Lemma reload_root_file dec w imp root :
  is_dir w root = false → stat_error w root = None →
  ∃ tabs, reload_root dec w imp root = Ok (LoaderInvoked root :: tabs, length tabs).
Proof.
  intros H Hs. unfold reload_root, path_exists, path_is_dir, probe. rewrite H, Hs.
  destruct (exists_ w root); cbn; by eexists.
Qed.

(** Every root that is a directory has its manifest read and the gate
    run first, whether it lives in the package store or not. *)
Lemma reload_root_directory dec w imp root :
  exists_ w root = true → is_dir w root = true →
  (∀ fn, stat_error w (Path.join root fn) = None) →
  ∃ manifest ok rest n,
    read_local_manifest dec w root = Ok manifest ∧
    is_plugin_compatible manifest __version__ = Ok ok ∧
    reload_root dec w imp root
      = Ok (ManifestRead root manifest :: GateRun root ok :: rest, n) ∧
    (ok = false → rest = [DisabledTab root manifest] ∧ n = 0%nat).
Proof.
  intros He Hd Hs. unfold reload_root, path_exists, path_is_dir, probe. rewrite He, Hd.
  destruct (read_local_loop_returns dec w ["plugin.json"; "manifest.json"] root) as [m Hm].
  { intros fn _. apply Hs. }
  fold (read_local_manifest dec w root) in Hm. cbn [mbind result_bind]. rewrite Hm.
  destruct (is_plugin_compatible_returns m __version__) as [ok Hok].
  cbn [andb mbind result_bind]. rewrite Hok. exists m, ok. destruct ok; cbn.
  - do 2 eexists. split_and!; [done|done|done|done].
  - do 2 eexists. split_and!; [done|done|done|done].
Qed.

(** C1 at the failing input: the conventional [plugins] directory of the
    working directory has its manifest read and the gate run, and the gate
    keeps it from the loader. *)
Theorem reload_gates_local_plugins_directory :
  reload_plugins sample_codecs plugins_dir_world sample_importer
  = Ok ([ManifestRead ["work"; "plugins"] too_new;
         GateRun ["work"; "plugins"] false;
         DisabledTab ["work"; "plugins"] too_new], 0%nat, 1%nat).
Proof. vm_compute. reflexivity. Qed.


(** ** Config document *)

Lemma string_length_app (a b : string) :
  String.length (a +:+ b) = (String.length a + String.length b)%nat.
Proof.
  induction a as [|c a IH]; [done|].
  change (String c a +:+ b) with (String c (a +:+ b)). simpl. by rewrite IH.
Qed.

Lemma drop_length_app (a b : string) : PyStr.drop (String.length a) (a +:+ b) = b.
Proof. induction a as [|c a IH]; [done|]. apply IH. Qed.

(** Text that ends in a character other than LF does not end in LF. *)
Lemma endswith_newline_snoc (t : string) (c : ascii) :
  c ≠ LF → PyStr.endswith (t +:+ String c "") newline = false.
Proof.
  intros Hc. unfold PyStr.endswith. rewrite string_length_app. simpl String.length.
  replace (String.length t + 1 - 1)%nat with (String.length t) by lia.
  rewrite drop_length_app. apply andb_false_intro1, bool_decide_eq_false.
  unfold newline. congruence.
Qed.

Lemma join_snoc sep (l : list string) (s : string) :
  l ≠ [] → PyStr.join sep (l ++ [s]) = PyStr.join sep l +:+ sep +:+ s.
Proof.
  induction l as [|a l IH]; [intros H; done|]. intros _.
  destruct l as [|b l]; [reflexivity|].
  change (PyStr.join sep ((a :: b :: l) ++ [s]))
    with (a +:+ sep +:+ PyStr.join sep ((b :: l) ++ [s])).
  rewrite IH by done.
  change (PyStr.join sep (a :: b :: l)) with (a +:+ sep +:+ PyStr.join sep (b :: l)).
  by rewrite !string_app_assoc.
Qed.

Lemma backup_name_other (p : string) (now : datetime) : backup_name p now ≠ p.
Proof.
  unfold backup_name. intros H.
  apply (f_equal String.length) in H. rewrite !string_length_app in H.
  simpl in H. lia.
Qed.

(** What [save()] leaves behind when the file is on disk. *)
Lemma save_with_backup (cf : ConfigFile) (now : datetime) (d : disk) (old : string) :
  d !! cf_path cf = Some old →
  let bak := backup_name (cf_path cf) now in
  let d' := <[cf_path cf := file_text (lines cf)]> (<[bak := old]> d) in
  let ls := splitlines (universal_newlines (file_text (lines cf))) in
  save cf true now d
  = (Ok (bak, {| cf_path := cf_path cf; _orig_lines := ls; lines := ls |}), d').
Proof.
  intros Hold bak d' ls. unfold save, make_backup. rewrite Hold.
  unfold load, read_file_lines, write_file_lines. cbn.
  by rewrite lookup_insert_eq.
Qed.

(** ** Commenting and uncommenting a line *)

Section LineFacts.

Import Line.

Lemma length_lstrip_tab_blank s :
  (String.length (lstrip_tab_blank s) ≤ String.length s)%nat.
Proof.
  induction s as [|c s IH]; simpl; [done|]. destruct (is_tab_or_blank c); simpl; lia.
Qed.

Lemma leading_whitespace_run line : leading_whitespace line = leading_run line.
Proof.
  unfold leading_whitespace. induction line as [|c s IH]; [done|].
  cbn [lstrip_tab_blank leading_run]. destruct (is_tab_or_blank c).
  - pose proof (length_lstrip_tab_blank s).
    replace (String.length (String c s) - String.length (lstrip_tab_blank s))%nat
      with (S (String.length s - String.length (lstrip_tab_blank s))) by (simpl; lia).
    simpl. by rewrite IH.
  - by rewrite Nat.sub_diag.
Qed.

Lemma run_app_rest s : leading_run s +:+ lstrip_tab_blank s = s.
Proof.
  induction s as [|c s IH]; [done|]. simpl. destruct (is_tab_or_blank c); [|done].
  change (String c (leading_run s) +:+ ?x) with (String c (leading_run s +:+ x)).
  by rewrite IH.
Qed.

Lemma drop_run s : PyStr.drop (String.length (leading_run s)) s = lstrip_tab_blank s.
Proof.
  induction s as [|c s IH]; [done|]. simpl. by destruct (is_tab_or_blank c).
Qed.

Lemma tab_blank_is_space c : is_tab_or_blank c = true → PyStr.is_space c = true.
Proof.
  unfold is_tab_or_blank. intros [->%bool_decide_eq_true| ->%bool_decide_eq_true]%orb_true_iff; done.
Qed.

Lemma lstrip_run_app s x : PyStr.lstrip (leading_run s +:+ x) = PyStr.lstrip x.
Proof.
  induction s as [|c s IH]; [done|]. simpl.
  destruct (is_tab_or_blank c) eqn:E; [|done].
  change (String c (leading_run s) +:+ x) with (String c (leading_run s +:+ x)).
  cbn [PyStr.lstrip]. by rewrite (tab_blank_is_space c E).
Qed.

Lemma lstrip_lstrip_tab_blank s : PyStr.lstrip (lstrip_tab_blank s) = PyStr.lstrip s.
Proof. by rewrite <- (run_app_rest s) at 2; rewrite lstrip_run_app. Qed.

Lemma run_of_app a c b :
  is_tab_or_blank c = false → leading_run (a +:+ String c b) = leading_run a.
Proof.
  intros Hc. induction a as [|d a IH]; simpl.
  - change ("" +:+ String c b) with (String c b). simpl. by rewrite Hc.
  - change (String d a +:+ ?x) with (String d (a +:+ x)). simpl.
    destruct (is_tab_or_blank d); [by rewrite IH|done].
Qed.

Lemma lstrip_tab_blank_app a c b :
  is_tab_or_blank c = false →
  lstrip_tab_blank (a +:+ String c b) = lstrip_tab_blank a +:+ String c b.
Proof.
  intros Hc. induction a as [|d a IH]; simpl.
  - change ("" +:+ String c b) with (String c b). simpl. by rewrite Hc.
  - change (String d a +:+ ?x) with (String d (a +:+ x)). simpl.
    by destruct (is_tab_or_blank d).
Qed.

(** Blanks hold no comment marker. *)
Lemma remove_first_after_blanks a b :
  PyStr.lstrip a = "" → remove_first "#" (a +:+ String "#" b) = a +:+ b.
Proof.
  induction a as [|d a IH]; [done|]. cbn [PyStr.lstrip].
  destruct (PyStr.is_space d) eqn:E; [|done]. intros Ha.
  change (String d a +:+ ?x) with (String d (a +:+ x)). cbn [remove_first].
  rewrite decide_False by (by intros ->). by rewrite IH.
Qed.

Lemma lstrip_blanks_app a x : PyStr.lstrip a = "" → PyStr.lstrip (a +:+ x) = PyStr.lstrip x.
Proof.
  induction a as [|d a IH]; [done|]. cbn [PyStr.lstrip].
  destruct (PyStr.is_space d) eqn:E; [|done]. intros Ha.
  change (String d a +:+ x) with (String d (a +:+ x)). cbn [PyStr.lstrip].
  by rewrite E, IH.
Qed.

Lemma startswith_empty s : PyStr.startswith s "" = true.
Proof. by destruct s. Qed.

Lemma is_commented_marker a b :
  PyStr.lstrip a = "" → is_commented (a +:+ String "#" b) = true.
Proof.
  intros Ha. unfold is_commented. rewrite lstrip_blanks_app by done.
  cbn. by rewrite startswith_empty.
Qed.

(** Where the marker stands after blanks only, [uncomment_line] takes
    exactly that marker out. *)
Lemma uncomment_line_marker a b :
  PyStr.lstrip a = "" → uncomment_line (a +:+ String "#" b) = a +:+ b.
Proof.
  intros Ha. unfold uncomment_line. rewrite lstrip_blanks_app by done.
  replace (PyStr.startswith (PyStr.lstrip (String "#" b)) "#") with true
    by (cbn; by rewrite startswith_empty).
  cbn [negb].
  rewrite leading_whitespace_run, run_of_app by done.
  assert (PyStr.drop (String.length (leading_run a)) (a +:+ String "#" b)
          = lstrip_tab_blank a +:+ String "#" b) as ->.
  { rewrite <- (run_app_rest a) at 2. by rewrite string_app_assoc, drop_length_app. }
  rewrite remove_first_after_blanks by (by rewrite lstrip_lstrip_tab_blank).
  by rewrite <- string_app_assoc, run_app_rest.
Qed.

Lemma lstrip_run s : PyStr.lstrip (leading_run s) = "".
Proof.
  induction s as [|c s IH]; [done|]. simpl.
  destruct (is_tab_or_blank c) eqn:E; [|done]. cbn [PyStr.lstrip].
  by rewrite (tab_blank_is_space c E).
Qed.

Lemma comment_line_not_commented line :
  is_commented line = false →
  comment_line line = leading_run line +:+ String "#" (lstrip_tab_blank line).
Proof.
  intros H. unfold comment_line. rewrite H, leading_whitespace_run, drop_run. done.
Qed.

End LineFacts.

(** X1: after [comment_line] a line is commented, and commenting twice is
    commenting once. *)
Theorem comment_line_commented_idempotent (line : string) :
  is_commented (comment_line line) = true ∧
  comment_line (comment_line line) = comment_line line.
Proof.
  assert (is_commented (comment_line line) = true) as H.
  { destruct (is_commented line) eqn:E.
    - unfold comment_line. by rewrite E.
    - rewrite comment_line_not_commented by done.
      apply is_commented_marker, lstrip_run. }
  split; [done|]. unfold comment_line at 1. by rewrite H.
Qed.

(** X2: [uncomment_line] undoes [comment_line] on every line of ASCII
    text that was not commented. *)
Theorem uncomment_comment_round_trip (line : string) :
  ascii_text line = true →
  is_commented line = false → uncomment_line (comment_line line) = line.
Proof.
  intros _ H. rewrite comment_line_not_commented by done.
  rewrite uncomment_line_marker by apply lstrip_run. apply run_app_rest.
Qed.

Lemma uncomment_comment_round_trip_witness :
  uncomment_line (comment_line "  bindsym $mod+d exec dmenu_run")
  = "  bindsym $mod+d exec dmenu_run".
Proof. apply uncomment_comment_round_trip; reflexivity. Defined.

(** X3: [uncomment_line] removes exactly the marker that follows the
    leading blanks and nothing else, and leaves a line of ASCII text
    without such a marker as it is. *)
Theorem uncomment_line_removes_marker (line : string) :
  (∀ a b, PyStr.lstrip a = "" → line = a +:+ String "#" b →
          uncomment_line line = a +:+ b) ∧
  (ascii_text line = true → is_commented line = false → uncomment_line line = line).
Proof.
  split.
  - intros a b Ha ->. by apply uncomment_line_marker.
  - intros _. unfold is_commented, uncomment_line. by intros ->.
Qed.

Lemma uncomment_line_removes_marker_witness :
  uncomment_line "	 ## keep # this" = "	 # keep # this".
Proof.
  apply (proj1 (uncomment_line_removes_marker "	 ## keep # this") "	 " "# keep # this");
    reflexivity.
Defined.

(** ** Editing the lines of a document *)

Lemma py_index_in_range {A} (l : list A) (i : Z) :
  0 ≤ i < Z.of_nat (length l) → py_index l i = l !! Z.to_nat i.
Proof.
  intros H. unfold py_index.
  by rewrite (proj2 (Z.leb_le _ _)), (proj2 (Z.ltb_lt _ _)) by lia.
Qed.

(** X4: [replace_line] accepts exactly the indexes [0 <= idx < count]:
    there it replaces that line and no other, keeping the count and the
    snapshot; everywhere else, negative indexes included, it raises
    [IndexError] and changes nothing. *)
Theorem replace_line_in_and_out_of_range (cf : ConfigFile) (idx : Z) (new_line : string) :
  (0 ≤ idx < line_count cf →
     ∃ cf', replace_line cf idx new_line = Ok cf' ∧
            get_line cf' idx = Ok new_line ∧
            line_count cf' = line_count cf ∧
            _orig_lines cf' = _orig_lines cf ∧ cf_path cf' = cf_path cf ∧
            ∀ j, 0 ≤ j < line_count cf → j ≠ idx → get_line cf' j = get_line cf j) ∧
  (¬ (0 ≤ idx < line_count cf) →
     replace_line cf idx new_line = Raise (IndexError "index out of range")).
Proof.
  unfold replace_line, line_count, get_line. split; intros H.
  - rewrite bool_decide_eq_true_2 by done. eexists. split; [done|]. cbn.
    rewrite length_insert. split_and!; try done.
    + rewrite py_index_in_range by (rewrite length_insert; lia).
      rewrite list_lookup_insert_eq by lia. done.
    + intros j Hj Hne.
      rewrite !py_index_in_range by (rewrite ?length_insert; lia).
      rewrite list_lookup_insert_ne by lia. done.
  - by rewrite bool_decide_eq_false_2.
Qed.

Lemma replace_line_in_and_out_of_range_witness :
  replace_line sample_doc (-1) "x" = Raise (IndexError "index out of range").
Proof.
  apply (proj2 (replace_line_in_and_out_of_range sample_doc (-1) "x")).
  unfold line_count. simpl. lia.
Defined.

(** X5: [insert_line] accepts every index that fits the interpreter's
    index type and then adds one line, leaving path and snapshot alone: at
    an index within [0 .. count] the new line lands at that index with the
    earlier lines before it and the later ones shifted by one; an index
    past the end appends, and an index at or before [-count] puts the line
    first.  An index that does not fit raises [OverflowError]. *)
Theorem insert_line_positions (cf : ConfigFile) (idx : Z) (new_line : string) :
  (- PY_SSIZE_T_MAX - 1 ≤ idx ≤ PY_SSIZE_T_MAX →
   ∃ cf',
     insert_line cf idx new_line = Ok cf' ∧
     cf_path cf' = cf_path cf ∧ _orig_lines cf' = _orig_lines cf ∧
     line_count cf' = line_count cf + 1 ∧
     (0 ≤ idx ≤ line_count cf →
        get_line cf' idx = Ok new_line ∧
        (∀ j, 0 ≤ j < idx → get_line cf' j = get_line cf j) ∧
        (∀ j, idx ≤ j < line_count cf → get_line cf' (j + 1) = get_line cf j)) ∧
     (line_count cf ≤ idx → cf' = append_line cf new_line) ∧
     (idx ≤ - line_count cf → lines cf' = new_line :: lines cf)) ∧
  (¬ (- PY_SSIZE_T_MAX - 1 ≤ idx ≤ PY_SSIZE_T_MAX) →
   insert_line cf idx new_line = Raise OverflowError).
Proof.
  unfold insert_line, fits_ssize_t. split.
  2: { intros H. destruct (_ && _) eqn:E; [|done].
       apply andb_true_iff in E as [?%Z.leb_le ?%Z.leb_le]. lia. }
  intros Hfit. rewrite (proj2 (andb_true_iff _ _)) by (split; apply Z.leb_le; lia).
  eexists. split; [done|]. split; [done|]. split; [done|].
  unfold line_count, get_line, append_line, py_insert. cbn [lines].
  set (l := lines cf). set (n := Z.of_nat (length l)).
  split_and!.
  - rewrite length_app, length_cons, length_take, length_drop.
    destruct (idx <? 0) eqn:E; [apply Z.ltb_lt in E|apply Z.ltb_ge in E]; lia.
  - intros H. rewrite (proj2 (Z.ltb_ge idx 0)) by lia.
    rewrite Z.min_l by lia.
    assert (length (take (Z.to_nat idx) l) = Z.to_nat idx) as Hlen.
    { rewrite length_take. lia. }
    assert (length (take (Z.to_nat idx) l ++ new_line :: drop (Z.to_nat idx) l)
            = S (length l)) as Hall.
    { rewrite length_app, length_cons, length_take, length_drop. lia. }
    split_and!.
    + rewrite py_index_in_range by (rewrite Hall; lia).
      rewrite lookup_app_r by lia. rewrite Hlen, Nat.sub_diag. done.
    + intros j Hj. rewrite !py_index_in_range by (rewrite ?Hall; lia).
      rewrite lookup_app_l by lia. rewrite lookup_take_lt by lia. done.
    + intros j Hj. rewrite !py_index_in_range by (rewrite ?Hall; lia).
      rewrite lookup_app_r by lia. rewrite Hlen.
      replace (Z.to_nat (j + 1) - Z.to_nat idx)%nat with (S (Z.to_nat j - Z.to_nat idx)) by lia.
      f_equal.
      change (drop (Z.to_nat idx) l !! (Z.to_nat j - Z.to_nat idx)%nat = l !! Z.to_nat j).
      rewrite lookup_drop. f_equal. lia.
  - intros H. rewrite (proj2 (Z.ltb_ge idx 0)) by lia.
    rewrite Z.min_r by lia. unfold n. rewrite Nat2Z.id.
    by rewrite take_ge, drop_ge by lia.
  - intros H. destruct (idx <? 0) eqn:E.
    + rewrite Z.max_l by lia. done.
    + apply Z.ltb_ge in E. assert (idx = 0 ∧ n = 0) as [-> Hn] by lia.
      rewrite Z.min_l by lia. done.
Qed.

Lemma insert_line_positions_witness :
  insert_line sample_doc 7 "x" = Ok (append_line sample_doc "x") ∧
  insert_line sample_doc (PY_SSIZE_T_MAX + 1) "x" = Raise OverflowError.
Proof.
  split.
  - destruct (proj1 (insert_line_positions sample_doc 7 "x"))
      as (cf' & -> & _ & _ & _ & _ & Happend & _).
    + unfold PY_SSIZE_T_MAX. lia.
    + f_equal. apply Happend. unfold line_count. simpl. lia.
  - apply (proj2 (insert_line_positions sample_doc (PY_SSIZE_T_MAX + 1) "x")).
    unfold PY_SSIZE_T_MAX. lia.
Defined.

(** ** Writing the lines and reading them back *)

Lemma drop_app_add (a b : string) (k : nat) :
  PyStr.drop (String.length a + k) (a +:+ b) = PyStr.drop k b.
Proof. induction a as [|c a IH]; [done|]. apply IH. Qed.

Lemma endswith_app_newline (x : string) : PyStr.endswith (x +:+ newline) newline = true.
Proof.
  unfold PyStr.endswith. rewrite string_length_app. simpl String.length.
  replace (String.length x + 1 - 1)%nat with (String.length x + 0)%nat by lia.
  rewrite drop_app_add.
  apply andb_true_intro. split; apply bool_decide_eq_true; [reflexivity|lia].
Qed.

(** Whether a text ends in LF is decided by its non-empty tail. *)
Lemma endswith_newline_app (a b : string) :
  b ≠ "" → PyStr.endswith (a +:+ b) newline = PyStr.endswith b newline.
Proof.
  intros Hb. unfold PyStr.endswith. rewrite string_length_app. simpl String.length.
  assert (1 ≤ String.length b)%nat as Hlen by (destruct b; simpl; [done|lia]).
  replace (String.length a + String.length b - 1)%nat
    with (String.length a + (String.length b - 1))%nat by lia.
  rewrite drop_app_add. f_equal.
  rewrite !bool_decide_eq_true_2 by (simpl; lia). done.
Qed.

Lemma no_linebreak_endswith l : no_linebreak l = true → PyStr.endswith l newline = false.
Proof.
  induction l as [|c l IH]; [done|]. cbn [no_linebreak].
  intros [Hc Hl]%andb_true_iff. destruct l as [|d l].
  - unfold PyStr.endswith. simpl. apply andb_false_intro1, bool_decide_eq_false.
    intros [= ->]. done.
  - change (String c (String d l)) with (String c "" +:+ String d l).
    rewrite endswith_newline_app by done. by apply IH.
Qed.

Lemma splitlines_first_line l rest :
  no_linebreak l = true → splitlines (l +:+ String LF rest) = l :: splitlines rest.
Proof.
  induction l as [|c l IH].
  - intros _. change ("" +:+ ?x) with x. by destruct rest.
  - cbn [no_linebreak]. intros [Hc Hl]%andb_true_iff.
    change (String c l +:+ ?x) with (String c (l +:+ x)). cbn [splitlines].
    apply negb_true_iff in Hc. rewrite Hc, IH by done. done.
Qed.

Lemma splitlines_joined ls :
  Forall (λ l, no_linebreak l = true) ls → ls ≠ [] →
  splitlines (PyStr.join newline ls +:+ newline) = ls.
Proof.
  induction 1 as [|l ls Hl Hls IH]; [done|]. intros _. destruct ls as [|l' ls].
  - simpl PyStr.join. unfold newline. by rewrite splitlines_first_line.
  - change (PyStr.join newline (l :: l' :: ls))
      with (l +:+ newline +:+ PyStr.join newline (l' :: ls)).
    rewrite !string_app_assoc. unfold newline at 1.
    change (String LF "" +:+ ?x) with (String LF x).
    rewrite splitlines_first_line by done. by rewrite IH.
Qed.

Lemma has_char_app c a b : Py.has_char c (a +:+ b) = Py.has_char c a || Py.has_char c b.
Proof.
  induction a as [|d a IH]; [done|].
  change (String d a +:+ b) with (String d (a +:+ b)). simpl. by rewrite IH, orb_assoc.
Qed.

Lemma universal_newlines_no_cr s : Py.has_char CR s = false → universal_newlines s = s.
Proof.
  induction s as [|c s IH]; [done|]. simpl.
  intros [Hc Hs]%orb_false_iff. apply bool_decide_eq_false in Hc.
  rewrite decide_False by done. by rewrite IH.
Qed.

Lemma no_linebreak_no_cr l : no_linebreak l = true → Py.has_char CR l = false.
Proof.
  induction l as [|c l IH]; [done|]. cbn [no_linebreak Py.has_char].
  intros [Hc Hl]%andb_true_iff. rewrite IH by done. rewrite orb_false_r.
  apply bool_decide_eq_false. intros <-. done.
Qed.

Lemma joined_no_cr ls :
  Forall (λ l, no_linebreak l = true) ls → Py.has_char CR (PyStr.join newline ls) = false.
Proof.
  induction 1 as [|l ls Hl Hls IH]; [done|]. destruct ls as [|l' ls].
  - by apply no_linebreak_no_cr.
  - change (PyStr.join newline (l :: l' :: ls))
      with (l +:+ newline +:+ PyStr.join newline (l' :: ls)).
    by rewrite !has_char_app, IH, no_linebreak_no_cr.
Qed.

Lemma file_text_no_cr ls :
  Forall (λ l, no_linebreak l = true) ls → Py.has_char CR (file_text ls) = false.
Proof.
  intros H. unfold file_text. destruct (PyStr.endswith _ _).
  - by apply joined_no_cr.
  - by rewrite has_char_app, joined_no_cr.
Qed.

(** The lines of the written text, for lines without line breaks. *)
Lemma splitlines_file_text ls :
  Forall (λ l, no_linebreak l = true) ls →
  splitlines (file_text ls) = lines_read_back ls.
Proof.
  intros Hls. destruct ls as [|a [|b ls]]; [done| |].
  - apply Forall_cons in Hls as [Ha _]. unfold file_text. simpl PyStr.join.
    rewrite no_linebreak_endswith by done.
    change (splitlines (a +:+ String LF "") = [a]).
    by rewrite splitlines_first_line.
  - cbn [lines_read_back].
    destruct (exists_last (l := a :: b :: ls)) as (init & x & Heq); [done|].
    rewrite Heq in Hls |- *. apply Forall_app in Hls as [Hinit Hx].
    rewrite Forall_singleton in Hx.
    assert (init ≠ []) as Hne.
    { intros ->. apply (f_equal length) in Heq. simpl in Heq. lia. }
    rewrite last_snoc, removelast_last.
    unfold file_text. rewrite join_snoc by done.
    destruct (decide (Some x = Some "")) as [[= ->]|Hx'].
    + rewrite string_app_empty_r, endswith_app_newline.
      by apply splitlines_joined.
    + assert (x ≠ "") by congruence.
      rewrite endswith_newline_app by (by apply app_nonempty_r).
      rewrite (endswith_newline_app newline x) by done.
      rewrite no_linebreak_endswith by done.
      rewrite <- join_snoc by done. apply splitlines_joined.
      * apply Forall_app. by split; [|apply Forall_singleton].
      * by destruct init.
Qed.

(** X6: for lines of ASCII text that hold no line-break character, the
    file written by
    [write_file_lines] reads back as the same lines, except that an empty
    document reads back as one empty line and that one trailing empty
    line (of two lines or more) is not read back; [save] leaves the
    document with exactly these lines. *)
Theorem written_lines_read_back (p : string) (ls : list string) (d : disk) :
  Forall (λ l, ascii_text l = true) ls →
  Forall (λ l, no_linebreak l = true) ls →
  read_file_lines (write_file_lines p ls d) p = Ok (lines_read_back ls) ∧
  (∀ x, last ls = Some x → x ≠ "" →
        read_file_lines (write_file_lines p ls d) p = Ok ls) ∧
  (∀ cf now old, lines cf = ls → cf_path cf = p → d !! p = Some old →
     ∃ bak cf' d', save cf true now d = (Ok (bak, cf'), d') ∧
                   lines cf' = lines_read_back ls ∧
                   _orig_lines cf' = lines_read_back ls).
Proof.
  intros _ Hls.
  assert (splitlines (universal_newlines (file_text ls)) = lines_read_back ls) as Hback.
  { rewrite universal_newlines_no_cr by (by apply file_text_no_cr).
    by apply splitlines_file_text. }
  split_and!.
  - unfold read_file_lines, write_file_lines. by rewrite lookup_insert_eq, Hback.
  - intros x Hlast Hx. unfold read_file_lines, write_file_lines.
    rewrite lookup_insert_eq, Hback. f_equal.
    destruct ls as [|a [|b ls]]; [done|done|]. cbn [lines_read_back].
    rewrite decide_False; [done|]. rewrite Hlast. congruence.
  - intros cf now old <- <- Hold. do 3 eexists.
    split; [by apply save_with_backup|]. cbn. by rewrite Hback.
Qed.

Lemma written_lines_read_back_witness :
  read_file_lines (write_file_lines "/c" ["set $mod Mod4"; "x"] ∅) "/c"
  = Ok ["set $mod Mod4"; "x"].
Proof.
  refine (proj1 (proj2 (written_lines_read_back "/c" ["set $mod Mod4"; "x"] ∅ _ _))
            "x" eq_refl _).
  - repeat constructor.
  - repeat constructor.
  - discriminate.
Defined.

(** A trailing empty line is lost by every save. *)
Example save_drops_trailing_empty_line :
  read_file_lines (write_file_lines "/c" ["a"; ""; ""] ∅) "/c" = Ok ["a"; ""] ∧
  read_file_lines (write_file_lines "/c" ["a"; ""] ∅) "/c" = Ok ["a"] ∧
  read_file_lines (write_file_lines "/c" [] ∅) "/c" = Ok [""].
Proof. repeat split. Qed.

(** X7: whatever the lines are, the text [write_file_lines] writes ends
    with a newline, and it is the joined lines themselves when these
    already end with one. *)
Theorem written_text_ends_with_newline (ls : list string) :
  PyStr.endswith (file_text ls) newline = true ∧
  (file_text ls = PyStr.join newline ls ∨
   file_text ls = PyStr.join newline ls +:+ newline ∧
   PyStr.endswith (PyStr.join newline ls) newline = false).
Proof.
  unfold file_text. destruct (PyStr.endswith (PyStr.join newline ls) newline) eqn:E.
  - split; [done|by left].
  - split; [apply endswith_app_newline|by right].
Qed.

(** ** Saving *)

Lemma pad2_two_digits n : (n < 100)%nat → pad2 n = two_digits n.
Proof.
  intros Hn.
  assert (forallb (λ k, String.eqb (pad2 k) (two_digits k)) (seq 0 100) = true) as Hall
    by (vm_compute; reflexivity).
  rewrite forallb_forall in Hall. apply String.eqb_eq, Hall, in_seq. lia.
Qed.

Lemma pretty_year y :
  1000 ≤ Z.of_nat y ≤ 9999 →
  pretty y = String (decimal_digit (y / 1000)) (String (decimal_digit (y / 100))
               (two_digits y)).
Proof.
  intros Hy.
  assert (forallb (λ k, String.eqb (pretty k)
                          (String (decimal_digit (k / 1000))
                             (String (decimal_digit (k / 100)) (two_digits k))))
            (seq 1000 (Z.to_nat 9000)) = true) as Hall by (vm_compute; reflexivity).
  rewrite forallb_forall in Hall. apply String.eqb_eq, Hall, in_seq. lia.
Qed.

Lemma strftime_stamp now : valid_clock now → strftime now = stamp_yyyymmdd_HHMMSS now.
Proof.
  intros (Hy & Hm & Hd & Hh & Hmi & Hs). unfold strftime, stamp_yyyymmdd_HHMMSS.
  rewrite (pretty_year _ Hy), !pad2_two_digits by lia. done.
Qed.

Lemma unlines_app a b : unlines (a ++ b) = unlines a +:+ unlines b.
Proof.
  induction a as [|l a IH]; [done|]. cbn [app unlines]. rewrite IH.
  change (String "010" (unlines a +:+ unlines b))
    with (String "010" (unlines a) +:+ unlines b).
  by rewrite string_app_assoc.
Qed.

Lemma join_unlines ls : ls ≠ [] → PyStr.join newline ls +:+ newline = unlines ls.
Proof.
  induction ls as [|l ls IH]; [done|]. intros _. destruct ls as [|m ls].
  - reflexivity.
  - change (PyStr.join newline (l :: m :: ls))
      with (l +:+ newline +:+ PyStr.join newline (m :: ls)).
    rewrite !string_app_assoc, IH by done. done.
Qed.

(** The text written for lines without line breaks. *)
Lemma file_text_unlines ls :
  Forall (λ l, no_linebreak l = true) ls →
  file_text ls = unlines (lines_read_back ls).
Proof.
  intros Hls. destruct ls as [|a [|b ls]]; [done| |].
  - apply Forall_cons in Hls as [Ha _]. unfold file_text. simpl PyStr.join.
    rewrite no_linebreak_endswith by done. reflexivity.
  - cbn [lines_read_back].
    destruct (exists_last (l := a :: b :: ls)) as (init & x & Heq); [done|].
    rewrite Heq in Hls |- *. apply Forall_app in Hls as [Hinit Hx].
    rewrite Forall_singleton in Hx.
    assert (init ≠ []) as Hne.
    { intros ->. apply (f_equal length) in Heq. simpl in Heq. lia. }
    rewrite last_snoc, removelast_last.
    unfold file_text. rewrite join_snoc by done.
    destruct (decide (Some x = Some "")) as [[= ->]|Hx'].
    + rewrite string_app_empty_r, endswith_app_newline. by apply join_unlines.
    + assert (x ≠ "") by congruence.
      rewrite endswith_newline_app by (by apply app_nonempty_r).
      rewrite (endswith_newline_app newline x) by done.
      rewrite no_linebreak_endswith by done.
      rewrite <- join_snoc by done. apply join_unlines. by destruct init.
Qed.

Lemma lines_read_back_last ls x :
  last ls = Some x → x ≠ "" → lines_read_back ls = ls.
Proof.
  intros Hlast Hx. destruct ls as [|a [|b ls]]; [done|done|]. cbn [lines_read_back].
  rewrite decide_False; [done|]. rewrite Hlast. congruence.
Qed.

(** C9: for a document whose file is on disk and whose lines are ASCII
    text without line breaks, [save()] at a clock reading of a year with
    four digits returns the name [{path}.bak.{yyyymmdd_HHMMSS}], leaves
    under that name the content the file had before the call, leaves in
    the file every working line followed by a line feed (an empty document
    as one empty line, a final empty line of several lines not written),
    touches no other file, and leaves snapshot and working lines equal to
    the lines of the new file, which are the working lines when the last
    of these is not empty; after [append_line("x")] the file is the
    earlier lines and then the line [x], and so is the snapshot. *)
Theorem save_backs_up_then_overwrites (cf : ConfigFile) (now : datetime)
    (d : disk) (old : string) :
  d !! cf_path cf = Some old →
  valid_clock now →
  Forall (λ l, ascii_text l = true) (lines cf) →
  Forall (λ l, no_linebreak l = true) (lines cf) →
  let bak := cf_path cf +:+ ".bak." +:+ stamp_yyyymmdd_HHMMSS now in
  (∃ d',
     save cf true now d
     = (Ok (bak, {| cf_path := cf_path cf;
                    _orig_lines := lines_read_back (lines cf);
                    lines := lines_read_back (lines cf) |}), d') ∧
     d' !! bak = Some old ∧
     d' !! cf_path cf = Some (unlines (lines_read_back (lines cf))) ∧
     (∀ p, p ≠ bak → p ≠ cf_path cf → d' !! p = d !! p) ∧
     (∀ x, last (lines cf) = Some x → x ≠ "" → lines_read_back (lines cf) = lines cf)) ∧
  (∃ d',
     save (append_line cf "x") true now d
     = (Ok (bak, {| cf_path := cf_path cf;
                    _orig_lines := lines cf ++ ["x"];
                    lines := lines cf ++ ["x"] |}), d') ∧
     d' !! bak = Some old ∧
     d' !! cf_path cf = Some (unlines (lines cf) +:+ "x" +:+ newline)).
Proof.
  intros Hold Hclock _ Hls bak.
  pose proof (backup_name_other (cf_path cf) now) as Hne.
  unfold backup_name in Hne. rewrite (strftime_stamp now Hclock) in Hne. fold bak in Hne.
  assert (∀ cf0, cf_path cf0 = cf_path cf →
            Forall (λ l, no_linebreak l = true) (lines cf0) →
            save cf0 true now d
            = (Ok (bak, {| cf_path := cf_path cf;
                           _orig_lines := lines_read_back (lines cf0);
                           lines := lines_read_back (lines cf0) |}),
               <[cf_path cf := unlines (lines_read_back (lines cf0))]> (<[bak := old]> d)))
    as Hsave.
  { intros cf0 Hp Hl0. rewrite (save_with_backup cf0 now d old) by (by rewrite Hp).
    unfold backup_name. rewrite (strftime_stamp now Hclock), Hp. fold bak.
    rewrite universal_newlines_no_cr by (by apply file_text_no_cr).
    rewrite splitlines_file_text by done. by rewrite file_text_unlines. }
  split.
  - eexists. split; [by apply Hsave|]. split_and!.
    + rewrite lookup_insert_ne by done. apply lookup_insert_eq.
    + apply lookup_insert_eq.
    + intros p H1 H2. by rewrite !lookup_insert_ne.
    + apply lines_read_back_last.
  - assert (Forall (λ l, no_linebreak l = true) (lines cf ++ ["x"])) as Hx.
    { apply Forall_app. split; [done|]. by apply Forall_singleton. }
    pose proof (Hsave (append_line cf "x") eq_refl Hx) as Hrun. cbn [lines append_line] in Hrun.
    rewrite (lines_read_back_last (lines cf ++ ["x"]) "x") in Hrun
      by (by rewrite ?last_snoc).
    eexists. split; [exact Hrun|]. split.
    + rewrite lookup_insert_ne by done. apply lookup_insert_eq.
    + rewrite lookup_insert_eq, unlines_app. done.
Qed.

Lemma save_backs_up_then_overwrites_witness :
  ∃ d',
    save (append_line sample_doc "x") true sample_now sample_disk
    = (Ok ("/home/u/.config/i3/config.bak.20250309_140500",
           {| cf_path := "/home/u/.config/i3/config";
              _orig_lines := ["set $mod Mod4"; "x"];
              lines := ["set $mod Mod4"; "x"] |}), d') ∧
    d' !! "/home/u/.config/i3/config.bak.20250309_140500"
    = Some ("set $mod Mod4" +:+ newline) ∧
    d' !! "/home/u/.config/i3/config"
    = Some ("set $mod Mod4" +:+ newline +:+ "x" +:+ newline).
Proof.
  refine (proj2 (save_backs_up_then_overwrites sample_doc sample_now sample_disk
                   ("set $mod Mod4" +:+ newline) eq_refl _ _ _)).
  - unfold valid_clock. simpl. lia.
  - repeat constructor.
  - repeat constructor.
Defined.

Example save_sample :
  (save (append_line sample_doc "x") true sample_now sample_disk).1
  = Ok ("/home/u/.config/i3/config.bak.20250309_140500",
        {| cf_path := "/home/u/.config/i3/config";
           _orig_lines := ["set $mod Mod4"; "x"];
           lines := ["set $mod Mod4"; "x"] |}).
Proof. reflexivity. Qed.

(** ** Config document: edits and the snapshot *)

Lemma apply_edit_keeps cf e cf' :
  apply_edit cf e = Ok cf' →
  cf_path cf' = cf_path cf ∧ _orig_lines cf' = _orig_lines cf.
Proof.
  destruct e as [idx l|l|idx l]; cbn.
  - unfold replace_line. case_bool_decide; [|done]. by intros [= <-].
  - by intros [= <-].
  - unfold insert_line. destruct (fits_ssize_t idx); [|done]. by intros [= <-].
Qed.

Lemma apply_edits_keep cf es :
  cf_path (apply_edits cf es).1 = cf_path cf ∧
  _orig_lines (apply_edits cf es).1 = _orig_lines cf.
Proof.
  revert cf. induction es as [|e rest IH]; intros cf; [done|]. cbn.
  destruct (apply_edit cf e) as [cf1|x] eqn:E; [|done].
  destruct (apply_edit_keeps _ _ _ E) as [<- <-]. apply IH.
Qed.

(** X22: opening a file takes a snapshot of its lines; no sequence of
    [replace_line], [append_line] and [insert_line] calls, failing ones
    included, changes the snapshot or the path, and [discard_changes]
    after them gives back the document as it was opened, as long as the
    file itself was not changed. *)
Theorem edits_keep_snapshot (p : string) (d : disk) (cf : ConfigFile) (es : list edit) :
  ConfigFile_init p d = Ok cf →
  lines cf = _orig_lines cf ∧
  cf_path (apply_edits cf es).1 = p ∧
  _orig_lines (apply_edits cf es).1 = lines cf ∧
  discard_changes (apply_edits cf es).1 d = Ok cf.
Proof.
  unfold ConfigFile_init. destruct (d !! p) as [text|] eqn:Hp; [|done].
  unfold load at 1, read_file_lines. cbn. rewrite Hp. cbn. intros [= <-].
  destruct (apply_edits_keep
              {| cf_path := p; _orig_lines := splitlines (universal_newlines text);
                 lines := splitlines (universal_newlines text) |} es) as [Hpath Horig].
  split_and!; [done|done|done|].
  unfold discard_changes, load, read_file_lines. rewrite Hpath. cbn. by rewrite Hp.
Qed.

Lemma edits_keep_snapshot_witness :
  ∃ cf, ConfigFile_init "/home/u/.config/i3/config" sample_disk = Ok cf ∧
        lines (apply_edits cf [AppendLine "x"; ReplaceLine 5 "y"; InsertLine 0 "z"]).1
          = ["set $mod Mod4"; "x"] ∧
        discard_changes (apply_edits cf [AppendLine "x"; ReplaceLine 5 "y"; InsertLine 0 "z"]).1
          sample_disk = Ok cf.
Proof.
  eexists. split; [reflexivity|]. split; [reflexivity|].
  apply (edits_keep_snapshot "/home/u/.config/i3/config" sample_disk _
           [AppendLine "x"; ReplaceLine 5 "y"; InsertLine 0 "z"] eq_refl).
Defined.

(** ** More on versions and the gate *)

Lemma tuple_ge_trans a b c :
  tuple_ge a b = true → tuple_ge b c = true → tuple_ge a c = true.
Proof.
  unfold tuple_ge.
  destruct (tuple_cmp a b) eqn:Hab; [|done|]; destruct (tuple_cmp b c) eqn:Hbc; try done;
    intros _ _.
  - apply tuple_cmp_eq in Hab as ->. by rewrite Hbc.
  - apply tuple_cmp_eq in Hab as ->. by rewrite Hbc.
  - apply tuple_cmp_eq in Hbc as ->. by rewrite Hab.
  - assert (tuple_cmp c a = Lt) as H.
    { apply (tuple_cmp_lt_trans c b a).
      - by rewrite (tuple_cmp_opp b c), Hbc.
      - by rewrite (tuple_cmp_opp a b), Hab. }
    rewrite (tuple_cmp_opp c a), H. done.
Qed.

(** X8: under the [min_core_version] rule the gate is monotone in the
    host version: a manifest accepted for one core version is accepted
    for every core version that compares at least as great. *)
Theorem gate_minimum_is_monotone (items : list (string * pyval)) (older newer : string) :
  Py.truthy (default PNone (Py.assoc "min_core_version" items)) = true →
  tuple_ge (_parse_version newer) (_parse_version older) = true →
  is_plugin_compatible (PDict items) older = Ok true →
  is_plugin_compatible (PDict items) newer = Ok true.
Proof.
  intros Hmin Hge. unfold is_plugin_compatible.
  assert (items ≠ []) as Hne by (by intros ->).
  rewrite !gate_unfold_dict by done. cbn zeta. rewrite Hmin. cbn.
  intros [= H]. f_equal. by eapply tuple_ge_trans.
Qed.

Lemma gate_minimum_is_monotone_witness :
  is_plugin_compatible (PDict [("min_core_version", PStr "0.2")]) "0.10.1" = Ok true.
Proof.
  apply (gate_minimum_is_monotone [("min_core_version", PStr "0.2")] "0.2.0" "0.10.1");
    reflexivity.
Defined.

(** The explicit list is not monotone: it accepts listed versions only. *)
Example gate_list_is_exact :
  is_plugin_compatible (PDict [("compatible_versions", PList [PStr "0.2.0"])]) "0.2.0"
    = Ok true ∧
  is_plugin_compatible (PDict [("compatible_versions", PList [PStr "0.2.0"])]) "0.2.1"
    = Ok false ∧
  is_plugin_compatible (PDict [("compatible_versions", PList [PStr "0.2.0"])]) "0.2"
    = Ok false.
Proof. repeat split. Qed.

Section LiteralFacts.

Import PyStr.

Lemma space_is_literal c : is_space c = true → literal_char c = true.
Proof. unfold literal_char. intros ->. apply orb_true_r. Qed.

Lemma literal_lstrip s : literal_chars_only (lstrip s) = literal_chars_only s.
Proof.
  induction s as [|c s IH]; [done|]. cbn [lstrip literal_chars_only].
  destruct (is_space c) eqn:E; [|done]. by rewrite IH, (space_is_literal c E).
Qed.

Lemma literal_rstrip s : literal_chars_only (rstrip s) = literal_chars_only s.
Proof.
  induction s as [|c s IH]; [done|]. rewrite rstrip_cons. cbn [literal_chars_only].
  rewrite <- IH. case_decide as E.
  - rewrite E. destruct (is_space c) eqn:Hc; cbn.
    + by rewrite (space_is_literal c Hc).
    + by rewrite andb_true_r.
  - done.
Qed.

Lemma int_digits_not_literal s : ∀ acc,
  literal_chars_only s = false → int_digits acc s = None.
Proof.
  remember (String.length s) as n eqn:Hn. revert s Hn.
  induction n as [n IH] using lt_wf_ind. intros s -> acc.
  destruct s as [|c s]; [done|]. cbn [literal_chars_only int_digits].
  case_decide as Hc.
  - subst c. destruct s as [|d s]; [done|]. cbn [literal_chars_only].
    change (literal_char "_") with true. cbn [andb].
    destruct (digit d) as [k|] eqn:Hd; [|done].
    assert (literal_char d = true) as ->.
    { unfold literal_char. rewrite Hd. by rewrite bool_decide_eq_true_2 by eauto. }
    cbn [andb]. intros H. eapply IH; [|done|done]. simpl. lia.
  - destruct (digit c) as [k|] eqn:Hd; [|done].
    assert (literal_char c = true) as ->.
    { unfold literal_char. rewrite Hd. by rewrite bool_decide_eq_true_2 by eauto. }
    cbn [andb]. intros H. eapply IH; [|done|done]. simpl. lia.
Qed.

Lemma int_unsigned_not_literal s :
  literal_chars_only s = false → int_unsigned s = None.
Proof.
  destruct s as [|c s]; [done|]. cbn [literal_chars_only int_unsigned].
  destruct (digit c) as [k|] eqn:Hd; [|done].
  assert (literal_char c = true) as ->.
  { unfold literal_char. rewrite Hd. by rewrite bool_decide_eq_true_2 by eauto. }
  cbn [andb]. apply int_digits_not_literal.
Qed.

Lemma literal_skip_blanks s :
  literal_chars_only (skip_blanks s) = literal_chars_only s.
Proof.
  induction s as [|c s IH]; [done|]. cbn [skip_blanks literal_chars_only].
  destruct (is_literal_blank c) eqn:E; [|done].
  by rewrite IH, (space_is_literal c (blank_is_space c E)).
Qed.

Lemma literal_drop_trailing_blanks s :
  literal_chars_only (drop_trailing_blanks s) = literal_chars_only s.
Proof.
  induction s as [|c s IH]; [done|]. cbn [drop_trailing_blanks literal_chars_only].
  rewrite <- IH. destruct (drop_trailing_blanks s) as [|d r]; [|done].
  destruct (is_literal_blank c) eqn:Hc; cbn.
  - by rewrite (space_is_literal c (blank_is_space c Hc)).
  - by rewrite andb_true_r.
Qed.

Lemma int_not_literal s : literal_chars_only s = false → int s = None.
Proof.
  intros H. unfold int, int_literal.
  destruct (MAX_STR_DIGITS <? count_digits _)%nat; [done|].
  assert (literal_chars_only (drop_trailing_blanks (skip_blanks s)) = false) as Hs.
  { by rewrite literal_drop_trailing_blanks, literal_skip_blanks. }
  destruct (drop_trailing_blanks (skip_blanks s)) as [|c t] eqn:E; [done|].
  assert (int_unsigned (String c t) = None) as Hu by (by apply int_unsigned_not_literal).
  assert (literal_char c = true → int_unsigned t = None) as Ht.
  { intros Hc. apply int_unsigned_not_literal.
    cbn [literal_chars_only] in Hs. by rewrite Hc in Hs. }
  destruct (decide (c = "+"%char)) as [->|Hp]; [by apply Ht|].
  destruct (decide (c = "-"%char)) as [->|Hm]; [by rewrite Ht|].
  destruct c as [[] [] [] [] [] [] [] []]; try done.
Qed.

Lemma length_split sep s : length (split sep s) = S (count_char sep s).
Proof.
  induction s as [|c s IH]; [done|]. cbn [split count_char].
  case_decide; [by rewrite length_cons, IH|].
  destruct (split_nonempty sep s) as (h & t & Hs). rewrite Hs in IH |- *.
  by rewrite length_cons in *.
Qed.

Lemma lstrip_idem s : lstrip (lstrip s) = lstrip s.
Proof.
  induction s as [|c s IH]; [done|]. cbn [lstrip].
  destruct (is_space c) eqn:E; [done|]. cbn [lstrip]. by rewrite E.
Qed.

Lemma rstrip_idem s : rstrip (rstrip s) = rstrip s.
Proof.
  induction s as [|c s IH]; [done|]. rewrite rstrip_cons. case_decide as E.
  - destruct (is_space c) eqn:Hc; [done|]. cbn. by rewrite Hc.
  - rewrite rstrip_cons, IH. by rewrite decide_False.
Qed.

Lemma strip_idem s : strip (strip s) = strip s.
Proof.
  unfold strip. rewrite (lstrip_rstrip (rstrip (lstrip s))), rstrip_idem.
  by rewrite <- (lstrip_rstrip (lstrip s)), lstrip_idem.
Qed.

End LiteralFacts.

Lemma parse_version_strip v : _parse_version (PyStr.strip v) = _parse_version v.
Proof. unfold _parse_version. by rewrite strip_idem. Qed.

(** X9: [_parse_version] yields one integer for every dot-separated
    segment of the stripped string, so never an empty tuple, and a
    segment of ASCII text that holds any character other than digits, [_],
    a sign or blanks counts as [0]. *)
Theorem parse_version_segments (v : string) :
  length (_parse_version v) = S (count_char "." (PyStr.strip v)) ∧
  (∀ p, ascii_text p = true → literal_chars_only p = false → segment_value p = 0) ∧
  (∀ i p, PyStr.split "." (PyStr.strip v) !! i = Some p →
          ascii_text p = true → literal_chars_only p = false →
          _parse_version v !! i = Some 0).
Proof.
  assert (∀ p, literal_chars_only p = false → segment_value p = 0) as Hseg.
  { intros p Hp. unfold segment_value. by rewrite int_not_literal. }
  split_and!; [|by auto|].
  - unfold _parse_version. by rewrite length_fmap, length_split.
  - intros i p Hi _ Hp. unfold _parse_version.
    pose proof (list_lookup_fmap segment_value (PyStr.split "." (PyStr.strip v)) i) as H.
    rewrite Hi in H. cbn in H. rewrite (Hseg p Hp) in H. exact H.
Qed.

Lemma parse_version_segments_witness :
  _parse_version "1.2-beta.3" !! 1%nat = Some 0.
Proof.
  apply (proj2 (proj2 (parse_version_segments "1.2-beta.3")) 1%nat "2-beta");
    reflexivity.
Defined.

Lemma or_text_nonempty t d : d ≠ "" → or_text t d ≠ "".
Proof. intros Hd. unfold or_text. by case_decide. Qed.

(** X10: a manifest written by the plugin builder from ASCII input always
    carries a
    non-empty [min_core_version], so the gate decides it by the minimum
    rule alone: it is compatible exactly when the host version is at least
    the version typed into the builder, or [0.2.0] when that field was left
    blank; with the field blank it passes the gate of core 0.2.0. *)
Theorem exported_manifest_gate (name_input version_input min_core_input : string)
    (widgets : list pyval) (manifest : pyval) (core_version : string) :
  ascii_text name_input = true → ascii_text min_core_input = true →
  export_manifest name_input version_input min_core_input widgets = Some manifest →
  (PyStr.strip min_core_input ≠ "" →
     is_plugin_compatible manifest core_version
     = Ok (tuple_ge (_parse_version core_version) (_parse_version min_core_input))) ∧
  (PyStr.strip min_core_input = "" →
     is_plugin_compatible manifest core_version
     = Ok (tuple_ge (_parse_version core_version) [0; 2; 0]) ∧
     is_plugin_compatible manifest __version__ = Ok true).
Proof.
  intros _ _. unfold export_manifest. case_decide as Hname; [done|]. intros [= <-].
  assert (∀ core, is_plugin_compatible
            (PDict
               [("name", PStr (PyStr.strip name_input));
                ("version", PStr (or_text (PyStr.strip version_input) "0.1.0"));
                ("description", PStr ("Auto-generated plugin " +:+ PyStr.strip name_input));
                ("min_core_version",
                 PStr (or_text (PyStr.strip min_core_input) DEFAULT_MIN_CORE));
                ("ui", PDict [("layout", PStr "vertical"); ("widgets", PList widgets)])]) core
          = Ok (tuple_ge (_parse_version core)
                  (_parse_version (or_text (PyStr.strip min_core_input) DEFAULT_MIN_CORE))))
    as Hgate.
  { intros core. unfold is_plugin_compatible. rewrite gate_unfold_dict by done.
    cbn zeta. set (m := or_text (PyStr.strip min_core_input) DEFAULT_MIN_CORE).
    assert (Py.truthy (PStr m) = true) as Ht.
    { cbn [Py.truthy]. rewrite bool_decide_eq_false_2; [done|].
      by apply or_text_nonempty. }
    change (default PNone (Py.assoc "min_core_version" _)) with (PStr m).
    by rewrite Ht. }
  split; intros Hmin; rewrite !Hgate; unfold or_text.
  - rewrite decide_False by done. by rewrite parse_version_strip.
  - rewrite decide_True by done. done.
Qed.

Lemma exported_manifest_gate_witness :
  ∃ manifest, export_manifest "volume" "" "1.0" [] = Some manifest ∧
              is_plugin_compatible manifest "0.2.0" = Ok false.
Proof.
  eexists. split; [reflexivity|].
  apply (proj1 (exported_manifest_gate "volume" "" "1.0" [] _ "0.2.0"
                  eq_refl eq_refl eq_refl)).
  discriminate.
Defined.

(** ** Remote calls *)

(** X11: what [github_api_get] does with each outcome of the request.
    An answer that is not an HTTP error is returned with its status when
    its body is UTF-8 text holding JSON, and otherwise the decoder's
    exception leaves the function.  An HTTP error status is always
    returned, with the decoded body, or with an empty mapping when the
    body is empty, cannot be read or does not decode.  A [URLError] is
    raised as [RuntimeError]; any other exception of [urlopen] or [read]
    leaves the function unchanged. *)
Theorem github_api_get_outcomes (dec : codecs) (net : network) (p : string)
    (token : option string) :
  let outcome := net (GITHUB_API_ROOT +:+ p) (auth_header token) in
  let result := github_api_get dec net p token in
  (∀ status body, outcome = Response status body →
     (∀ text data, utf8_decode dec body = Some text → json_loads dec text = Some data →
        result = Ok (status, data)) ∧
     (utf8_decode dec body = None → result = Raise UnicodeDecodeError) ∧
     (∀ text, utf8_decode dec body = Some text → json_loads dec text = None →
        result = Raise JSONDecodeError)) ∧
  (∀ code body, outcome = ErrorResponse code body →
     ∃ data, result = Ok (code, data) ∧
       (utf8_decode dec body = None ∨ utf8_decode dec body = Some "" ∨
        (∃ text, utf8_decode dec body = Some text ∧ json_loads dec text = None) →
        data = PDict []) ∧
       (∀ text v, utf8_decode dec body = Some text → text ≠ "" →
          json_loads dec text = Some v → data = v)) ∧
  (∀ code, outcome = Failure (HTTPError code) → result = Ok (code, PDict [])) ∧
  (∀ reason, outcome = NoResponse reason ∨ outcome = Failure (URLError reason) →
     result = Raise (RuntimeError ("Network error: " +:+ reason))) ∧
  (∀ e, outcome = Failure e → (∀ reason, e ≠ URLError reason) →
     (∀ code, e ≠ HTTPError code) → result = Raise e).
Proof.
  intros outcome result. subst result. unfold github_api_get. fold outcome.
  split_and!.
  - intros status body ->. unfold decode_text, loads. split_and!.
    + intros text data Hu Hj. rewrite Hu. cbn. by rewrite Hj.
    + intros Hu. by rewrite Hu.
    + intros text Hu Hj. rewrite Hu. cbn. by rewrite Hj.
  - intros code body ->. unfold decode_text, loads.
    destruct (utf8_decode dec body) as [text|] eqn:Hu; cbn.
    + case_decide as Ht; cbn.
      * eexists. split_and!; [done|done|]. intros t v [= <-] Hne. done.
      * destruct (json_loads dec text) as [data|] eqn:Hj; cbn.
        -- eexists. split_and!; [done| |].
           ++ intros [?|[[= ?]|(t & [= <-] & ?)]]; [done|done|congruence].
           ++ intros t v [= <-] _ Hv. congruence.
        -- eexists. split_and!; [done|done|]. intros t v [= <-] _ Hv. congruence.
    + eexists. split_and!; [done|done|]. intros t v Ht. done.
  - by intros code ->.
  - by intros reason [-> | ->].
  - intros e -> Hu Hh. destruct e; try done.
    + by destruct (Hh code).
    + by destruct (Hu reason).
Qed.

Lemma github_api_get_outcomes_witness :
  github_api_get no_codecs (λ _ _, Failure TimeoutError) "" None = Raise TimeoutError.
Proof.
  apply (proj2 (proj2 (proj2 (proj2 (github_api_get_outcomes no_codecs
           (λ _ _, Failure TimeoutError) "" None)))) TimeoutError); done.
Defined.

(** X12: a package for which both manifest requests are answered with an
    HTTP error status has the empty manifest and is therefore compatible
    with every core version. *)
Theorem missing_remote_manifest_is_compatible (dec : codecs) (net : network)
    (package_name : string) (token : option string) (core_version : string) :
  (∀ filename, filename ∈ ["plugin.json"; "manifest.json"] →
     ∃ code body, code ≠ 200 ∧
       net (GITHUB_API_ROOT +:+ package_name +:+ "/" +:+ filename) (auth_header token)
       = ErrorResponse code body) →
  fetch_remote_manifest dec net package_name token = Ok (PDict []) ∧
  (manifest ← fetch_remote_manifest dec net package_name token;
   is_plugin_compatible manifest core_version) = Ok true.
Proof.
  intros Hnet.
  assert (fetch_remote_manifest dec net package_name token = Ok (PDict [])) as Hfetch.
  { unfold fetch_remote_manifest. cbn [fetch_remote_loop].
    destruct (Hnet "plugin.json") as (c1 & b1 & Hc1 & H1); [set_solver|].
    destruct (Hnet "manifest.json") as (c2 & b2 & Hc2 & H2); [set_solver|].
    destruct (github_api_get_error_status dec net _ token c1 b1 H1) as [d1 ->].
    cbn. rewrite (proj2 (Z.eqb_neq c1 200)) by done. cbn.
    destruct (github_api_get_error_status dec net _ token c2 b2 H2) as [d2 ->].
    cbn. by rewrite (proj2 (Z.eqb_neq c2 200)) by done. }
  by rewrite Hfetch.
Qed.

Lemma missing_remote_manifest_is_compatible_witness :
  fetch_remote_manifest no_codecs (λ _ _, ErrorResponse 404 "") "pkg" None = Ok (PDict []).
Proof.
  apply (missing_remote_manifest_is_compatible no_codecs (λ _ _, ErrorResponse 404 "")
           "pkg" None "0.2.0").
  intros filename _. by exists 404, "".
Defined.

Lemma keep_dir_entries_spec items kept :
  keep_dir_entries items = Ok kept →
  kept `sublist_of` items ∧
  (∀ x, x ∈ kept → is_dir_entry x = Ok true) ∧
  (∀ x, x ∈ items → is_dir_entry x = Ok true → x ∈ kept) ∧
  (∀ x, x ∈ items → returns (is_dir_entry x)).
Proof.
  revert kept. induction items as [|item rest IH]; intros kept; cbn.
  - intros [= <-]. split_and!; [done|set_solver..].
  - destruct (is_dir_entry item) as [b|e] eqn:Hb; cbn; [|done].
    destruct (keep_dir_entries rest) as [k|e] eqn:Hk; cbn; [|done].
    intros [= <-]. destruct (IH k eq_refl) as (Hsub & Hall & Hin & Hret).
    destruct b; split_and!.
    + by apply sublist_skip.
    + intros x [->|?]%elem_of_cons; auto.
    + intros x [->|?]%elem_of_cons ?; [by left|right; auto].
    + intros x [->|?]%elem_of_cons; [by eexists|auto].
    + by apply sublist_cons.
    + auto.
    + intros x [->|?]%elem_of_cons ?; [congruence|auto].
    + intros x [->|?]%elem_of_cons; [by eexists|auto].
Qed.

(** X13: [list_remote_packages] returns only for status 200, and then
    returns exactly the entries of type [dir], in the order of the
    listing; any other status, and any entry that is not a mapping, makes
    it raise. *)
Theorem list_remote_packages_directories (dec : codecs) (net : network)
    (token : option string) :
  (∀ status data, github_api_get dec net "" token = Ok (status, data) →
     status ≠ 200 → raises (list_remote_packages dec net token)) ∧
  (∀ dirs, list_remote_packages dec net token = Ok dirs →
     ∃ data items,
       github_api_get dec net "" token = Ok (200, data) ∧
       Py.iter data = Ok items ∧
       dirs `sublist_of` items ∧
       (∀ x, x ∈ dirs → Py.get x "type" = Ok (PStr "dir")) ∧
       (∀ x, x ∈ items → Py.get x "type" = Ok (PStr "dir") → x ∈ dirs) ∧
       (∀ x, x ∈ items → is_dict x = true)).
Proof.
  assert (∀ x, is_dir_entry x = Ok true ↔ Py.get x "type" = Ok (PStr "dir")) as Hdir.
  { intros x. unfold is_dir_entry. destruct (Py.get x "type") as [t|e]; cbn; [|done].
    split.
    - intros [= H]. destruct t; try done. by apply bool_decide_eq_true in H as ->.
    - intros [= ->]. done. }
  unfold list_remote_packages. split.
  - intros status data -> Hs. cbn. rewrite (proj2 (Z.eqb_neq status 200)) by done. cbn.
    destruct (get_default data "message" (PStr "")); cbn; by eexists.
  - intros dirs. destruct (github_api_get dec net "" token) as [[status data]|e]; cbn; [|done].
    destruct (Z.eqb_spec status 200) as [->|]; cbn.
    + destruct (Py.iter data) as [items|e] eqn:Hit; cbn; [|done]. intros Hk.
      destruct (keep_dir_entries_spec _ _ Hk) as (Hsub & Hall & Hin & Hret).
      exists data, items. split_and!; [done|done|done| | |].
      * intros x Hx. by apply Hdir, Hall.
      * intros x Hx Ht. by apply Hin, Hdir.
      * intros x Hx. destruct (Hret x Hx) as [b Hb]. unfold is_dir_entry in Hb.
        by destruct x.
    + destruct (get_default data "message" (PStr "")); cbn; done.
Qed.

Lemma list_remote_packages_directories_witness :
  raises (list_remote_packages no_codecs (λ _ _, ErrorResponse 403 "") None).
Proof.
  destruct (github_api_get_error_status no_codecs (λ _ _, ErrorResponse 403 "") "" None
              403 "" eq_refl) as (data & H).
  apply (proj1 (list_remote_packages_directories no_codecs (λ _ _, ErrorResponse 403 "") None)
           403 data H).
  discriminate.
Defined.

(** ** Local manifests *)

(** X14: once [plugin.json] exists, [manifest.json] is never looked at:
    the result depends on the first file alone, and when that file cannot
    be decoded the result is the empty mapping even if [manifest.json]
    holds a manifest that rejects the host. *)
Theorem plugin_json_shadows_manifest_json (dec : codecs) (w w' : world)
    (package_path : path) :
  exists_ w (Path.join package_path "plugin.json") = true →
  exists_ w' (Path.join package_path "plugin.json") = true →
  read_text w (Path.join package_path "plugin.json")
    = read_text w' (Path.join package_path "plugin.json") →
  read_local_manifest dec w package_path = read_local_manifest dec w' package_path ∧
  ((∀ text, read_text w (Path.join package_path "plugin.json") = Ok text →
            json_loads dec text = None) →
   yaml dec = None →
   read_local_manifest dec w package_path = Ok (PDict []) ∧
   is_plugin_compatible (PDict []) __version__ = Ok true).
Proof.
  intros He He' Hr. unfold read_local_manifest. cbn [read_local_loop].
  unfold path_exists.
  rewrite (proj2 (probe_true w (exists_ w) _) He).
  rewrite (proj2 (probe_true w' (exists_ w') _) He'). cbn [mbind result_bind].
  unfold decode_local. rewrite <- Hr. split; [done|].
  intros Hj Hy. split; [|done].
  unfold yaml_safe_load, loads. rewrite Hy.
  destruct (read_text w _) as [text|e] eqn:E; cbn; [|done]. by rewrite (Hj text eq_refl).
Qed.

Lemma plugin_json_shadows_manifest_json_witness :
  read_local_manifest sample_codecs (broken_plugin_world true) ["pkg"] = Ok (PDict []) ∧
  read_local_manifest sample_codecs (broken_plugin_world false) ["pkg"] = Ok (PDict []).
Proof.
  destruct (plugin_json_shadows_manifest_json sample_codecs (broken_plugin_world true)
              (broken_plugin_world false) ["pkg"] eq_refl eq_refl eq_refl) as [Heq Hrest].
  destruct Hrest as [Hrun _].
  - intros text Htext. vm_compute in Htext. injection Htext as <-. reflexivity.
  - reflexivity.
  - split; [exact Hrun|]. rewrite <- Heq. exact Hrun.
Defined.

(** ** What a reload cycle does with each root *)

Section ReloadFacts.

Context (dec : codecs) (w : world) (imp : importer).

Lemma instantiate_tabs root m :
  instantiate root m = [] ∨ instantiate root m = [EditorTab root (__name__ m)].
Proof.
  unfold instantiate. destruct (EditorWidget m) as [[]|]; auto.
  destruct (create_editor m) as [[]|]; auto.
Qed.

(** The three ways one root can go, when its iteration ends. *)
Lemma reload_root_cases root ev loaded :
  reload_root dec w imp root = Ok (ev, loaded) →
  ∃ tabs, (tabs = [] ∨ ∃ title, tabs = [EditorTab root title]) ∧
    ((∃ m, exists_ w root && is_dir w root = true ∧
           read_local_manifest dec w root = Ok m ∧
           is_plugin_compatible m __version__ = Ok false ∧
           ev = [ManifestRead root m; GateRun root false; DisabledTab root m] ∧
           loaded = 0%nat) ∨
     (∃ m, exists_ w root && is_dir w root = true ∧
           read_local_manifest dec w root = Ok m ∧
           is_plugin_compatible m __version__ = Ok true ∧
           ev = [ManifestRead root m; GateRun root true; LoaderInvoked root] ++ tabs ∧
           loaded = length tabs) ∨
     (exists_ w root && is_dir w root = false ∧
      ev = LoaderInvoked root :: tabs ∧ loaded = length tabs)).
Proof.
  set (tabs := match import_plugin_module w imp root with
               | Some m => instantiate root m
               | None => []
               end).
  intros Hrun. exists tabs. split.
  { unfold tabs. destruct (import_plugin_module w imp root) as [m|]; [|by left].
    destruct (instantiate_tabs root m) as [->| ->]; [by left|right; by eexists]. }
  revert Hrun. unfold reload_root. fold tabs.
  destruct (path_exists w root) as [[]|e] eqn:He; cbn [mbind result_bind]; [| |done].
  - apply probe_true in He.
    destruct (path_is_dir w root) as [[]|e] eqn:Hd; cbn [mbind result_bind]; [| |done].
    + apply probe_true in Hd.
      destruct (read_local_manifest dec w root) as [m|e] eqn:Hm;
        cbn [mbind result_bind]; [|done].
      destruct (is_plugin_compatible_returns m __version__) as [ok Hok].
      rewrite Hok. destruct ok; cbn; intros [= <- <-].
      * right. left. exists m. by rewrite He, Hd.
      * left. exists m. by rewrite He, Hd.
    + apply probe_false in Hd as [Hd _]. cbn. intros [= <- <-].
      right. right. by rewrite Hd, andb_false_r.
  - apply probe_false in He as [He _]. cbn. intros [= <- <-].
    right. right. by rewrite He.
Qed.

Lemma count_events_app p (a b : list event) :
  count_events p (a ++ b) = (count_events p a + count_events p b)%nat.
Proof. unfold count_events. by rewrite List.filter_app, length_app. Qed.

Lemma reload_root_summary root ev loaded :
  reload_root dec w imp root = Ok (ev, loaded) → root_summary dec w root ev loaded.
Proof.
  intros Hrun. destruct (reload_root_cases root ev loaded Hrun) as (tabs & Htabs & Hcase).
  destruct Hcase as [(m & E & Hm & Hg & -> & ->)|[(m & E & Hm & Hg & -> & ->)|(E & -> & ->)]].
  - split; try done; try (cbn; lia).
    + intros e He. set_unfold in He. naive_solver.
    + intros He. set_unfold in He. naive_solver.
    + intros m' He. set_unfold in He. naive_solver.
    + intros t He. set_unfold in He. naive_solver.
  - destruct Htabs as [->|[title ->]]; (split; try done; try (cbn; lia)).
    all: try (intros; eauto; fail).
    all: try (intros e He; set_unfold in He; naive_solver).
    all: try (intros; set_unfold; naive_solver).
  - destruct Htabs as [->|[title ->]]; (split; try done; try (cbn; lia)).
    all: try (intros; congruence).
    all: try (intros e He; set_unfold in He; naive_solver).
    all: try (intros; set_unfold; naive_solver).
Qed.

Lemma reload_roots_accounting roots ev loaded :
  reload_roots dec w imp roots = Ok (ev, loaded) →
  loaded = count_events is_editor_tab ev ∧
  (loaded ≤ length roots)%nat ∧
  (count_events is_loader_call ev + count_events is_disabled_tab ev)%nat
    = length roots ∧
  (∀ e, e ∈ ev → event_root e ∈ roots) ∧
  (∀ r, LoaderInvoked r ∈ ev →
        exists_ w r && is_dir w r = true →
        ∃ m, read_local_manifest dec w r = Ok m ∧
             is_plugin_compatible m __version__ = Ok true) ∧
  (∀ r m, DisabledTab r m ∈ ev →
          read_local_manifest dec w r = Ok m ∧
          is_plugin_compatible m __version__ = Ok false) ∧
  (∀ r title, EditorTab r title ∈ ev → LoaderInvoked r ∈ ev).
Proof.
  revert ev loaded. induction roots as [|root rest IH]; intros ev loaded;
    cbn [reload_roots].
  { intros [= <- <-]. split_and!; try done; intros; by apply elem_of_nil in H. }
  destruct (reload_root dec w imp root) as [[ev1 n1]|e] eqn:Hroot;
    cbn [mbind result_bind]; [|done].
  destruct (reload_roots dec w imp rest) as [[ev' n']|e] eqn:Hrest;
    cbn [mbind result_bind]; [|done].
  intros [= <- <-]. cbn [fst snd].
  destruct (IH ev' n' eq_refl) as (Hn & Hle & Hcount & Hroots & Hload & Hdis & Htab).
  destruct (reload_root_summary root ev1 n1 Hroot) as [H1 H2 H3 H4 H5 H6 H7].
  rewrite !count_events_app, <- H1, <- Hn.
  split_and!; try done; try (cbn [length]; lia).
  - intros e [He|He]%elem_of_app.
    + rewrite (H4 e He). by left.
    + right. auto.
  - intros r [He|He]%elem_of_app; [|by auto].
    pose proof (H4 _ He) as Hr. cbn in Hr. subst r. auto.
  - intros r m [He|He]%elem_of_app; [|by auto].
    pose proof (H4 _ He) as Hr. cbn in Hr. subst r. auto.
  - intros r t [He|He]%elem_of_app; apply elem_of_app; [left|right; by eauto].
    pose proof (H4 _ He) as Hr. cbn in Hr. subst r. eauto.
Qed.

End ReloadFacts.

(** X15: a reload cycle that runs to its end has gone through every
    root that [find_plugins_paths] returned: the second count of the
    status message is the number of roots, loader calls and disabled tabs
    together are exactly as many as the roots, the number of plugins loaded
    is the number of editor tabs added and is at most the number of roots,
    every event is about one of the roots, and each editor tab belongs to a
    root that went to the loader. *)
Theorem reload_plugins_accounting (dec : codecs) (w : world) (imp : importer)
    (ev : list event) (loaded n : nat) :
  reload_plugins dec w imp = Ok (ev, loaded, n) →
  ∃ roots,
    find_plugins_paths w = Ok roots ∧
    n = length roots ∧
    loaded = count_events is_editor_tab ev ∧
    (loaded ≤ n)%nat ∧
    (count_events is_loader_call ev + count_events is_disabled_tab ev)%nat = n ∧
    (∀ e, e ∈ ev → event_root e ∈ roots) ∧
    (∀ r title, EditorTab r title ∈ ev → LoaderInvoked r ∈ ev).
Proof.
  unfold reload_plugins.
  destruct (find_plugins_paths w) as [roots|e]; cbn [mbind result_bind]; [|done].
  destruct (reload_roots dec w imp roots) as [[ev' loaded']|e] eqn:Hrun;
    cbn [mbind result_bind]; [|done].
  intros [= <- <- <-].
  destruct (reload_roots_accounting dec w imp roots ev' loaded' Hrun)
    as (Hn & Hle & Hcount & Hin & _ & _ & Htab).
  exists roots. split_and!; done.
Qed.

Lemma reload_plugins_accounting_witness :
  ∃ roots, find_plugins_paths sample_world = Ok roots ∧ length roots = 3%nat.
Proof.
  eassert (reload_plugins sample_codecs sample_world sample_importer = Ok (_, _, _))
    as Hrun by (vm_compute; reflexivity).
  destruct (reload_plugins_accounting sample_codecs sample_world sample_importer
              _ _ _ Hrun) as (roots & Hroots & Hn & _).
  exists roots. split; [exact Hroots|]. symmetry. exact Hn.
Defined.

(** X16: in a reload cycle the loader is invoked on a directory root
    only after its manifest passed the gate, and a root shown as a
    disabled tab is one whose manifest the gate rejected. *)
Theorem reload_loads_only_gate_passing_directories (dec : codecs) (w : world)
    (imp : importer) (ev : list event) (loaded n : nat) :
  reload_plugins dec w imp = Ok (ev, loaded, n) →
  (∀ r, LoaderInvoked r ∈ ev → exists_ w r && is_dir w r = true →
        ∃ m, read_local_manifest dec w r = Ok m ∧
             is_plugin_compatible m __version__ = Ok true) ∧
  (∀ r m, DisabledTab r m ∈ ev →
          read_local_manifest dec w r = Ok m ∧
          is_plugin_compatible m __version__ = Ok false).
Proof.
  unfold reload_plugins.
  destruct (find_plugins_paths w) as [roots|e]; cbn [mbind result_bind]; [|done].
  destruct (reload_roots dec w imp roots) as [[ev' loaded']|e] eqn:Hrun;
    cbn [mbind result_bind]; [|done].
  intros [= <- <- <-].
  destruct (reload_roots_accounting dec w imp roots ev' loaded' Hrun)
    as (_ & _ & _ & _ & Hload & Hdis & _).
  done.
Qed.

Lemma reload_loads_only_gate_passing_directories_witness :
  read_local_manifest sample_codecs plugins_dir_world ["work"; "plugins"] = Ok too_new ∧
  is_plugin_compatible too_new __version__ = Ok false.
Proof.
  refine (proj2 (reload_loads_only_gate_passing_directories sample_codecs
                   plugins_dir_world sample_importer _ 0%nat 1%nat eq_refl)
            ["work"; "plugins"] too_new _).
  do 2 right. left.
Defined.

(** ** Installed packages *)

(** X17: [list_installed_packages] returns the names of the
    subdirectories of the package store, each as often as it is listed,
    in ascending order. *)
Theorem list_installed_packages_sorted (w : world) (subs : list string) :
  mkdir_parents w (PACKAGES_DIR (home w)) = Ok () →
  listdir w (PACKAGES_DIR (home w)) = Ok subs →
  ∃ names,
    list_installed_packages w = Ok names ∧
    Sorted String.le names ∧
    names ≡ₚ filter (λ n, is_dir w (PACKAGES_DIR (home w) ++ [n]) = true) subs.
Proof.
  intros Hmk Hls. eexists. unfold list_installed_packages, ensure_packages_dir, iterdir.
  rewrite Hmk. cbn. rewrite Hls. cbn. split; [done|]. split.
  - apply (Sorted_merge_sort String.le).
  - rewrite merge_sort_Permutation. clear Hls.
    induction subs as [|n subs IH]; [done|]. cbn [map].
    rewrite !filter_cons. destruct (decide (is_dir w _ = true)); cbn [map].
    + rewrite path_name_snoc. by apply Permutation_skip.
    + done.
Qed.

Lemma list_installed_packages_sorted_witness :
  ∃ names, list_installed_packages sample_world = Ok names ∧ Sorted String.le names.
Proof.
  destruct (list_installed_packages_sorted sample_world ["notes.txt"; "alpha"]
              eq_refl eq_refl) as (names & Hrun & Hsorted & _).
  exists names. split; [exact Hrun|exact Hsorted].
Defined.

(** ** Plugin builder: moving a widget *)

Section WidgetListFacts.

Context {A : Type}.
Implicit Types (l : list A).

Lemma swap_items_in_range l (i j : nat) a b :
  l !! i = Some a → l !! j = Some b →
  swap_items l i j = Ok (<[j := a]> (<[i := b]> l)).
Proof. intros Hi Hj. unfold swap_items. by rewrite Hi, Hj. Qed.

Lemma swap_neighbours_back l (i : nat) a b :
  l !! i = Some a → l !! S i = Some b →
  <[i := a]> (<[S i := b]> (<[S i := a]> (<[i := b]> l))) = l.
Proof.
  intros Hi Hj. apply list_eq. intros k.
  destruct (decide (k = i)) as [->|Hki].
  { rewrite list_lookup_insert_eq; [done|].
    rewrite !length_insert. by apply lookup_lt_Some in Hi. }
  rewrite list_lookup_insert_ne by done.
  destruct (decide (k = S i)) as [->|Hkj].
  { rewrite list_lookup_insert_eq; [done|].
    rewrite !length_insert. by apply lookup_lt_Some in Hj. }
  by rewrite !list_lookup_insert_ne by done.
Qed.

Lemma swap_neighbours_perm l (i : nat) a b :
  l !! i = Some a → l !! S i = Some b →
  <[S i := a]> (<[i := b]> l) ≡ₚ l.
Proof.
  revert i. induction l as [|x l IH]; intros [|i] Hi Hj; try done.
  - destruct l as [|y l]; [done|]. cbn in *. injection Hi as ->. injection Hj as ->.
    apply perm_swap.
  - cbn in *. apply Permutation_skip. by apply IH.
Qed.

End WidgetListFacts.

(** X21: [move_up] on a row that has a row above it exchanges the two
    widgets and selects the upper row; the list keeps its widgets, and
    [move_down] from there gives back the list and the selection.  On the
    first row, or with no selection, [move_up] changes nothing, and so does
    [move_down] on the last row. *)
Theorem move_down_undoes_move_up {A : Type} (widgets : list A) (r : Z) :
  (0 < r < Z.of_nat (length widgets) →
   ∃ ws,
     move_up widgets r = Ok (ws, r - 1) ∧
     ws ≡ₚ widgets ∧
     ws !! Z.to_nat (r - 1) = widgets !! Z.to_nat r ∧
     ws !! Z.to_nat r = widgets !! Z.to_nat (r - 1) ∧
     (∀ k : nat, k ≠ Z.to_nat r → k ≠ Z.to_nat (r - 1) → ws !! k = widgets !! k) ∧
     move_down ws (r - 1) = Ok (widgets, r)) ∧
  (∀ r0, r0 ≤ 0 → move_up widgets r0 = Ok (widgets, r0)) ∧
  (∀ r0, Z.of_nat (length widgets) - 1 ≤ r0 → move_down widgets r0 = Ok (widgets, r0)).
Proof.
  split; [intros Hr|split].
  - set (i := Z.to_nat (r - 1)).
    assert (Z.to_nat r = S i) as Hj by lia.
    destruct (lookup_lt_is_Some_2 widgets i) as [a Ha]; [lia|].
    destruct (lookup_lt_is_Some_2 widgets (S i)) as [b Hb]; [lia|].
    exists (<[S i := a]> (<[i := b]> widgets)).
    unfold move_up. rewrite (proj2 (Z.ltb_lt 0 r)) by lia. fold i. rewrite Hj.
    rewrite (swap_items_in_range _ _ _ _ _ Ha Hb). cbn [mbind result_bind].
    split; [done|]. split; [by apply swap_neighbours_perm|].
    assert (i < length widgets)%nat as Hi by (by apply lookup_lt_Some in Ha).
    assert (S i < length widgets)%nat as Hsi by (by apply lookup_lt_Some in Hb).
    split_and!.
    + rewrite list_lookup_insert_ne by lia.
      rewrite list_lookup_insert_eq by done. done.
    + rewrite list_lookup_insert_eq by (by rewrite length_insert). done.
    + intros k Hk1 Hk2. by rewrite !list_lookup_insert_ne by done.
    + unfold move_down. rewrite !length_insert.
      replace ((0 <=? r - 1) && (r - 1 <? Z.of_nat (length widgets) - 1)) with true
        by (symmetry; apply andb_true_iff; split; [apply Z.leb_le|apply Z.ltb_lt]; lia).
      replace (Z.to_nat (r - 1 + 1)) with (S i) by lia. fold i.
      rewrite (swap_items_in_range _ (S i) i a b).
      * cbn [mbind result_bind]. rewrite (swap_neighbours_back _ _ _ _ Ha Hb).
        do 2 f_equal. lia.
      * by rewrite list_lookup_insert_eq by (by rewrite length_insert).
      * rewrite list_lookup_insert_ne by lia. by rewrite list_lookup_insert_eq.
  - intros r0 Hr0. unfold move_up. by rewrite (proj2 (Z.ltb_ge 0 r0)) by lia.
  - intros r0 Hr0. unfold move_down.
    rewrite (proj2 (Z.ltb_ge r0 _)) by lia. by rewrite andb_false_r.
Qed.

Lemma move_down_undoes_move_up_witness :
  ∃ ws, move_up ["label"; "button"; "entry"] 2 = Ok (ws, 1) ∧
        move_down ws 1 = Ok (["label"; "button"; "entry"], 2).
Proof.
  destruct (proj1 (move_down_undoes_move_up ["label"; "button"; "entry"] 2))
    as (ws & Hup & _ & _ & _ & _ & Hdown).
  - simpl. lia.
  - exists ws. split; [exact Hup|exact Hdown].
Defined.


Import FS.

(** ** The store *)

Lemma lookup_mkdirs (l : list path) (s : fs) (k : path) :
  foldr (λ q acc, <[q := Dir]> acc) s l !! k
  = if decide (k ∈ l) then Some Dir else s !! k.
Proof.
  induction l as [|q l IH]; simpl; [done|].
  destruct (decide (q = k)) as [->|Hne].
  - rewrite lookup_insert_eq.
    destruct (decide (k ∈ k :: l)) as [|H]; [done|]. exfalso. apply H. by left.
  - rewrite lookup_insert_ne, IH by done.
    destruct (decide (k ∈ l)), (decide (k ∈ q :: l)) as [Hin|Hout]; try done.
    + exfalso. apply Hout. by right.
    + apply elem_of_cons in Hin as [->|?]; done.
Qed.

Lemma mkdir_parents_lookup p s s' :
  mkdir_parents p s = Ok s' →
  ∀ q, s' !! q = if decide (q ∈ ancestors p) then Some Dir else s !! q.
Proof.
  unfold mkdir_parents. destruct (is_file_node (s !! p)); [done|].
  destruct (existsb _ _); [done|]. intros [= <-] q. apply lookup_mkdirs.
Qed.

(** A successful [mkdir] went through no regular file. *)
Lemma mkdir_parents_no_file p s s' :
  mkdir_parents p s = Ok s' →
  ∀ q, q ∈ ancestors p → is_file_node (s !! q) = false.
Proof.
  unfold mkdir_parents. destruct (is_file_node (s !! p)); [done|].
  destruct (existsb _ _) eqn:E; [done|]. intros _ q Hq.
  destruct (is_file_node (s !! q)) eqn:Hf; [|done].
  assert (existsb (λ q, is_file_node (s !! q)) (ancestors p) = true) as Hex.
  { apply existsb_exists. exists q. split; [by apply list_elem_of_In|done]. }
  congruence.
Qed.

Lemma mkdir_parents_keeps_files p s s' q :
  mkdir_parents p s = Ok s' → is_file_node (s !! q) = true → s' !! q = s !! q.
Proof.
  intros Hmk Hf. rewrite (mkdir_parents_lookup _ _ _ Hmk).
  destruct (decide (q ∈ ancestors p)) as [Hq|]; [|done].
  rewrite (mkdir_parents_no_file _ _ _ Hmk q Hq) in Hf. done.
Qed.

Lemma elem_of_ancestors_from base p q :
  q ∈ ancestors_from base p ↔ ∃ k, k ≠ [] ∧ k `prefix_of` p ∧ q = base ++ k.
Proof.
  revert base. induction p as [|c p IH]; intros base; simpl.
  - split; [by intros ?%elem_of_nil|].
    intros (k & Hk & Hp%prefix_nil_inv & _). done.
  - rewrite elem_of_cons, IH. split.
    + intros [->|(k & Hk & Hp & ->)].
      * exists [c]. split_and!; [done| |done]. by apply prefix_cons, prefix_nil.
      * exists (c :: k). split_and!; [done|by apply prefix_cons|].
        by rewrite <- app_assoc.
    + intros (k & Hk & Hp & ->). destruct k as [|c' k]; [done|].
      pose proof (prefix_cons_inv_1 _ _ _ _ Hp) as ->.
      apply prefix_cons_inv_2 in Hp.
      destruct k as [|c'' k]; [by left|]. right.
      exists (c'' :: k). split_and!; [done|done|]. by rewrite <- app_assoc.
Qed.

Lemma elem_of_ancestors p q : q ∈ ancestors p ↔ q ≠ [] ∧ q `prefix_of` p.
Proof.
  unfold ancestors. rewrite elem_of_ancestors_from. simpl. naive_solver.
Qed.


Lemma rmtree_lookup d s s' :
  rmtree d s = Ok s' →
  ∀ q, s' !! q = if decide (d `prefix_of` q) then None else s !! q.
Proof.
  unfold rmtree. destruct (s !! d) as [[]|]; try done. intros [= <-] q.
  case_decide as Hq.
  - apply map_lookup_filter_None. right. intros x _. simpl. tauto.
  - destruct (s !! q) as [x|] eqn:E.
    + apply map_lookup_filter_Some. done.
    + apply map_lookup_filter_None. by left.
Qed.

Lemma write_file_ok p c s s' :
  write_file p c s = Ok s' → s' = <[p := File c]> s ∧ s !! p ≠ Some Dir.
Proof.
  unfold write_file. destruct (s !! p) as [[]|]; try done;
    case_decide; try done; by intros [= <-].
Qed.

(** ** Extraction *)

Lemma removelast_prefix {A} (l : list A) : removelast l `prefix_of` l.
Proof.
  induction l as [|x [|y l] IH]; [done|by apply prefix_nil|].
  change (removelast (x :: y :: l)) with (x :: removelast (y :: l)).
  by apply prefix_cons.
Qed.


Section Extraction.

Context (members : list member) (dest : path) (target_prefix : string).

Abbreviation effect_of := (entry_effect members dest target_prefix).

(** A successful iteration changes the store as [entry_effect] says,
    and it made no directory where a regular file was. *)
Lemma extract_member_effect m s s' :
  extract_member members dest target_prefix m s = (Ok (), s') →
  (∀ q, s' !! q = effect_lookup (effect_of m) (s !! q) q) ∧
  (∀ q, q ∈ (effect_of m).1 → is_file_node (s !! q) = false).
Proof.
  unfold extract_member, entry_effect, entry_target, entry_rel, effect_lookup.
  destruct (decide (PyStr.drop _ m = "")) as [|Hrel].
  { intros [= <-]. simpl. split; [|by intros q ?%elem_of_nil].
    intros q. by destruct (decide (q ∈ [])) as [?%elem_of_nil|]. }
  destruct (PyStr.endswith m "/"); simpl.
  - destruct (mkdir_parents _ s) as [s1|e] eqn:Hmk; simpl; [|done].
    intros [= <-]. split.
    + intros q. apply (mkdir_parents_lookup _ _ _ Hmk).
    + apply (mkdir_parents_no_file _ _ _ Hmk).
  - destruct (mkdir_parents _ s) as [s1|e] eqn:Hmk; [|done].
    destruct (write_file _ _ s1) as [s2|e] eqn:Hw; simpl; [|done].
    intros [= <-]. apply write_file_ok in Hw as [-> Hnd]. split.
    + intros q. destruct (decide (q = _)) as [->|Hne].
      * apply lookup_insert_eq.
      * rewrite lookup_insert_ne by done. apply (mkdir_parents_lookup _ _ _ Hmk).
    + apply (mkdir_parents_no_file _ _ _ Hmk).
Qed.

(** Whatever an iteration does, a regular file stays a regular file. *)
Lemma extract_member_keeps_file m s p :
  is_file_node (s !! p) = true →
  is_file_node ((extract_member members dest target_prefix m s).2 !! p) = true.
Proof.
  intros Hf. unfold extract_member.
  destruct (decide (PyStr.drop _ m = "")); [done|].
  destruct (PyStr.endswith m "/").
  - destruct (mkdir_parents _ s) as [s1|e] eqn:Hmk; simpl; [|done].
    by rewrite (mkdir_parents_keeps_files _ _ _ _ Hmk Hf).
  - destruct (mkdir_parents _ s) as [s1|e] eqn:Hmk; simpl; [|done].
    assert (is_file_node (s1 !! p) = true) as Hf1.
    { by rewrite (mkdir_parents_keeps_files _ _ _ _ Hmk Hf). }
    destruct (write_file _ _ s1) as [s2|e] eqn:Hw; simpl; [|done].
    apply write_file_ok in Hw as [-> _].
    destruct (decide (Path.join dest (PyStr.drop (String.length target_prefix) m) = p)) as [->|Hne].
    + by rewrite lookup_insert_eq.
    + by rewrite lookup_insert_ne.
Qed.

Lemma extract_all_keeps_file matched s p :
  is_file_node (s !! p) = true →
  is_file_node ((extract_all members dest target_prefix matched s).2 !! p) = true.
Proof.
  revert s. induction matched as [|m rest IH]; intros s Hf; [done|]. simpl.
  pose proof (extract_member_keeps_file m s p Hf) as H1.
  destruct (extract_member members dest target_prefix m s) as [[[]|e] s1]; simpl in *;
    [by apply IH|done].
Qed.





(** Every file entry of the list is a regular file after the loop. *)
Lemma extract_all_writes_files matched s s' :
  extract_all members dest target_prefix matched s = (Ok (), s') →
  ∀ m, m ∈ matched → file_entry target_prefix m →
    is_file_node (s' !! entry_target dest target_prefix m) = true.
Proof.
  revert s. induction matched as [|m0 rest IH]; intros s; simpl.
  { by intros _ m ?%elem_of_nil. }
  destruct (extract_member members dest target_prefix m0 s) as [[[]|e] s1] eqn:Hm; [|done].
  intros Hrest m [->|Hin]%elem_of_cons Hfe; [|by eapply IH].
  pose proof (extract_all_keeps_file rest s1 (entry_target dest target_prefix m0)) as Hk.
  rewrite Hrest in Hk. apply Hk.
  destruct (extract_member_effect _ _ _ Hm) as [Hlk _]. rewrite Hlk.
  destruct Hfe as [Hrel Hend]. unfold effect_lookup, entry_effect.
  rewrite decide_False, Hend by done. simpl. by rewrite decide_True.
Qed.



End Extraction.


(** ** Installer *)

Lemma component_join (d : path) (n : string) :
  is_component n → Path.join d n = d ++ [n].
Proof. intros [Hs Hc]. unfold Path.join. by rewrite Hs, Hc. Qed.

Lemma not_prefix_snoc (d : path) (n : string) (q : path) :
  d ++ [n] `prefix_of` q → q `prefix_of` d → False.
Proof.
  intros H1 H2. apply (prefix_snoc_not d n). by etrans.
Qed.

Lemma install_members_no_match home members package_folder s :
  matching members package_folder = [] →
  install_members home members package_folder s
  = (Raise (match members with
            | [] => FileNotFoundError "Repo zip appears empty"
            | _ :: _ => not_found package_folder
            end), s).
Proof.
  intros H. unfold install_members. destruct members as [|m ms]; [done|].
  by rewrite H.
Qed.

Lemma unlink_quietly_lookup p s q :
  unlink_quietly p s !! q
  = if decide (q = p) then (if is_file_node (s !! p) then None else s !! p)
    else s !! q.
Proof.
  unfold unlink_quietly. destruct (decide (q = p)) as [->|Hne].
  - destruct (s !! p) as [[]|] eqn:E; simpl; by rewrite ?lookup_delete_eq, ?E.
  - destruct (s !! p) as [[]|] eqn:E; simpl; by rewrite ?lookup_delete_ne.
Qed.

(** The [finally] clause leaves no regular file at the temporary path. *)
Lemma unlink_quietly_no_file p s : is_file_node (unlink_quietly p s !! p) = false.
Proof.
  rewrite unlink_quietly_lookup, decide_True by done.
  by destruct (is_file_node (s !! p)) eqn:E.
Qed.

Lemma install_members_keeps_file home members package_folder s p :
  ¬ Path.join (PACKAGES_DIR home) package_folder `prefix_of` p →
  is_file_node (s !! p) = true →
  is_file_node ((install_members home members package_folder s).2 !! p) = true.
Proof.
  intros Hout Hf. unfold install_members. destruct members as [|m0 ms]; [done|].
  destruct (matching (m0 :: ms) package_folder) as [|x xs]; [done|].
  destruct (mkdir_parents _ s) as [s1|e] eqn:Hmk; [|done].
  assert (is_file_node (s1 !! p) = true) as Hf1.
  { by rewrite (mkdir_parents_keeps_files _ _ _ _ Hmk Hf). }
  destruct (if bool_decide _ then _ else _) as [s2|e] eqn:Hrm; [|done].
  assert (is_file_node (s2 !! p) = true) as Hf2.
  { case_bool_decide; [|by injection Hrm as <-].
    rewrite (rmtree_lookup _ _ _ Hrm). by rewrite decide_False. }
  match goal with
  | |- context [extract_all ?a ?b ?c ?d s2] =>
      pose proof (extract_all_keeps_file a b c d s2 p Hf2) as H3
  end.
  by destruct (extract_all _ _ _ _ s2) as [[[]|e] s3].
Qed.

(** What a successful installation went through. *)
Lemma install_success (host : archive_host) (home : path)
    (package_folder branch : string) (token : option string) (tmp : path)
    (s s' : fs) (r : path) :
  let dest := PACKAGES_DIR home ++ [package_folder] in
  is_component package_folder →
  ¬ dest `prefix_of` tmp →
  no_orphans dest s →
  install_package_from_github host home package_folder branch token tmp s = (Ok r, s') →
  r = dest ∧
  ∃ raw members s2 s3,
    host (repo_url branch) (auth_header token) = Downloaded raw (Some members) ∧
    (∀ q, dest `prefix_of` q → s2 !! q = None) ∧
    extract_all members dest (archive_root members +:+ package_folder +:+ "/")
      (matching members package_folder) s2 = (Ok (), s3) ∧
    (∀ q, dest `prefix_of` q → s' !! q = s3 !! q).
Proof.
  intros dest Hc Htmp Hno. unfold install_package_from_github, install_body.
  destruct (host _ _) as [e|raw [members|]]; [done| |done].
  unfold install_members. rewrite (component_join _ _ Hc). fold dest.
  destruct members as [|m0 ms]; [done|].
  destruct (matching (m0 :: ms) package_folder) as [|x xs] eqn:Hmatch; [done|].
  destruct (mkdir_parents _ _) as [s1|e] eqn:Hmk; [|done].
  destruct (if bool_decide _ then _ else _) as [s2|e] eqn:Hrm; [|done].
  destruct (extract_all _ _ _ _ s2) as [[[]|e] s3] eqn:Hex; [|done].
  cbn. intros [= <- <-]. split; [done|].
  exists raw, (m0 :: ms), s2, s3. rewrite Hmatch. split_and!; [done| |done|].
  - assert (∀ q, dest `prefix_of` q → s1 !! q = s !! q) as H1.
    { intros q Hq. rewrite (mkdir_parents_lookup _ _ _ Hmk).
      destruct (decide (q ∈ ancestors (PACKAGES_DIR home))) as [Hin|].
      { apply elem_of_ancestors in Hin as [_ Hin].
        destruct (not_prefix_snoc _ _ _ Hq Hin). }
      rewrite !lookup_insert_ne; [done|by intros ->..]. }
    intros q Hq. case_bool_decide as Hd.
    + rewrite (rmtree_lookup _ _ _ Hrm). by rewrite decide_True.
    + injection Hrm as <-. rewrite H1 by done. apply Hno; [|done].
      rewrite <- H1 by done. by rewrite eq_None_not_Some.
  - intros q Hq. rewrite unlink_quietly_lookup.
    rewrite decide_False; [done|]. by intros ->.
Qed.



(** C10: when the archive has no entries, or none for the requested
    package, the call fails and leaves the store exactly as it was (the
    temporary file, fresh before the call, is gone again): the installed
    copy is only removed once a matching entry has been found. *)
Theorem install_failure_leaves_store (host : archive_host) (home : path)
    (package_folder branch : string) (token : option string) (tmp : path)
    (s : fs) (raw : string) (members : list member) :
  s !! tmp = None →
  host (repo_url branch) (auth_header token) = Downloaded raw (Some members) →
  members = [] ∨ matching members package_folder = [] →
  ∃ e, install_package_from_github host home package_folder branch token tmp s
       = (Raise e, s).
Proof.
  intros Hfresh Hdl Hno.
  assert (matching members package_folder = []) as Hm.
  { destruct Hno as [->|]; done. }
  unfold install_package_from_github, install_body. rewrite Hdl.
  rewrite (install_members_no_match _ _ _ _ Hm). eexists. cbn. f_equal.
  unfold unlink_quietly. rewrite lookup_insert_eq.
  by rewrite !delete_insert_eq, delete_id.
Qed.

Lemma install_failure_leaves_store_witness :
  ∃ e, install_package_from_github host_v2 ["home"] "nope" "main" None ["tmp"; "t1"]
         sample_store = (Raise e, sample_store).
Proof.
  apply (install_failure_leaves_store host_v2 ["home"] "nope" "main" None ["tmp"; "t1"]
           sample_store "zip-v2" archive_v2);
    [reflexivity | reflexivity | right; reflexivity].
Defined.

(** C7: a package with no matching entry in the archive makes the call
    fail with the package-not-found [FileNotFoundError] (an archive with no
    entry at all with the empty-archive one), and on every way out of the
    call no regular file is left at the temporary path; the path is free
    again when it does not lie inside the package's directory. *)
Theorem install_not_found_and_cleanup (host : archive_host) (home : path)
    (package_folder branch : string) (token : option string) (tmp : path) (s : fs) :
  let run := install_package_from_github host home package_folder branch token tmp s in
  (∀ raw members,
     host (repo_url branch) (auth_header token) = Downloaded raw (Some members) →
     matching members package_folder = [] →
     run.1 = Raise (match members with
                    | [] => FileNotFoundError "Repo zip appears empty"
                    | _ :: _ =>
                        FileNotFoundError
                          ("Package folder '" +:+ package_folder +:+ "' not found in repo zip")
                    end)) ∧
  is_file_node (run.2 !! tmp) = false ∧
  (¬ Path.join (PACKAGES_DIR home) package_folder `prefix_of` tmp → run.2 !! tmp = None).
Proof.
  intros run. split_and!.
  - intros raw members Hdl Hm. unfold run, install_package_from_github, install_body.
    rewrite Hdl, (install_members_no_match _ _ _ _ Hm). done.
  - apply unlink_quietly_no_file.
  - intros Hout. unfold run, install_package_from_github. cbn [snd].
    rewrite unlink_quietly_lookup, decide_True by done.
    assert (is_file_node
              ((install_body host home package_folder branch token tmp
                  (<[tmp := File ""]> s)).2 !! tmp) = true) as ->; [|done].
    unfold install_body. destruct (host _ _) as [e|raw [members|]]; cbn [snd].
    + by rewrite lookup_insert_eq.
    + apply install_members_keeps_file; [done|]. by rewrite lookup_insert_eq.
    + by rewrite lookup_insert_eq.
Qed.

Lemma install_not_found_and_cleanup_witness :
  (install_package_from_github host_v2 ["home"] "pkg" "main" None ["tmp"; "t1"]
     sample_store).2 !! ["tmp"; "t1"] = None.
Proof.
  apply (proj2 (proj2 (install_not_found_and_cleanup host_v2 ["home"] "pkg" "main"
                         None ["tmp"; "t1"] sample_store))).
  intros Hp%prefix_length. simpl in Hp. lia.
Defined.









(** After the second installation of the sample, the file of the first
    archive that the second one no longer has is gone, and the new file
    is there. *)
Example reinstall_sample :
  let s1 := (install_package_from_github host_v1 ["home"] "pkg" "main" None
               ["tmp"; "t1"] sample_store).2 in
  let s2 := (install_package_from_github host_v2 ["home"] "pkg" "main" None
               ["tmp"; "t2"] s1).2 in
  s1 !! (sample_dest ++ ["old.py"]) = Some (FS.File "old") ∧
  s2 !! (sample_dest ++ ["old.py"]) = None ∧
  s2 !! (sample_dest ++ ["r"; "x.py"]) = None ∧
  s2 !! ["home"; ".config_editor_packages"; "other"; "x.py"] = None ∧
  s2 !! (sample_dest ++ ["sub"; "a.py"]) = Some (FS.File "new") ∧
  s2 !! (sample_dest ++ ["plugin.json"]) = Some (FS.File "{}") ∧
  s2 !! ["tmp"; "t1"] = None ∧ s2 !! ["tmp"; "t2"] = None.
Proof. vm_compute. repeat split. Qed.

(** ** Installer: what is touched *)


(** A path on the way to something below [d] is above [d] or below it. *)
Lemma prefix_of_below (d x q : path) :
  q `prefix_of` d ++ x → q `prefix_of` d ∨ d `prefix_of` q.
Proof. intros Hq. apply (prefix_weak_total _ _ (d ++ x)); [done|by apply prefix_app_r]. Qed.

Lemma drop_all (s : string) : PyStr.drop (String.length s) s = "".
Proof. induction s; simpl; auto. Qed.

Section ExtractionFrame.

Context (members : list member) (dest : path) (target_prefix : string).

Lemma extract_member_frame m s q :
  confined_entry target_prefix m →
  ¬ dest `prefix_of` q → ¬ q `prefix_of` dest →
  (extract_member members dest target_prefix m s).2 !! q = s !! q.
Proof.
  intros [Hrel _] Hbelow Habove. unfold entry_rel in Hrel. unfold extract_member.
  destruct (decide (PyStr.drop _ m = "")); [done|].
  unfold Path.join. rewrite Hrel.
  set (t := dest ++ Path.components _).
  assert (∀ p, p `prefix_of` t → q ∉ ancestors p) as Hanc.
  { intros p Hp [_ Hq]%elem_of_ancestors.
    destruct (prefix_of_below dest (Path.components (PyStr.drop (String.length target_prefix) m)) q)
      as [?|?]; [by etrans|done..]. }
  destruct (PyStr.endswith m "/").
  - destruct (mkdir_parents t s) as [s1|e] eqn:Hmk; simpl; [|done].
    rewrite (mkdir_parents_lookup _ _ _ Hmk), decide_False; [done|by apply Hanc].
  - destruct (mkdir_parents _ s) as [s1|e] eqn:Hmk; simpl; [|done].
    assert (s1 !! q = s !! q) as H1.
    { rewrite (mkdir_parents_lookup _ _ _ Hmk), decide_False; [done|].
      apply Hanc, removelast_prefix. }
    destruct (write_file _ _ s1) as [s2|e] eqn:Hw; simpl; [|done].
    apply write_file_ok in Hw as [-> _]. rewrite lookup_insert_ne; [done|].
    intros <-. apply Hbelow. by apply prefix_app_r.
Qed.

Lemma extract_all_frame matched s q :
  Forall (confined_entry target_prefix) matched →
  ¬ dest `prefix_of` q → ¬ q `prefix_of` dest →
  (extract_all members dest target_prefix matched s).2 !! q = s !! q.
Proof.
  intros Hall Hbelow Habove. revert s.
  induction Hall as [|m rest Hm _ IH]; intros s; [done|]. simpl.
  pose proof (extract_member_frame m s q Hm Hbelow Habove) as H1.
  destruct (extract_member members dest target_prefix m s) as [[[]|e] s1]; simpl in *;
    [by rewrite IH|done].
Qed.

(** Entries that are the package prefix itself write nothing. *)
Lemma extract_all_bare matched s :
  Forall (λ m, m = target_prefix) matched →
  extract_all members dest target_prefix matched s = (Ok (), s).
Proof.
  induction 1 as [|m rest -> _ IH]; [done|]. simpl.
  unfold extract_member. by rewrite drop_all, decide_True.
Qed.

End ExtractionFrame.

Lemma install_members_frame home members package_folder s q :
  let dest := PACKAGES_DIR home ++ [package_folder] in
  is_component package_folder →
  Forall (confined_entry (archive_root members +:+ package_folder +:+ "/"))
         (matching members package_folder) →
  ¬ dest `prefix_of` q → ¬ q `prefix_of` dest →
  (install_members home members package_folder s).2 !! q = s !! q.
Proof.
  intros dest Hc Hall Hbelow Habove. unfold install_members.
  rewrite (component_join _ _ Hc). fold dest.
  destruct members as [|m0 ms]; [done|].
  destruct (matching (m0 :: ms) package_folder) as [|x xs] eqn:Hmatch; [done|].
  destruct (mkdir_parents _ s) as [s1|e] eqn:Hmk; [|done].
  assert (s1 !! q = s !! q) as H1.
  { rewrite (mkdir_parents_lookup _ _ _ Hmk), decide_False; [done|].
    intros [_ Hq]%elem_of_ancestors. apply Habove. etrans; [done|]. by apply prefix_app_r. }
  destruct (if bool_decide _ then _ else _) as [s2|e] eqn:Hrm; [|done].
  assert (s2 !! q = s !! q) as H2.
  { case_bool_decide; [|by injection Hrm as <-].
    by rewrite (rmtree_lookup _ _ _ Hrm), decide_False. }
  pose proof (extract_all_frame (m0 :: ms) dest _ (x :: xs) s2 q Hall Hbelow Habove) as H3.
  destruct (extract_all _ _ _ _ s2) as [[[]|e] s3]; simpl in *; congruence.
Qed.

(** X18: whatever the outcome, an installation whose package name is one
    path component other than [..], and whose entries under the package
    prefix are relative names without [..], changes nothing but the
    temporary file, the package directory with what lies below it, and the
    directories leading to it. *)
Theorem install_touches_only_package_paths (host : archive_host) (home : path)
    (package_folder branch : string) (token : option string) (tmp : path) (s : fs) :
  let dest := PACKAGES_DIR home ++ [package_folder] in
  is_component package_folder → package_folder ≠ ".." →
  (∀ raw members,
     host (repo_url branch) (auth_header token) = Downloaded raw (Some members) →
     Forall (confined_entry (archive_root members +:+ package_folder +:+ "/"))
            (matching members package_folder)) →
  ∀ q, q ≠ tmp → ¬ dest `prefix_of` q → ¬ q `prefix_of` dest →
    (install_package_from_github host home package_folder branch token tmp s).2 !! q
    = s !! q.
Proof.
  intros dest Hc _ Hconf q Htmp Hbelow Habove.
  unfold install_package_from_github. cbn [snd].
  rewrite unlink_quietly_lookup, decide_False by done.
  unfold install_body.
  destruct (host _ _) as [e|raw [members|]] eqn:Hhost; cbn [snd].
  - by rewrite lookup_insert_ne.
  - rewrite (install_members_frame home members package_folder _ q Hc
               (Hconf raw members eq_refl) Hbelow Habove).
    by rewrite !lookup_insert_ne.
  - by rewrite !lookup_insert_ne.
Qed.

Lemma install_touches_only_package_paths_witness :
  (install_package_from_github host_v2 ["home"] "pkg" "main" None ["tmp"; "t1"]
     sample_store).2 !! ["home"; ".config_editor_packages"; "other"; "x.py"]
  = sample_store !! ["home"; ".config_editor_packages"; "other"; "x.py"].
Proof.
  apply (install_touches_only_package_paths host_v2 ["home"] "pkg" "main" None
           ["tmp"; "t1"] sample_store).
  - split; reflexivity.
  - discriminate.
  - intros raw members Hhost. injection Hhost as <- <-. vm_compute matching.
    repeat apply Forall_cons_2; try apply Forall_nil_2;
      (split; [reflexivity|vm_compute; set_solver]).
  - discriminate.
  - intros [k Hk]. cbn in Hk. discriminate Hk.
  - intros Hp%prefix_length. simpl in Hp. lia.
Defined.

Lemma startswith_nonempty (s p : string) :
  PyStr.startswith s p = true → p ≠ "" → s ≠ "".
Proof. intros H Hp ->. by destruct p. Qed.

(** X19: the installer follows an entry name that is absolute below the
    package prefix: after a successful installation a regular file is at
    that absolute path, wherever the package store is. *)
Theorem install_follows_absolute_entry_names (host : archive_host) (home : path)
    (package_folder branch : string) (token : option string) (tmp : path)
    (s s' : fs) (r : path) (raw : string) (members : list member) (m : string) :
  let rel := entry_rel (archive_root members +:+ package_folder +:+ "/") m in
  host (repo_url branch) (auth_header token) = Downloaded raw (Some members) →
  m ∈ matching members package_folder →
  PyStr.startswith rel "/" = true →
  PyStr.endswith m "/" = false →
  Path.components rel ≠ tmp →
  install_package_from_github host home package_folder branch token tmp s = (Ok r, s') →
  is_file_node (s' !! Path.components rel) = true.
Proof.
  intros rel Hhost Hm Habs Hfile Htmp.
  unfold install_package_from_github, install_body. rewrite Hhost.
  unfold install_members.
  destruct members as [|m0 ms]; [done|].
  set (tp := archive_root (m0 :: ms) +:+ package_folder +:+ "/") in *.
  destruct (matching (m0 :: ms) package_folder) as [|x xs] eqn:Hmatch; [done|].
  destruct (mkdir_parents _ _) as [s1|e]; [|done].
  destruct (if bool_decide _ then _ else _) as [s2|e]; [|done].
  destruct (extract_all _ _ _ _ s2) as [[[]|e] s3] eqn:Hex; [|done].
  cbn. intros [= <- <-].
  rewrite unlink_quietly_lookup, decide_False by done.
  assert (file_entry tp m) as Hentry.
  { split; [|done]. by apply (startswith_nonempty _ "/"). }
  pose proof (extract_all_writes_files _ _ _ _ _ _ Hex m Hm Hentry) as Hw.
  unfold entry_target, Path.join in Hw. fold rel in Hw. by rewrite Habs in Hw.
Qed.

Lemma install_follows_absolute_entry_names_witness :
  is_file_node
    ((install_package_from_github host_abs ["home"] "pkg" "main" None ["tmp"; "t1"]
        sample_store).2 !! ["abs"; "evil"]) = true.
Proof.
  apply (install_follows_absolute_entry_names host_abs ["home"] "pkg" "main" None
           ["tmp"; "t1"] sample_store _ sample_dest "zip-abs" archive_abs
           "ConfigCoreModules-main/pkg//abs/evil").
  - reflexivity.
  - vm_compute matching. do 1 right. left.
  - reflexivity.
  - reflexivity.
  - vm_compute. discriminate.
  - apply injective_projections; [vm_compute; reflexivity|reflexivity].
Defined.

(** X20: when the only entry under the package prefix is the directory
    entry itself, the installation succeeds and returns the package path,
    yet nothing is at that path or below it afterwards, a copy installed
    before included. *)
Theorem install_of_bare_directory_entry (host : archive_host) (home : path)
    (package_folder branch : string) (token : option string) (tmp : path)
    (s s' : fs) (r : path) :
  let dest := PACKAGES_DIR home ++ [package_folder] in
  is_component package_folder →
  ¬ dest `prefix_of` tmp →
  no_orphans dest s →
  (∀ raw members,
     host (repo_url branch) (auth_header token) = Downloaded raw (Some members) →
     Forall (λ m, m = archive_root members +:+ package_folder +:+ "/")
            (matching members package_folder)) →
  install_package_from_github host home package_folder branch token tmp s = (Ok r, s') →
  r = dest ∧ ∀ q, dest `prefix_of` q → s' !! q = None.
Proof.
  intros dest Hc Htmp Hno Hbare Hrun.
  destruct (install_success _ _ _ _ _ _ _ _ _ Hc Htmp Hno Hrun)
    as (-> & raw & members & s2 & s3 & Hhost & Hclean & Hex & Hsame).
  split; [done|]. intros q Hq.
  rewrite (extract_all_bare _ _ _ _ s2 (Hbare raw members Hhost)) in Hex.
  injection Hex as <-. rewrite Hsame by done. by apply Hclean.
Qed.

Lemma install_of_bare_directory_entry_witness :
  let s1 := (install_package_from_github host_v1 ["home"] "pkg" "main" None
               ["tmp"; "t1"] sample_store).2 in
  let s2 := (install_package_from_github host_bare ["home"] "pkg" "main" None
               ["tmp"; "t2"] s1).2 in
  s1 !! sample_dest = Some Dir ∧ s2 !! sample_dest = None.
Proof.
  intros s1 s2. split; [vm_compute; reflexivity|].
  refine (proj2 (install_of_bare_directory_entry host_bare ["home"] "pkg" "main" None
                   ["tmp"; "t2"] s1 s2 sample_dest _ _ _ _ _) sample_dest _).
  - split; reflexivity.
  - intros Hp%prefix_length. simpl in Hp. lia.
  - intros Hd. vm_compute in Hd. discriminate Hd.
  - intros raw members Hhost. injection Hhost as <- <-. vm_compute matching.
    apply Forall_cons_2; [reflexivity|apply Forall_nil_2].
  - apply injective_projections; [vm_compute; reflexivity|reflexivity].
  - done.
Defined.
